(** * backboard_browser: the TTL cache over remote memories, the tolerant
      message decoding, the route error mapping and the model catalog cache.

    The development embeds the Python sources under [app/] as Rocq
    functions.  Code that talks to the remote platform is written in a small
    state-and-exception monad over an explicit model of the platform. *)

From Stdlib Require Import ZArith QArith List String Ascii Bool Lia Arith.
From Stdlib Require Import Permutation.
From Stdlib Require Import DecimalString DecimalNat DecimalZ.
Import ListNotations.
Close Scope Q_scope.
Local Open Scope string_scope.
Local Open Scope Z_scope.

Set Implicit Arguments.

(* ------------------------------------------------------------------ *)
(** ** Python values *)

(** The payloads the application handles are JSON documents: [None],
    booleans, integers, strings, lists and string-keyed dicts.  Floats are
    not part of the model.  A dict is the list of its items in insertion
    order. *)
Unset Elimination Schemes.
Inductive pyval : Type :=
| PNone
| PBool (b : bool)
| PInt (z : Z)
| PStr (s : string)
| PList (l : list pyval)
| PDict (d : list (string * pyval)).
Set Elimination Schemes.

Definition pydict : Type := list (string * pyval).

(** Exceptions, with the part of the class hierarchy the handlers look at:
    pydantic's [ValidationError] derives from [ValueError]. *)
Inductive exn : Type :=
| ValueError (msg : string)
| ValidationError (msg : string)
| TypeError (msg : string)
| AttributeError (msg : string)
| RemoteError (msg : string).

Definition is_ValueError (e : exn) : bool :=
  match e with
  | ValueError _ | ValidationError _ => true
  | _ => false
  end.

(** [str(e)] *)
Definition str_exn (e : exn) : string :=
  match e with
  | ValueError m | ValidationError m | TypeError m
  | AttributeError m | RemoteError m => m
  end.

Module Py.

(** [bool(v)] *)
Definition truthy (v : pyval) : bool :=
  match v with
  | PNone => false
  | PBool b => b
  | PInt z => negb (z =? 0)
  | PStr s => negb (s =? "")%string
  | PList l => match l with [] => false | _ => true end
  | PDict d => match d with [] => false | _ => true end
  end.

(** [bool(s)] for a [str] *)
Definition str_truthy (s : string) : bool := negb (s =? "")%string.

(** [bool(x)] for an [Optional[str]] *)
Definition opt_str_truthy (o : option string) : bool :=
  match o with Some s => str_truthy s | None => false end.

(** [d.get(k)], [None] when the key is missing *)
Fixpoint dict_lookup (k : string) (d : pydict) : option pyval :=
  match d with
  | [] => None
  | (k', v) :: rest => if (k' =? k)%string then Some v else dict_lookup k rest
  end.

Definition dict_get (k : string) (d : pydict) : pyval :=
  match dict_lookup k d with Some v => v | None => PNone end.

(** [d.get(k, default)] *)
Definition dict_get_default (k : string) (dflt : pyval) (d : pydict) : pyval :=
  match dict_lookup k d with Some v => v | None => dflt end.

(** [k in d] *)
Definition dict_has (k : string) (d : pydict) : bool :=
  match dict_lookup k d with Some _ => true | None => false end.

(** [v == s] for a [str] [s]: only an equal string compares equal. *)
Definition eq_str (v : pyval) (s : string) : bool :=
  match v with PStr t => (t =? s)%string | _ => false end.

(** The integer a value stands for in arithmetic; [bool] is a subclass of
    [int], everything else raises [TypeError]. *)
Definition as_int (v : pyval) : option Z :=
  match v with
  | PInt z => Some z
  | PBool true => Some 1
  | PBool false => Some 0
  | _ => None
  end.

(** [x or y] on an [Optional[int]] first operand *)
Definition int_or (x : option Z) (y : Z) : Z :=
  match x with
  | Some z => if z =? 0 then y else z
  | None => y
  end.

End Py.

(* ------------------------------------------------------------------ *)
(** ** Records of [app/models] *)

(** [app.models.memory.Memory] (the timestamps are never filled in by the
    service and are left out) *)
Record Memory : Type := mkMemory {
  id : option string;
  content : string;
  metadata : option pydict;
  tags : option (list string) }.

(** [app.models.memory.MemoryCreate] *)
Record MemoryCreate : Type := mkMemoryCreate {
  mc_content : string;
  mc_metadata : option pydict;
  mc_tags : option (list string) }.

(** [app.models.assistant.Assistant], with the fields the service reads *)
Record Assistant : Type := mkAssistant {
  a_id : string;
  a_name : string;
  a_system_prompt : option string }.

(* ------------------------------------------------------------------ *)
(** ** The remote platform *)

(** A memory as the platform keeps it: the assistant it belongs to, its
    id, its content and its metadata. *)
Record RemoteMemory : Type := mkRemoteMemory {
  rm_owner : string;
  rm_id : option string;
  rm_content : string;
  rm_metadata : option pydict }.

(** The state a cache call runs in: the [BackboardCache] object's field,
    the platform's assistants and memories in listing order, the counter the
    platform draws new ids from, the failures the next remote calls will
    meet ([Some e]: the call raises [e]), and the clock. *)
Record State : Type := mkState {
  self_cache_assistant_id : option string;
  assistants : list Assistant;
  memories : list RemoteMemory;
  next_id : nat;
  faults : list (option exn);
  now : Z }.

Definition set_self (x : option string) (s : State) : State :=
  mkState x (assistants s) (memories s) (next_id s) (faults s) (now s).
Definition set_assistants (x : list Assistant) (s : State) : State :=
  mkState (self_cache_assistant_id s) x (memories s) (next_id s) (faults s) (now s).
Definition set_memories (x : list RemoteMemory) (s : State) : State :=
  mkState (self_cache_assistant_id s) (assistants s) x (next_id s) (faults s) (now s).
Definition set_next_id (x : nat) (s : State) : State :=
  mkState (self_cache_assistant_id s) (assistants s) (memories s) x (faults s) (now s).
Definition set_faults (x : list (option exn)) (s : State) : State :=
  mkState (self_cache_assistant_id s) (assistants s) (memories s) (next_id s) x (now s).
Definition set_now (x : Z) (s : State) : State :=
  mkState (self_cache_assistant_id s) (assistants s) (memories s) (next_id s) (faults s) x.

(** Ids handed out by the platform: opaque, never empty. *)
Definition mint (n : nat) : string :=
  "id-" ++ NilEmpty.string_of_uint (Nat.to_uint n).

(* ------------------------------------------------------------------ *)
(** ** State and exceptions *)

Inductive outcome (A : Type) : Type :=
| Ret (a : A)
| Raise (e : exn).
Arguments Ret {A} a.
Arguments Raise {A} e.

Definition M (A : Type) : Type := State -> outcome A * State.

Definition ret {A} (a : A) : M A := fun s => (Ret a, s).
Definition raise {A} (e : exn) : M A := fun s => (Raise e, s).
Definition bind {A B} (c : M A) (k : A -> M B) : M B :=
  fun s => match c s with
           | (Ret a, s') => k a s'
           | (Raise e, s') => (Raise e, s')
           end.
(** [try: c  except Exception as e: h e] *)
Definition try_except {A} (c : M A) (h : exn -> M A) : M A :=
  fun s => match c s with
           | (Ret a, s') => (Ret a, s')
           | (Raise e, s') => h e s'
           end.
Definition gets {A} (f : State -> A) : M A := fun s => (Ret (f s), s).
Definition modify (f : State -> State) : M unit := fun s => (Ret tt, f s).

Declare Scope py_scope.
Delimit Scope py_scope with py.
Notation "x <- c ;; k" := (bind c (fun x => k))
  (at level 61, c at next level, right associativity) : py_scope.
Notation "c ;; k" := (bind c (fun _ => k))
  (at level 61, right associativity) : py_scope.
Local Open Scope py_scope.

(** Every remote call first meets the next entry of the failure schedule. *)
Definition remote_call : M unit :=
  fun s => match faults s with
           | [] => (Ret tt, s)
           | None :: fs => (Ret tt, set_faults fs s)
           | Some e :: fs => (Raise e, set_faults fs s)
           end.

Definition fresh_id : M string :=
  fun s => (Ret (mint (next_id s)), set_next_id (S (next_id s)) s).

(** [time.time()] truncated by [int] *)
Definition int_time : M Z := gets now.

(* ------------------------------------------------------------------ *)
(** ** [app/services/backboard.py]: the calls the cache uses *)

Module BackboardService.

(** What the platform does on its side of each call. *)
Definition owned_by (assistant_id : string) (r : RemoteMemory) : bool :=
  (rm_owner r =? assistant_id)%string.

Definition has_id (memory_id : string) (r : RemoteMemory) : bool :=
  match rm_id r with Some i => (i =? memory_id)%string | None => false end.

Definition to_Memory (r : RemoteMemory) : Memory :=
  mkMemory (rm_id r) (rm_content r) (rm_metadata r) None.

(** [list_assistants(skip, limit)]: one page of the listing *)
Definition list_assistants (skip limit : nat) : M (list Assistant) :=
  remote_call ;;
  l <- gets assistants ;;
  ret (firstn limit (skipn skip l)).

(** [create_assistant]: only the name and the system prompt are sent *)
Definition create_assistant (name : string) (system_prompt : option string)
  : M Assistant :=
  remote_call ;;
  i <- fresh_id ;;
  let a := mkAssistant i name system_prompt in
  modify (fun s => set_assistants (assistants s ++ [a]) s) ;;
  ret a.

(** [list_memories(assistant_id)] *)
Definition list_memories (assistant_id : string) : M (list Memory) :=
  remote_call ;;
  l <- gets memories ;;
  ret (map to_Memory (filter (owned_by assistant_id) l)).

(** [store_memory(memory, assistant_id)]: content and metadata are sent,
    the tags stay local.  The platform gives the new record an id, but its
    answer to [add_memory] is a plain dict, on which
    [getattr(result, 'id', None)] finds no attribute: the [Memory] that is
    returned carries no id. *)
Definition store_memory (memory : MemoryCreate) (assistant_id : string)
  : M Memory :=
  remote_call ;;
  i <- fresh_id ;;
  let r := mkRemoteMemory assistant_id (Some i) (mc_content memory)
                          (mc_metadata memory) in
  modify (fun s => set_memories (memories s ++ [r]) s) ;;
  ret (mkMemory None (mc_content memory) (mc_metadata memory)
                (mc_tags memory)).

(** [delete_memory(memory_id, assistant_id)] *)
Definition delete_memory (memory_id assistant_id : string) : M bool :=
  remote_call ;;
  modify (fun s =>
    set_memories
      (filter (fun r => negb (owned_by assistant_id r && has_id memory_id r))
              (memories s)) s) ;;
  ret true.

(** [retrieve_memory(memory_id, assistant_id)]; the platform answers an
    unknown id with an error. *)
Definition retrieve_memory (memory_id assistant_id : string) : M Memory :=
  remote_call ;;
  l <- gets memories ;;
  match find (fun r => owned_by assistant_id r && has_id memory_id r) l with
  | Some r => ret (to_Memory r)
  | None => raise (RemoteError "Memory not found")
  end.

End BackboardService.

(* ------------------------------------------------------------------ *)
(** ** The [json] module, as far as the cache uses it *)

Module Json.

Local Open Scope char_scope.

Definition dquote : ascii := ascii_of_nat 34.
Definition backslash : ascii := ascii_of_nat 92.

(** *** [json.dumps] with its defaults ([ensure_ascii], separators
    comma-space and colon-space).  A character of a Rocq string stands for
    the code point of the same number.  [dumps] gives the text that
    [json.dumps] returns when it returns; on an integer of more than 4300
    digits and on containers nested beyond the recursion limit the
    interpreter raises instead. *)

Definition hex_digit (n : N) : ascii :=
  if (n <? 10)%N then ascii_of_N (48 + n) else ascii_of_N (87 + n).

Definition escape_char (c : ascii) : string :=
  if (c =? dquote) then String backslash (String dquote EmptyString)
  else if (c =? backslash) then String backslash (String backslash EmptyString)
  else if (c =? ascii_of_nat 10) then String backslash "n"
  else if (c =? ascii_of_nat 13) then String backslash "r"
  else if (c =? ascii_of_nat 9) then String backslash "t"
  else if (c =? ascii_of_nat 8) then String backslash "b"
  else if (c =? ascii_of_nat 12) then String backslash "f"
  else if ((N_of_ascii c <? 32) || (126 <? N_of_ascii c))%N then
    String backslash
      (String "u" (String "0" (String "0"
        (String (hex_digit (N_of_ascii c / 16))
           (String (hex_digit (N_of_ascii c mod 16)) EmptyString)))))
  else String c EmptyString.

Fixpoint escape (s : string) : string :=
  match s with
  | EmptyString => EmptyString
  | String c r => (escape_char c ++ escape r)%string
  end.

Definition quote (s : string) : string :=
  String dquote (escape s ++ String dquote EmptyString).

(** [str(z)] for an [int] *)
Definition str_int (z : Z) : string :=
  match z with
  | Z0 => "0"%string
  | Zpos p => NilEmpty.string_of_uint (Pos.to_uint p)
  | Zneg p => String "-" (NilEmpty.string_of_uint (Pos.to_uint p))
  end.

Fixpoint dumps (v : pyval) : string :=
  match v with
  | PNone => "null"
  | PBool true => "true"
  | PBool false => "false"
  | PInt z => str_int z
  | PStr s => quote s
  | PList l =>
      let fix items (l : list pyval) : string :=
        match l with
        | [] => EmptyString
        | [x] => dumps x
        | x :: rest => dumps x ++ ", " ++ items rest
        end in
      "[" ++ items l ++ "]"
  | PDict d =>
      let fix members (d : list (string * pyval)) : string :=
        match d with
        | [] => EmptyString
        | [(k, x)] => quote k ++ ": " ++ dumps x
        | (k, x) :: rest => quote k ++ ": " ++ dumps x ++ ", " ++ members rest
        end in
      "{" ++ members d ++ "}"
  end%string.

(** *** [json.loads] *)

(** The decoder's answer on a text: the value and the text left, a
    [JSONDecodeError], or [Beyond] when the text leaves the modelled values
    (a float literal, [NaN], [Infinity], an escape above code point 255) or
    the fuel of the scan runs out; nothing is claimed about such a text. *)
Inductive parse (A : Type) : Type :=
| Ok (a : A) (rest : string)
| Err
| Beyond.
Arguments Ok {A} a rest.
Arguments Err {A}.
Arguments Beyond {A}.

Definition pmap {A B} (f : A -> B) (p : parse A) : parse B :=
  match p with
  | Ok a r => Ok (f a) r
  | Err => Err
  | Beyond => Beyond
  end.

Definition is_ws (c : ascii) : bool :=
  (c =? " ") || (c =? ascii_of_nat 9) || (c =? ascii_of_nat 10)
  || (c =? ascii_of_nat 13).

Fixpoint skip_ws (s : string) : string :=
  match s with
  | String c r => if is_ws c then skip_ws r else s
  | EmptyString => EmptyString
  end.

Definition digit_of_char (c : ascii) : option (Decimal.uint -> Decimal.uint) :=
  match c with
  | "0" => Some Decimal.D0 | "1" => Some Decimal.D1 | "2" => Some Decimal.D2
  | "3" => Some Decimal.D3 | "4" => Some Decimal.D4 | "5" => Some Decimal.D5
  | "6" => Some Decimal.D6 | "7" => Some Decimal.D7 | "8" => Some Decimal.D8
  | "9" => Some Decimal.D9
  | _ => None
  end.

(** The longest run of digits at the head of a text *)
Fixpoint read_digits (s : string) : Decimal.uint * string :=
  match s with
  | String c r =>
      match digit_of_char c with
      | Some d => let (ds, rest) := read_digits r in (d ds, rest)
      | None => (Decimal.Nil, s)
      end
  | EmptyString => (Decimal.Nil, EmptyString)
  end.

Definition starts_float_tail (s : string) : bool :=
  match s with
  | String c _ => (c =? ".") || (c =? "e") || (c =? "E")
  | EmptyString => false
  end.

(** An integer literal without its sign.  A digit run with a superfluous
    leading zero ends in an error whatever follows. *)
Definition parse_nat (s : string) : parse Z :=
  match read_digits s with
  | (Decimal.Nil, _) => Err
  | (Decimal.D0 (Decimal.Nil), rest) =>
      if starts_float_tail rest then Beyond else Ok 0 rest
  | (Decimal.D0 _, _) => Err
  | (ds, rest) =>
      if starts_float_tail rest then Beyond
      else Ok (Z.of_N (Pos.of_uint ds)) rest
  end.

Definition hex_val (c : ascii) : option N :=
  let n := N_of_ascii c in
  if ((48 <=? n) && (n <=? 57))%N then Some (n - 48)%N
  else if ((97 <=? n) && (n <=? 102))%N then Some (n - 87)%N
  else if ((65 <=? n) && (n <=? 70))%N then Some (n - 55)%N
  else None.

Definition hex4 (a b c d : ascii) : option N :=
  match hex_val a, hex_val b, hex_val c, hex_val d with
  | Some x, Some y, Some z, Some w =>
      Some (((x * 16 + y) * 16 + z) * 16 + w)%N
  | _, _, _, _ => None
  end.

Definition unescape (e : ascii) : option ascii :=
  if (e =? dquote) then Some dquote
  else if (e =? backslash) then Some backslash
  else if (e =? "/") then Some "/"
  else if (e =? "b") then Some (ascii_of_nat 8)
  else if (e =? "f") then Some (ascii_of_nat 12)
  else if (e =? "n") then Some (ascii_of_nat 10)
  else if (e =? "r") then Some (ascii_of_nat 13)
  else if (e =? "t") then Some (ascii_of_nat 9)
  else None.

(** A string literal after its opening quote (strict mode: no raw control
    character) *)
Fixpoint parse_string_body (s : string) : parse string :=
  match s with
  | EmptyString => Err
  | String c r =>
      if (c =? dquote) then Ok EmptyString r
      else if (c =? backslash) then
        match r with
        | String e r1 =>
            if (e =? "u") then
              match r1 with
              | String h1 (String h2 (String h3 (String h4 r2))) =>
                  match hex4 h1 h2 h3 h4 with
                  | Some n =>
                      if (n <? 256)%N
                      then pmap (String (ascii_of_N n)) (parse_string_body r2)
                      else Beyond
                  | None => Err
                  end
              | _ => Err
              end
            else
              match unescape e with
              | Some ch => pmap (String ch) (parse_string_body r1)
              | None => Err
              end
        | EmptyString => Err
        end
      else if (N_of_ascii c <? 32)%N then Err
      else pmap (String c) (parse_string_body r)
  end.

Fixpoint has_prefix (p s : string) : option string :=
  match p, s with
  | EmptyString, _ => Some s
  | String a p', String b s' => if (a =? b) then has_prefix p' s' else None
  | String _ _, EmptyString => None
  end.

Definition literal (p : string) (v : pyval) (s : string) : parse pyval :=
  match has_prefix p s with
  | Some rest => Ok v rest
  | None => Err
  end.

(** [dict(pairs)]: a repeated key keeps its first position and takes the
    last value. *)
Fixpoint dict_set (k : string) (v : pyval) (d : pydict) : pydict :=
  match d with
  | [] => [(k, v)]
  | (k', v') :: rest =>
      if (k' =? k)%string then (k, v) :: rest else (k', v') :: dict_set k v rest
  end.

Definition dict_of_pairs (l : list (string * pyval)) : pydict :=
  fold_left (fun d kv => dict_set (fst kv) (snd kv) d) l [].

Section Containers.
(** The scanner for one value, as the array and object scanners get it. *)
Variable scan_once : string -> parse pyval.

(** The elements of an array, after the opening bracket and blanks *)
Fixpoint parse_elements (fuel : nat) (s : string) : parse (list pyval) :=
  match fuel with
  | O => Beyond
  | S fuel' =>
      match scan_once s with
      | Ok v r =>
          match skip_ws r with
          | String c r1 =>
              if (c =? "]") then Ok [v] r1
              else if (c =? ",") then
                pmap (cons v) (parse_elements fuel' (skip_ws r1))
              else Err
          | EmptyString => Err
          end
      | Err => Err
      | Beyond => Beyond
      end
  end.

(** The members of an object, at a property name *)
Fixpoint parse_members (fuel : nat) (s : string)
  : parse (list (string * pyval)) :=
  match fuel with
  | O => Beyond
  | S fuel' =>
      match s with
      | String q r =>
          if (q =? dquote) then
            match parse_string_body r with
            | Ok k r1 =>
                match skip_ws r1 with
                | String c r2 =>
                    if (c =? ":") then
                      match scan_once (skip_ws r2) with
                      | Ok v r3 =>
                          match skip_ws r3 with
                          | String c' r4 =>
                              if (c' =? "}") then Ok [(k, v)] r4
                              else if (c' =? ",") then
                                pmap (cons (k, v))
                                     (parse_members fuel' (skip_ws r4))
                              else Err
                          | EmptyString => Err
                          end
                      | Err => Err
                      | Beyond => Beyond
                      end
                    else Err
                | EmptyString => Err
                end
            | Err => Err
            | Beyond => Beyond
            end
          else Err
      | EmptyString => Err
      end
  end.
End Containers.

(** One value at the head of a text *)
Fixpoint parse_value (fuel : nat) (s : string) : parse pyval :=
  match fuel with
  | O => Beyond
  | S fuel' =>
      match s with
      | EmptyString => Err
      | String c r =>
          if (c =? dquote) then pmap PStr (parse_string_body r)
          else if (c =? "{") then
            match skip_ws r with
            | String c1 r1 =>
                if (c1 =? "}") then Ok (PDict []) r1
                else pmap (fun l => PDict (dict_of_pairs l))
                          (parse_members (parse_value fuel') fuel' (skip_ws r))
            | EmptyString => Err
            end
          else if (c =? "[") then
            match skip_ws r with
            | String c1 r1 =>
                if (c1 =? "]") then Ok (PList []) r1
                else pmap PList
                          (parse_elements (parse_value fuel') fuel' (skip_ws r))
            | EmptyString => Err
            end
          else if (c =? "n") then literal "null" PNone s
          else if (c =? "t") then literal "true" (PBool true) s
          else if (c =? "f") then literal "false" (PBool false) s
          else if (c =? "N") || (c =? "I") then Beyond
          else if (c =? "-") then
            match r with
            | String "I" _ => Beyond
            | _ => pmap (fun n => PInt (- n)) (parse_nat r)
            end
          else pmap PInt (parse_nat s)
      end
  end.

(** [json.loads(s)] for a [str] [s] *)
Definition loads (s : string) : parse pyval :=
  match parse_value (S (String.length s)) (skip_ws s) with
  | Ok v rest =>
      match skip_ws rest with
      | EmptyString => Ok v EmptyString
      | String _ _ => Err
      end
  | Err => Err
  | Beyond => Beyond
  end.

(** *** Values that are Python objects *)

Fixpoint distinct (l : list string) : bool :=
  match l with
  | [] => true
  | k :: rest => negb (existsb (String.eqb k) rest) && distinct rest
  end.

(** The keys of every dict are pairwise distinct. *)
Fixpoint wf (v : pyval) : bool :=
  match v with
  | PList l => forallb wf l
  | PDict d => distinct (map fst d) && forallb (fun kv => wf (snd kv)) d
  | _ => true
  end.

(** The number of nodes of a value, a bound on the fuel its text needs *)
Fixpoint size (v : pyval) : nat :=
  match v with
  | PList l => S (list_sum (map size l))
  | PDict d => S (list_sum (map (fun kv => size (snd kv)) d))
  | _ => 1%nat
  end.

(** What may follow a value inside a document *)
Definition delim (rest : string) : bool :=
  match rest with
  | EmptyString => true
  | String c _ => (c =? ",") || (c =? "]") || (c =? "}")
  end.

End Json.

(* ------------------------------------------------------------------ *)
(** ** [app/services/cache.py] *)

(** [type(v).__name__] *)
Definition type_name (v : pyval) : string :=
  match v with
  | PNone => "NoneType"
  | PBool _ => "bool"
  | PInt _ => "int"
  | PStr _ => "str"
  | PList _ => "list"
  | PDict _ => "dict"
  end.

(** [a - v] for an [int] [a] *)
Definition int_sub (a : Z) (v : pyval) : M Z :=
  match Py.as_int v with
  | Some z => ret (a - z)
  | None => raise (TypeError ("unsupported operand type(s) for -: 'int' and '"
                              ++ type_name v ++ "'"))
  end.

(** [a < v] and [a >= v] for an [int] [a] *)
Definition int_lt (a : Z) (v : pyval) : M bool :=
  match Py.as_int v with
  | Some z => ret (a <? z)
  | None => raise (TypeError ("'<' not supported between instances of 'int' and '"
                              ++ type_name v ++ "'"))
  end.

Definition int_ge (a : Z) (v : pyval) : M bool :=
  match Py.as_int v with
  | Some z => ret (a >=? z)
  | None => raise (TypeError ("'>=' not supported between instances of 'int' and '"
                              ++ type_name v ++ "'"))
  end.

(** What [get] returns: a value of the model, or, for a content whose
    decoding leaves the model, the value of the source expression
    [json.loads(content)] with its fall-back to [content], left unevaluated. *)
Inductive cached : Type :=
| Value (v : pyval)
| LoadsOrRaw (content : string).

Module BackboardCache.

Import BackboardService.

Definition CACHE_ASSISTANT_NAME : string := "bb_browser_cache".
Definition CACHE_TTL : Z := 3600.

Definition is_cache_assistant (a : Assistant) : bool :=
  (a_name a =? CACHE_ASSISTANT_NAME)%string.

Definition _get_cache_assistant_id : M string :=
  cur <- gets self_cache_assistant_id ;;
  if Py.opt_str_truthy cur then
    ret (match cur with Some i => i | None => EmptyString end)
  else
    assistants <- list_assistants 0 100 ;;
    match find is_cache_assistant assistants with
    | Some assistant =>
        modify (set_self (Some (a_id assistant))) ;;
        ret (a_id assistant)
    | None =>
        cache_assistant <-
          create_assistant CACHE_ASSISTANT_NAME
            (Some "Cache storage for bb_browser application") ;;
        modify (set_self (Some (a_id cache_assistant))) ;;
        ret (a_id cache_assistant)
    end.

(** [memory.metadata and memory.metadata.get('cache_key') == key] *)
Definition holds_key (key : string) (memory : Memory) : bool :=
  match metadata memory with
  | Some d => Py.truthy (PDict d) && Py.eq_str (Py.dict_get "cache_key" d) key
  | None => false
  end.

(** [memory.metadata and memory.metadata.get('cache_key')] *)
Definition holds_some_key (memory : Memory) : bool :=
  match metadata memory with
  | Some d => Py.truthy (PDict d) && Py.truthy (Py.dict_get "cache_key" d)
  | None => false
  end.

Definition metadata_dict (memory : Memory) : pydict :=
  match metadata memory with Some d => d | None => [] end.

(** [memory.id] where it is known to be a string *)
Definition the_id (memory : Memory) : string :=
  match id memory with Some i => i | None => EmptyString end.

(** The loop of [delete] over the listed memories *)
Fixpoint delete_loop (key assistant_id : string) (memories : list Memory)
  : M unit :=
  match memories with
  | [] => ret tt
  | memory :: rest =>
      if holds_key key memory then
        if Py.opt_str_truthy (id memory) then
          delete_memory (the_id memory) assistant_id ;;
          delete_loop key assistant_id rest
        else delete_loop key assistant_id rest
      else delete_loop key assistant_id rest
  end.

(** The body of the [try] of [delete] *)
Definition delete_try (key : string) : M bool :=
  assistant_id <- _get_cache_assistant_id ;;
  memories <- list_memories assistant_id ;;
  delete_loop key assistant_id memories ;;
  ret true.

Definition delete (key : string) : M bool :=
  try_except (delete_try key) (fun e => ret false).

(** [json.loads(memory.content)], the raw content when that raises *)
Definition decode (content : string) : cached :=
  match Json.loads content with
  | Json.Ok v _ => Value v
  | Json.Err => Value (PStr content)
  | Json.Beyond => LoadsOrRaw content
  end.

(** The loop of [get] over the listed memories *)
Fixpoint get_loop (key : string) (ttl : option Z) (memories : list Memory)
  : M cached :=
  match memories with
  | [] => ret (Value PNone)
  | memory :: rest =>
      if holds_key key memory then
        let cache_time :=
          Py.dict_get_default "cache_time" (PInt 0) (metadata_dict memory) in
        let cache_ttl :=
          Py.dict_get_default "ttl" (PInt (Py.int_or ttl CACHE_TTL))
                              (metadata_dict memory) in
        t <- int_time ;;
        age <- int_sub t cache_time ;;
        valid <- int_lt age cache_ttl ;;
        if valid then ret (decode (content memory))
        else delete key ;; get_loop key ttl rest
      else get_loop key ttl rest
  end.

(** The body of the [try] of [get] *)
Definition get_try (key : string) (ttl : option Z) : M cached :=
  assistant_id <- _get_cache_assistant_id ;;
  memories <- list_memories assistant_id ;;
  get_loop key ttl memories.

Definition get (key : string) (ttl : option Z) : M cached :=
  try_except (get_try key ttl) (fun e => ret (Value PNone)).

(** [json.dumps(value) if not isinstance(value, str) else value] *)
Definition encode (value : pyval) : string :=
  match value with PStr s => s | _ => Json.dumps value end.

(** The body of the [try] of [set] *)
Definition set_try (key : string) (value : pyval) (ttl : option Z) : M bool :=
  assistant_id <- _get_cache_assistant_id ;;
  delete key ;;
  t <- int_time ;;
  let cache_data :=
    [("cache_key", PStr key); ("cache_time", PInt t);
     ("ttl", PInt (Py.int_or ttl CACHE_TTL))] in
  let memory_create :=
    mkMemoryCreate (encode value) (Some cache_data) (Some ["cache"; key]) in
  store_memory memory_create assistant_id ;;
  ret true.

Definition set (key : string) (value : pyval) (ttl : option Z) : M bool :=
  try_except (set_try key value ttl) (fun e => ret false).

(** The loop of [clear_expired], threading [expired_count] *)
Fixpoint clear_loop (assistant_id : string) (current_time : Z)
  (memories : list Memory) (expired_count : Z) : M Z :=
  match memories with
  | [] => ret expired_count
  | memory :: rest =>
      if holds_some_key memory then
        let cache_time :=
          Py.dict_get_default "cache_time" (PInt 0) (metadata_dict memory) in
        let cache_ttl :=
          Py.dict_get_default "ttl" (PInt CACHE_TTL) (metadata_dict memory) in
        age <- int_sub current_time cache_time ;;
        expired <- int_ge age cache_ttl ;;
        if expired then
          if Py.opt_str_truthy (id memory) then
            delete_memory (the_id memory) assistant_id ;;
            clear_loop assistant_id current_time rest (expired_count + 1)
          else clear_loop assistant_id current_time rest expired_count
        else clear_loop assistant_id current_time rest expired_count
      else clear_loop assistant_id current_time rest expired_count
  end.

(** The body of the [try] of [clear_expired] *)
Definition clear_expired_try : M Z :=
  assistant_id <- _get_cache_assistant_id ;;
  memories <- list_memories assistant_id ;;
  current_time <- int_time ;;
  clear_loop assistant_id current_time memories 0.

Definition clear_expired : M Z :=
  try_except clear_expired_try (fun e => ret 0).

End BackboardCache.


(* ------------------------------------------------------------------ *)
(** ** [str] and [repr] *)

Module PyStr.

Local Open Scope char_scope.

Definition squote : ascii := ascii_of_nat 39.

Fixpoint mem_char (c : ascii) (s : string) : bool :=
  match s with
  | EmptyString => false
  | String x r => (x =? c) || mem_char c r
  end.

(** The quote [repr] encloses a string in: the double quote when the
    string has single quotes and no double quote, the single quote
    otherwise. *)
Definition repr_quote (s : string) : ascii :=
  if mem_char squote s && negb (mem_char Json.dquote s)
  then Json.dquote else squote.

(** [str.isprintable] on the code points 128 to 255: the C1 controls, the
    no-break space and the soft hyphen are not printable. *)
Definition latin1_printable (n : N) : bool :=
  (160 <? n)%N && negb (n =? 173)%N.

Definition repr_char (q c : ascii) : string :=
  let n := N_of_ascii c in
  if (c =? q) || (c =? Json.backslash) then
    String Json.backslash (String c EmptyString)
  else if (c =? ascii_of_nat 9) then String Json.backslash "t"
  else if (c =? ascii_of_nat 10) then String Json.backslash "n"
  else if (c =? ascii_of_nat 13) then String Json.backslash "r"
  else if ((n <? 32) || (n =? 127)
           || ((127 <? n) && negb (latin1_printable n)))%N then
    String Json.backslash
      (String "x" (String (Json.hex_digit (n / 16))
                     (String (Json.hex_digit (n mod 16)) EmptyString)))
  else String c EmptyString.

Fixpoint repr_body (q : ascii) (s : string) : string :=
  match s with
  | EmptyString => EmptyString
  | String c r => (repr_char q c ++ repr_body q r)%string
  end.

(** [repr(s)] for a [str] *)
Definition repr_str (s : string) : string :=
  let q := repr_quote s in
  String q (repr_body q s ++ String q EmptyString).

(** [repr(v)] *)
Fixpoint repr (v : pyval) : string :=
  match v with
  | PNone => "None"
  | PBool true => "True"
  | PBool false => "False"
  | PInt z => Json.str_int z
  | PStr s => repr_str s
  | PList l =>
      let fix items (l : list pyval) : string :=
        match l with
        | [] => EmptyString
        | [x] => repr x
        | x :: rest => repr x ++ ", " ++ items rest
        end in
      "[" ++ items l ++ "]"
  | PDict d =>
      let fix members (d : list (string * pyval)) : string :=
        match d with
        | [] => EmptyString
        | [(k, x)] => repr_str k ++ ": " ++ repr x
        | (k, x) :: rest => repr_str k ++ ": " ++ repr x ++ ", " ++ members rest
        end in
      "{" ++ members d ++ "}"
  end%string.

(** [str(v)] *)
Definition str (v : pyval) : string :=
  match v with
  | PStr s => s
  | _ => repr v
  end.

(** [c.lower()] on the code points 0 to 255 *)
Definition lower_char (c : ascii) : ascii :=
  let n := N_of_ascii c in
  if (((65 <=? n) && (n <=? 90))
      || ((192 <=? n) && (n <=? 222) && negb (n =? 215)))%N
  then ascii_of_N (n + 32) else c.

(** [s.lower()] *)
Fixpoint lower (s : string) : string :=
  match s with
  | EmptyString => EmptyString
  | String c r => String (lower_char c) (lower r)
  end.

(** [s.startswith(p)] *)
Fixpoint startswith (p s : string) : bool :=
  match p, s with
  | EmptyString, _ => true
  | String a p', String b s' => (a =? b) && startswith p' s'
  | String _ _, EmptyString => false
  end.

(** [p in s] for two strings *)
Fixpoint contains (p s : string) : bool :=
  startswith p s
  || match s with
     | EmptyString => false
     | String _ r => contains p r
     end.

End PyStr.

(* ------------------------------------------------------------------ *)
(** ** [app/models/thread.py]: [Message] *)

(** A message; [model_construct] stores the timestamp as it comes. *)
Record Message : Type := mkMessage {
  role : string;
  msg_content : string;
  timestamp : pyval }.

Module MessageModel.

(** The validator [normalize_role], run before the field validation *)
Definition normalize_role (v : pyval) : string :=
  match v with
  | PNone => "user"
  | _ => PyStr.str v
  end.

(** The entry [role] of the keyword arguments after the first statement
    of [__init__] *)
Fixpoint coerce_role (data : pydict) : pydict :=
  match data with
  | [] => []
  | (k, v) :: rest =>
      if (k =? "role")%string then (k, PStr (PyStr.str v)) :: rest
      else (k, v) :: coerce_role rest
  end.

Section Validation.
(** pydantic's validation of an [Optional[datetime]] input, [None]
    when it rejects the input *)
Variable validate_datetime : pyval -> option pyval.
(** pydantic's rendering of the validation errors of an input *)
Variable describe : string -> pydict -> string.

(** The constructor [Message] applied to the keyword arguments [data] *)
Definition init (data : pydict) : outcome Message :=
  let data := coerce_role data in
  let role :=
    match Py.dict_lookup "role" data with
    | Some v => normalize_role v
    | None => "user"
    end in
  let content :=
    match Py.dict_lookup "content" data with
    | Some (PStr s) => Some s
    | Some _ => None
    | None => Some EmptyString
    end in
  let timestamp :=
    match Py.dict_lookup "timestamp" data with
    | Some PNone => Some PNone
    | Some v => validate_datetime v
    | None => Some PNone
    end in
  match content, timestamp with
  | Some c, Some t => Ret (mkMessage role c t)
  | _, _ => Raise (ValidationError (describe "Message" data))
  end.
End Validation.

(** The message [_dict_to_model] builds from one [dict] of a thread's
    [messages] with [Message.model_construct] *)
Definition construct (msg : pydict) : Message :=
  mkMessage (PyStr.str (Py.dict_get_default "role" (PStr "user") msg))
            (PyStr.str (Py.dict_get_default "content" (PStr "") msg))
            (Py.dict_get "timestamp" msg).

(** The loop of [_dict_to_model] over the [messages] of a thread: entries
    that are not dicts are left out. *)
Fixpoint processed_messages (messages : list pyval) : list Message :=
  match messages with
  | [] => []
  | PDict msg :: rest => construct msg :: processed_messages rest
  | _ :: rest => processed_messages rest
  end.

End MessageModel.


(* ------------------------------------------------------------------ *)
(** ** [app/api]: the routes *)

(** A response: the status code and the JSON body *)
Record Response : Type := mkResponse {
  status : Z;
  body : pyval }.

(** [app.models.assistant.AssistantCreate] *)
Record AssistantCreate : Type := mkAssistantCreate {
  ac_name : string;
  ac_model : option string;
  ac_system_prompt : option string;
  ac_metadata : option pydict }.

(** [app.models.memory.MemorySearch] *)
Record MemorySearch : Type := mkMemorySearch {
  ms_query : string;
  ms_limit : option Z;
  ms_tags : option (list string) }.

Module Routes.

(** [jsonify({'error': str(e)}), code] *)
Definition error_response (code : Z) (message : string) : Response :=
  mkResponse code (PDict [("error", PStr message)]).

(** The two handlers every route ends in:
    [except ValueError as e: ... 401] and [except Exception as e: ... 500] *)
Definition handle (c : M Response) : M Response :=
  try_except c
    (fun e =>
       if is_ValueError e then ret (error_response 401 (str_exn e))
       else ret (error_response 500 (str_exn e))).

(** [get_service()]: the API key of the session, or [ValueError] *)
Definition get_service (session_key : option string) : M string :=
  if Py.opt_str_truthy session_key then
    ret (match session_key with Some k => k | None => EmptyString end)
  else raise (ValueError "API key not found in session").

(** pydantic on an [Optional[str]] field *)
Definition optional_str (o : option pyval) : option (option string) :=
  match o with
  | None | Some PNone => Some None
  | Some (PStr s) => Some (Some s)
  | Some _ => None
  end.

(** pydantic on an [Optional[dict]] field *)
Definition optional_dict (o : option pyval) : option (option pydict) :=
  match o with
  | None | Some PNone => Some None
  | Some (PDict d) => Some (Some d)
  | Some _ => None
  end.

(** [m.model_dump()] for an [Assistant] and a [Memory]; the fields the
    model does not track are [None]. *)
Definition dump_opt_str (o : option string) : pyval :=
  match o with Some s => PStr s | None => PNone end.

Definition dump_assistant (a : Assistant) : pyval :=
  PDict [("id", PStr (a_id a)); ("name", PStr (a_name a)); ("model", PNone);
         ("system_prompt", dump_opt_str (a_system_prompt a));
         ("created_at", PNone); ("updated_at", PNone); ("metadata", PNone)].

Definition dump_memory_items (m : Memory) : pydict :=
  [("id", dump_opt_str (id m)); ("content", PStr (content m));
   ("metadata", match metadata m with Some d => PDict d | None => PNone end);
   ("tags", match tags m with
            | Some l => PList (map PStr l)
            | None => PNone
            end);
   ("created_at", PNone); ("updated_at", PNone)].

Section Pydantic.
(** pydantic's rendering of the validation errors of an input *)
Variable describe : string -> pydict -> string.

(** The constructor [AssistantCreate] applied to keyword arguments *)
Definition AssistantCreate_init (data : pydict) : M AssistantCreate :=
  match Py.dict_lookup "name" data,
        optional_str (Py.dict_lookup "model" data),
        optional_str (Py.dict_lookup "system_prompt" data),
        optional_dict (Py.dict_lookup "metadata" data) with
  | Some (PStr name), Some model, Some system_prompt, Some metadata =>
      ret (mkAssistantCreate name model system_prompt metadata)
  | _, _, _, _ => raise (ValidationError (describe "AssistantCreate" data))
  end.

(** [POST /api/assistants]; [data] is what [request.get_json()] gave. *)
Definition create_assistant (session_key : option string) (data : pyval)
  : M Response :=
  handle
    (service <- get_service session_key ;;
     assistant_create <-
       match data with
       | PDict d => AssistantCreate_init d
       | _ => raise (TypeError
                       ("app.models.assistant.AssistantCreate() argument "
                        ++ "after ** must be a mapping, not "
                        ++ type_name data))
       end ;;
     assistant <-
       BackboardService.create_assistant (ac_name assistant_create)
         (ac_system_prompt assistant_create) ;;
     ret (mkResponse 201 (dump_assistant assistant))).
End Pydantic.

(** [GET /api/memory/<memory_id>]; [assistant_id] is
    [request.args.get('assistant_id')]. *)
Definition get_memory (session_key : option string) (memory_id : string)
    (assistant_id : option string) : M Response :=
  handle
    (service <- get_service session_key ;;
     if negb (Py.opt_str_truthy assistant_id) then
       ret (error_response 400 "assistant_id is required")
     else
       memory <-
         BackboardService.retrieve_memory memory_id
           (match assistant_id with Some a => a | None => EmptyString end) ;;
       ret (mkResponse 200 (PDict (dump_memory_items memory)))).

(** *** [POST /api/memory/search] without [assistant_id] *)

(** [len(l) >= limit]: a [TypeError] unless [limit] is a number *)
Definition len_ge (l : list pyval) (limit : pyval) : exn + bool :=
  match Py.as_int limit with
  | Some z => inr (Z.of_nat (List.length l) >=? z)
  | None => inl (TypeError
                   ("'>=' not supported between instances of 'int' and '"
                    ++ type_name limit ++ "'"))
  end.

(** [l[:k]] for an [int] [k] *)
Definition slice_to {A} (l : list A) (k : Z) : list A :=
  if 0 <=? k then firstn (Z.to_nat k) l
  else firstn (Z.to_nat (Z.of_nat (List.length l) + k)) l.

(** [l[:limit]]: [None] keeps the list, other values that are no
    integer raise [TypeError]. *)
Definition slice_limit (l : list pyval) (limit : pyval) : exn + list pyval :=
  match limit with
  | PNone => inr l
  | _ =>
      match Py.as_int limit with
      | Some k => inr (slice_to l k)
      | None => inl (TypeError ("slice indices must be integers or None "
                                ++ "or have an __index__ method"))
      end
  end.

(** The entry a match contributes to the result *)
Definition memory_dict (assistant : Assistant) (memory : Memory) : pyval :=
  PDict (dump_memory_items memory
         ++ [("assistant_id", PStr (a_id assistant));
             ("assistant_name", PStr (a_name assistant))])%list.

Definition matches_query (query : string) (memory : Memory) : bool :=
  PyStr.contains query (PyStr.lower (content memory)).

(** How a loop body was left *)
Inductive flow : Type :=
| Finished
| Broke
| Failed (e : exn).

(** The loop over the memories of one assistant; [all_memories] is the
    list the route appends to, and it keeps what was appended when the
    comparison with [limit] raises. *)
Fixpoint scan_memories (query : string) (limit : pyval)
    (assistant : Assistant) (memories : list Memory)
    (all_memories : list pyval) : list pyval * flow :=
  match memories with
  | [] => (all_memories, Finished)
  | memory :: rest =>
      if matches_query query memory then
        let all_memories :=
          (all_memories ++ [memory_dict assistant memory])%list in
        match len_ge all_memories limit with
        | inl e => (all_memories, Failed e)
        | inr true => (all_memories, Broke)
        | inr false => scan_memories query limit assistant rest all_memories
        end
      else scan_memories query limit assistant rest all_memories
  end.

(** The loop over the assistants; a failure inside the [try] of one
    assistant moves on to the next one. *)
Fixpoint scan_assistants (query : string) (limit : pyval)
    (assistants : list Assistant) (all_memories : list pyval)
  : M (list pyval) :=
  match assistants with
  | [] => ret all_memories
  | assistant :: rest =>
      fun s =>
        match BackboardService.list_memories (a_id assistant) s with
        | (Raise _, s') => scan_assistants query limit rest all_memories s'
        | (Ret memories, s') =>
            match scan_memories query limit assistant memories all_memories
            with
            | (all_memories, Failed _) =>
                scan_assistants query limit rest all_memories s'
            | (all_memories, _) =>
                match len_ge all_memories limit with
                | inl _ => scan_assistants query limit rest all_memories s'
                | inr true => (Ret all_memories, s')
                | inr false =>
                    scan_assistants query limit rest all_memories s'
                end
            end
        end
  end.

(** [lift] an outcome computed without the platform *)
Definition of_sum {A} (r : exn + A) : M A :=
  match r with inl e => raise e | inr a => ret a end.

(** [data.get('query', '').lower()] *)
Definition query_of (data : pydict) : exn + string :=
  match Py.dict_get_default "query" (PStr "") data with
  | PStr q => inr (PyStr.lower q)
  | v => inl (AttributeError ("'" ++ type_name v
                              ++ "' object has no attribute 'lower'"))
  end.

Definition is_not_cache_assistant (a : Assistant) : bool :=
  negb (a_name a =? "bb_browser_cache")%string.

(** The branch of [search_memory] taken when the body has no
    [assistant_id] *)
Definition search_all_assistants (data : pydict) : M Response :=
  assistants <- BackboardService.list_assistants 0 (Z.to_nat 10000) ;;
  let assistants := filter is_not_cache_assistant assistants in
  query <- of_sum (query_of data) ;;
  let limit := Py.dict_get_default "limit" (PInt 50) data in
  all_memories <- scan_assistants query limit assistants [] ;;
  result <- of_sum (slice_limit all_memories limit) ;;
  ret (mkResponse 200 (PDict [("data", PList result)])).

(** [BackboardService.search_memory(search, assistant_id)] *)
Definition service_search_memory (search : MemorySearch)
    (assistant_id : string) : M (list Memory) :=
  memories <- BackboardService.list_memories assistant_id ;;
  let memories :=
    if Py.str_truthy (ms_query search) then
      filter (matches_query (PyStr.lower (ms_query search))) memories
    else memories in
  ret (slice_to memories (Py.int_or (ms_limit search) 10)).

Section SearchOne.
(** pydantic's validation of the keyword arguments of [MemorySearch],
    and its rendering of validation errors *)
Variable validate_MemorySearch : pydict -> option MemorySearch.
Variable describe : string -> pydict -> string.

(** [POST /api/memory/search]; [data] is the JSON object of the body. *)
Definition search_memory (session_key : option string) (data : pydict)
  : M Response :=
  handle
    (service <- get_service session_key ;;
     let assistant_id := Py.dict_get "assistant_id" data in
     if negb (Py.truthy assistant_id) then search_all_assistants data
     else
       let kwargs :=
         filter (fun kv => negb (fst kv =? "assistant_id")%string) data in
       search <-
         match validate_MemorySearch kwargs with
         | Some search => ret search
         | None => raise (ValidationError (describe "MemorySearch" kwargs))
         end ;;
       memories <-
         service_search_memory search (PyStr.str assistant_id) ;;
       ret (mkResponse 200
              (PDict [("data",
                       PList (map (fun m => PDict (dump_memory_items m))
                                  memories))]))).
End SearchOne.

End Routes.


(* ------------------------------------------------------------------ *)
(** ** The model catalog and its process-local cache
       ([services/backboard.py], [models/model.py]) *)

Record ModelInfo : Type := mkModelInfo {
  mi_id : string;
  mi_name : string;
  mi_provider : option string;
  mi_capabilities : option (list string);
  mi_description : option string;
  mi_max_tokens : option Z;
  mi_supports_streaming : option bool }.

(** What the module global [_models_cache] holds: the empty dict it is
    initialised with, or the list a refresh stored. *)
Inductive catalog : Type :=
| EmptyDict
| Models (l : list ModelInfo).

(** A call of [requests.get]: the URL, the [X-API-Key] header and the
    [skip] and [limit] parameters when there are any. *)
Record Request : Type := mkRequest {
  rq_url : string;
  rq_api_key : string;
  rq_params : option (Z * Z) }.

(** The process and what surrounds it.  [clock] is what [time.time()] reads,
    taken as an exact number of seconds.  [sent] logs the requests issued so
    far, oldest first.  [replies] holds what the coming requests are answered,
    one entry a request: the decoded JSON body, or [None] when [requests.get],
    [raise_for_status] or [json] raises.  [completion] is the order in which
    the futures of a page fan-out finish. *)
Record World : Type := mkWorld {
  _models_cache : catalog;
  _models_cache_time : Q;
  clock : Q;
  sent : list Request;
  replies : list (option pyval);
  completion : list nat }.

Definition set_models_cache (x : catalog) (w : World) : World :=
  mkWorld x (_models_cache_time w) (clock w) (sent w) (replies w) (completion w).
Definition set_models_cache_time (x : Q) (w : World) : World :=
  mkWorld (_models_cache w) x (clock w) (sent w) (replies w) (completion w).
Definition set_clock (x : Q) (w : World) : World :=
  mkWorld (_models_cache w) (_models_cache_time w) x (sent w) (replies w)
          (completion w).
Definition set_sent (x : list Request) (w : World) : World :=
  mkWorld (_models_cache w) (_models_cache_time w) (clock w) x (replies w)
          (completion w).
Definition set_replies (x : list (option pyval)) (w : World) : World :=
  mkWorld (_models_cache w) (_models_cache_time w) (clock w) (sent w) x
          (completion w).

Module ModelCatalog.

Definition MODELS_URL : string := "https://app.backboard.io/api/models".

Definition _MODELS_CACHE_TTL : Q := 3600.

(** [bool(_models_cache)] *)
Definition catalog_truthy (c : catalog) : bool :=
  match c with
  | EmptyDict | Models [] => false
  | Models (_ :: _) => true
  end.

(** [_models_cache and (current_time - _models_cache_time) <
    _MODELS_CACHE_TTL] *)
Definition cache_is_fresh (current_time : Q) (w : World) : bool :=
  catalog_truthy (_models_cache w)
  && (if Qlt_le_dec (current_time - _models_cache_time w) _MODELS_CACHE_TTL
      then true else false).

(** The two assignments that update the cache *)
Definition store (result : list ModelInfo) (current_time : Q) (w : World)
  : World :=
  set_models_cache_time current_time (set_models_cache (Models result) w).

(** [requests.get(...)], [raise_for_status()] and [json()]: the request is
    logged and answered by the next reply; there is no answer once the
    replies are used up. *)
Definition http_get (rq : Request) (w : World) : option pyval * World :=
  match replies w with
  | [] => (None, set_sent (sent w ++ [rq])%list w)
  | r :: rest => (r, set_replies rest (set_sent (sent w ++ [rq])%list w))
  end.

(** Iteration over a value, as [list(v)], [for item in v] and
    [extend(v)] do it: the items of a list, the keys of a dict, the
    characters of a string; [None] stands for the [TypeError] on the rest. *)
Definition iter (v : pyval) : option (list pyval) :=
  match v with
  | PList l => Some l
  | PDict d => Some (map (fun kv => PStr (fst kv)) d)
  | PStr s =>
      Some (map (fun c => PStr (String c EmptyString)) (list_ascii_of_string s))
  | _ => None
  end.

(** [range(start, stop, step)] for a positive [step] *)
Definition range (start stop step : Z) : list Z :=
  map (fun i => start + step * Z.of_nat i)
      (seq 0 (Z.to_nat ((stop - start + step - 1) / step))).

(** The local function [fetch_page]: any failure gives the empty list. *)
Definition fetch_page (api_key : string) (skip : Z) (w : World)
  : pyval * World :=
  let (r, w') := http_get (mkRequest MODELS_URL api_key (Some (skip, 100))) w in
  (match r with
   | Some (PDict d) => Py.dict_get_default "models" (PList []) d
   | _ => PList []
   end, w').

(** The pages submitted to the executor; the model issues their requests in
    submission order. *)
Fixpoint fetch_pages (api_key : string) (skips : list Z) (w : World)
  : list pyval * World :=
  match skips with
  | [] => ([], w)
  | skip :: rest =>
      let (page, w1) := fetch_page api_key skip w in
      let (pages, w2) := fetch_pages api_key rest w1 in
      (page :: pages, w2)
  end.

(** [as_completed(futures)]: the futures in the order [order] names their
    positions; a position named twice counts once, and the positions not
    named come last, in submission order. *)
Definition as_completed (A : Type) (order : list nat) (futures : list A)
  : list A :=
  let n := List.length futures in
  let named := nodup Nat.eq_dec (filter (fun i => Nat.ltb i n) order) in
  let late :=
    filter (fun i => negb (existsb (Nat.eqb i) named)) (seq 0 n) in
  flat_map (fun i => match nth_error futures i with
                     | Some x => [x]
                     | None => []
                     end)
           (named ++ late)%list.

(** [all_models_data.extend(page_data)] under [except Exception: continue] *)
Definition extend (all_models_data : list pyval) (page_data : pyval)
  : list pyval :=
  match iter page_data with
  | Some items => (all_models_data ++ items)%list
  | None => all_models_data
  end.

Section Conversion.
(** [str.upper], whose results may leave the one-byte characters of the
    model *)
Variable upper : string -> string.

(** The constructor [ModelInfo] applied to the keyword arguments [id],
    [name], [provider], [capabilities], [description], [max_tokens] and
    [supports_streaming]; [None] when pydantic rejects them. *)
Variable ModelInfo_init :
  pyval -> pyval -> pyval -> list string -> string -> pyval -> pyval ->
  option ModelInfo.

(** The body of the conversion loop; [None] when it raises and the item
    is skipped. *)
Definition to_model_info (item : pyval) : option ModelInfo :=
  match item with
  | PDict d =>
      match Py.dict_get_default "model_type" (PStr "llm") d with
      | PStr model_type =>
          ModelInfo_init
            (Py.dict_get_default "name" (PStr "") d)
            (Py.dict_get_default "name" (PStr "") d)
            (Py.dict_get "provider" d)
            []
            (upper model_type ++ " model")
            (Py.dict_get "context_limit" d)
            (Py.dict_get_default "supports_tools" (PBool false) d)
      | _ => None
      end
  | _ => None
  end.

Definition convert (models_data : list pyval) : list ModelInfo :=
  flat_map (fun item => match to_model_info item with
                        | Some model_info => [model_info]
                        | None => []
                        end)
           models_data.

(** The [try] block of [list_models] up to the cache update: the catalog
    read from the platform, or [None] when an exception reaches the
    handler. *)
Definition fetch (api_key : string) (w : World)
  : option (list ModelInfo) * World :=
  let (r, w1) := http_get (mkRequest MODELS_URL api_key None) w in
  match r with
  | Some (PDict data) =>
      let models_data := Py.dict_get_default "models" (PList []) data in
      match Py.as_int (Py.dict_get_default "total" (PInt 0) data) with
      | Some total =>
          if total >? 100 then
            match iter models_data with
            | Some first =>
                let (pages, w2) :=
                  fetch_pages api_key (range 100 total 100) w1 in
                (Some (convert
                         (fold_left extend
                            (as_completed (completion w2) pages) first)),
                 w2)
            | None => (None, w1)
            end
          else
            match iter models_data with
            | Some items => (Some (convert items), w1)
            | None => (None, w1)
            end
      | None => (None, w1)
      end
  | _ => (None, w1)
  end.

(** [BackboardService.list_models]; the diagnostics it prints are not
    part of the model. *)
Definition list_models (api_key : string) (w : World) : catalog * World :=
  let current_time := clock w in
  if cache_is_fresh current_time w then (_models_cache w, w)
  else
    match fetch api_key w with
    | (Some result, w') => (Models result, store result current_time w')
    | (None, w') => (Models [], w')
    end.
End Conversion.

End ModelCatalog.


(* ------------------------------------------------------------------ *)
(** ** Vocabulary of the statements about [json] *)

Module JsonSpec.
Import Json.
Local Open Scope char_scope.

(** The text between the brackets of a list, and between the braces of
    a dict, as [dumps] writes them *)
Fixpoint dumps_items (l : list pyval) : string :=
  match l with
  | [] => EmptyString
  | [x] => dumps x
  | x :: rest => dumps x ++ ", " ++ dumps_items rest
  end%string.

Fixpoint dumps_members (d : list (string * pyval)) : string :=
  match d with
  | [] => EmptyString
  | [(k, x)] => quote k ++ ": " ++ dumps x
  | (k, x) :: rest => quote k ++ ": " ++ dumps x ++ ", " ++ dumps_members rest
  end%string.

Definition starts_digit (s : string) : bool :=
  match s with
  | String c _ => match digit_of_char c with Some _ => true | None => false end
  | EmptyString => false
  end.

(** The text starts with a character that opens a value. *)
Definition starts_value (s : string) : bool :=
  match s with
  | String c _ =>
      (c =? dquote) || (c =? "{") || (c =? "[") || (c =? "n") || (c =? "t")
      || (c =? "f") || (c =? "-")
      || match digit_of_char c with Some _ => true | None => false end
  | EmptyString => false
  end.

(** *** The limits of the interpreter

    [json.dumps] and [json.loads] do not take every value and every text:
    [str] of an [int] and [int] of a text stop at 4300 digits
    ([sys.int_info.default_max_str_digits]) with a [ValueError], and
    containers nested deeper than the recursion limit end in a
    [RecursionError].  How deep that is depends on the interpreter and on
    the stack below the call; 500 levels are within the default limit of
    1000.  [dumps] and [loads] say what the two functions return when
    they return; the statements about values that go through them are
    made within these limits. *)
Definition MAX_STR_DIGITS : nat := 4300.
Definition SAFE_NESTING : nat := 500.

(** The number of decimal digits of an integer *)
Definition digits (z : Z) : nat := String.length (str_int (Z.abs z)).

(** The nesting of the containers of a value *)
Fixpoint nesting (v : pyval) : nat :=
  match v with
  | PList l => S (list_max (map nesting l))
  | PDict d => S (list_max (map (fun kv => nesting (snd kv)) d))
  | _ => 0%nat
  end.

Fixpoint ints_within (v : pyval) : bool :=
  match v with
  | PInt z => (digits z <=? MAX_STR_DIGITS)%nat
  | PList l => forallb ints_within l
  | PDict d => forallb (fun kv => ints_within (snd kv)) d
  | _ => true
  end.

(** A value [json.dumps] takes whatever the interpreter: no integer of
    more than 4300 digits, no nesting beyond 500 *)
Definition modest (v : pyval) : bool :=
  ints_within v && (nesting v <=? SAFE_NESTING)%nat.

(** The opening brackets of a text, a bound on the nesting the decoder
    reaches in it *)
Fixpoint brackets (s : string) : nat :=
  match s with
  | EmptyString => 0%nat
  | String c r =>
      if (c =? "[") || (c =? "{") then S (brackets r) else brackets r
  end.

(** The longest run of digits in a text; [run] is the length of the run
    that ends where [s] starts *)
Fixpoint longest_run (run : nat) (s : string) : nat :=
  match s with
  | EmptyString => run
  | String c r =>
      match digit_of_char c with
      | Some _ => longest_run (S run) r
      | None => Nat.max run (longest_run 0 r)
      end
  end.

(** A text [json.loads] reads, or refuses as no JSON text, whatever the
    interpreter *)
Definition modest_text (s : string) : bool :=
  (brackets s <=? SAFE_NESTING)%nat
  && (longest_run 0 s <=? MAX_STR_DIGITS)%nat.

Section PyvalInduction.
Variable P : pyval -> Prop.
Hypothesis HNone : P PNone.
Hypothesis HBool : forall b, P (PBool b).
Hypothesis HInt : forall z, P (PInt z).
Hypothesis HStr : forall s, P (PStr s).
Hypothesis HList : forall l, Forall P l -> P (PList l).
Hypothesis HDict : forall d, Forall (fun kv => P (snd kv)) d -> P (PDict d).

(** Induction over a value and the values nested in it *)
Fixpoint pyval_nested_ind (v : pyval) : P v :=
  match v with
  | PNone => HNone
  | PBool b => HBool b
  | PInt z => HInt z
  | PStr s => HStr s
  | PList l =>
      HList ((fix all (l : list pyval) : Forall P l :=
                match l with
                | [] => Forall_nil P
                | x :: r => Forall_cons x (pyval_nested_ind x) (all r)
                end) l)
  | PDict d =>
      HDict ((fix all (d : list (string * pyval))
                : Forall (fun kv => P (snd kv)) d :=
                match d with
                | [] => Forall_nil _
                | kv :: r =>
                    Forall_cons kv (pyval_nested_ind (snd kv)) (all r)
                end) d)
  end.
End PyvalInduction.

End JsonSpec.

(* ------------------------------------------------------------------ *)
(** ** Vocabulary of the statements about the cache *)

Module CacheSpec.
Import BackboardService BackboardCache.

(** Two states differ at most in the memories and the failure schedule. *)
Definition same_but_memories (s s' : State) : Prop :=
  self_cache_assistant_id s' = self_cache_assistant_id s
  /\ assistants s' = assistants s
  /\ next_id s' = next_id s
  /\ now s' = now s.

(** The record's id is one of [D]. *)
Definition id_in (D : list string) (x : RemoteMemory) : bool :=
  existsb (fun i => has_id i x) D.

(** The records a run keeps when it deletes the ids [D] of container [aid] *)
Definition kept (aid : string) (D : list string) (x : RemoteMemory) : bool :=
  negb (owned_by aid x && id_in D x).

(** The ids a loop asks the platform to delete: those of the listed
    memories that satisfy [P] and carry an id. *)
Definition targets (P : Memory -> bool) (ms : list Memory) : list string :=
  map the_id (filter (fun m => P m && Py.opt_str_truthy (id m)) ms).

(** What [list_memories] shows of the container [aid] *)
Definition listing (aid : string) (l : list RemoteMemory) : list Memory :=
  map to_Memory (filter (owned_by aid) l).

(** A record of the container [aid] that is a cache entry for [key] *)
Definition entry_for (aid key : string) (x : RemoteMemory) : bool :=
  owned_by aid x && holds_key key (to_Memory x).

(** Every record of the platform carries a non-empty id. *)
Definition ids_present (s : State) : bool :=
  forallb (fun x => Py.opt_str_truthy (rm_id x)) (memories s).

Definition same_ident (x y : RemoteMemory) : bool :=
  owned_by (rm_owner x) y
  && match rm_id x with Some i => has_id i y | None => false end.

(** No two records of one container share an id. *)
Fixpoint distinct_ids (l : list RemoteMemory) : bool :=
  match l with
  | [] => true
  | x :: rest => negb (existsb (same_ident x) rest) && distinct_ids rest
  end.

(** [cache_time] and [ttl] of a memory as [get] and [clear_expired] read
    them, when both are numbers ([dflt] is the ttl used when none is
    stored). *)
Definition timing (dflt : Z) (m : Memory) : option (Z * Z) :=
  match Py.as_int (Py.dict_get_default "cache_time" (PInt 0) (metadata_dict m)),
        Py.as_int (Py.dict_get_default "ttl" (PInt dflt) (metadata_dict m)) with
  | Some ct, Some tl => Some (ct, tl)
  | _, _ => None
  end.

Definition well_timed (m : Memory) : bool :=
  match timing CACHE_TTL m with Some _ => true | None => false end.

(** [now - cache_time >= ttl] at time [t] *)
Definition aged (dflt t : Z) (m : Memory) : bool :=
  match timing dflt m with
  | Some (ct, tl) => t - ct >=? tl
  | None => false
  end.

(** What [clear_expired] looks for: a truthy [cache_key] and an age of at
    least the entry's ttl. *)
Definition expired_entry (t : Z) (m : Memory) : bool :=
  holds_some_key m && aged CACHE_TTL t m.

(** Every record of the container [aid] with a truthy [cache_key] has
    numeric [cache_time] and [ttl]. *)
Definition holder_well_timed (aid : string) (l : list RemoteMemory) : bool :=
  forallb (fun m => negb (holds_some_key m) || well_timed m) (listing aid l).

(** The metadata [set] writes at time [t] *)
Definition cache_data (key : string) (t : Z) (ttl : option Z) : pydict :=
  [("cache_key", PStr key); ("cache_time", PInt t);
   ("ttl", PInt (Py.int_or ttl CACHE_TTL))].

(** The record the platform keeps for [set(key, value, ttl)] at time [t],
    under the [n]-th id. *)
Definition stored_entry (aid : string) (n : nat) (key : string)
    (value : pyval) (ttl : option Z) (t : Z) : RemoteMemory :=
  mkRemoteMemory aid (Some (mint n)) (encode value)
                 (Some (cache_data key t ttl)).

(** The state [set(key, value, ttl)] leaves behind when nothing fails:
    the entries for [key] that had an id are gone and the new entry comes
    last. *)
Definition after_set (aid key : string) (value : pyval) (ttl : option Z)
    (s s1 : State) : State :=
  set_memories
    (filter (kept aid (targets (holds_key key) (listing aid (memories s))))
            (memories s)
     ++ [stored_entry aid (next_id s1) key value ttl (now s)])%list
    (set_next_id (S (next_id s1)) s1).

(** What the specification expects [get] to give back for a stored
    [value]: the value itself; for a string, which [set] stores raw, what
    [json.loads] makes of it, and the string when that raises *)
Definition read_back (value : pyval) : cached :=
  match value with
  | PStr text => decode text
  | _ => Value value
  end.

(** A value that makes the round trip through [json] on every
    interpreter: its dicts have distinct keys, as the dicts of Python do,
    and it is within the limits; for a string, the text is. *)
Definition portable (value : pyval) : bool :=
  match value with
  | PStr text => JsonSpec.modest_text text
  | _ => Json.wf value && JsonSpec.modest value
  end.


Definition is_fault (f : option exn) : bool :=
  match f with Some _ => true | None => false end.




(** A computation whose only failures are those of its remote calls: it
    raises exactly when one of the calls it makes fails. *)
Definition fails_with_calls {A} (c : M A) : Prop :=
  forall s r s',
    c s = (r, s') ->
    exists pre,
      faults s = (pre ++ faults s')%list
      /\ existsb is_fault pre
         = match r with Ret _ => false | Raise _ => true end.

(** A computation that returns only when none of its remote calls
    fails; it may raise for other reasons. *)
Definition returns_unfailed {A} (c : M A) : Prop :=
  forall s r s',
    c s = (r, s') ->
    exists pre,
      faults s = (pre ++ faults s')%list
      /\ match r with
         | Ret _ => existsb is_fault pre = false
         | Raise _ => True
         end.

(** Once resolved, the holder stays the same whatever happens to the
    memories, the id counter and the clock. *)
Definition settled (aid : string) (s : State) : Prop :=
  forall s2,
    self_cache_assistant_id s2 = self_cache_assistant_id s ->
    assistants s2 = assistants s ->
    faults s2 = [] ->
    _get_cache_assistant_id s2 = (Ret aid, s2).

End CacheSpec.

(* ------------------------------------------------------------------ *)
(** ** Vocabulary of the statements about the routes *)

Module RouteSpec.
Import Routes CacheSpec.

(** The assistants the aggregate search goes through: the page of the
    listing it asks for, without the cache holder *)
Definition scanned (s : State) : list Assistant :=
  filter is_not_cache_assistant (firstn (Z.to_nat 10000) (assistants s)).

(** The memories of an assistant whose content contains the lower-cased
    query [q], case-insensitively *)
Definition found (q : string) (s : State) (a : Assistant) : list Memory :=
  filter (matches_query q) (listing (a_id a) (memories s)).

(** Every match of the scanned assistants, in scan order *)
Definition all_matches (q : string) (s : State) : list pyval :=
  flat_map (fun a => map (memory_dict a) (found q s a)) (scanned s).

(** The entries the memories [ms] of assistant [a] contribute *)
Definition entries (q : string) (a : Assistant) (ms : list Memory)
  : list pyval :=
  map (memory_dict a) (filter (matches_query q) ms).

(** The loop may go on: the limit is not reached, or nothing was
    appended yet. *)
Definition open_at (k : Z) (all : list pyval) : Prop :=
  Z.of_nat (List.length all) < k \/ all = [].

(** *** The aggregate search in the words of its specification *)

(** [text] contains [query] case-insensitively: the lower-cased query
    occurs somewhere in the lower-cased text. *)
Definition contains_ci (query text : string) : Prop :=
  exists before after,
    PyStr.lower text = (before ++ PyStr.lower query ++ after)%string.

(** The assistants a search without [assistant_id] covers: those on the
    page of 10000 the route asks the listing for, except the ones named
    [bb_browser_cache] *)
Definition searched (s : State) (a : Assistant) : Prop :=
  In a (firstn (Z.to_nat 10000) (assistants s))
  /\ a_name a <> "bb_browser_cache".

(** An entry the search may answer with: a memory of a searched assistant
    whose content contains the query, with the id and the name of the
    assistant added *)
Definition hit (query : string) (s : State) (r : pyval) : Prop :=
  exists a m,
    searched s a
    /\ In m (listing (a_id a) (memories s))
    /\ contains_ci query (content m)
    /\ r = memory_dict a m.

(** The role a payload asks for: the text of its [role] entry, ["user"]
    when it has none. *)
Definition expected_role (data : pydict) : string :=
  match Py.dict_lookup "role" data with
  | Some v => PyStr.str v
  | None => "user"
  end.

End RouteSpec.

(* ------------------------------------------------------------------ *)
(** ** Vocabulary of the statements about the model catalog *)

Module CatalogSpec.
Import ModelCatalog.

(** The worlds agree on everything but the two cache globals. *)
Definition same_but_cache (w w' : World) : Prop :=
  clock w' = clock w /\ sent w' = sent w /\ replies w' = replies w
  /\ completion w' = completion w.

(** The world with other contents of the two cache globals *)
Definition with_cache (c : catalog) (t : Q) (w : World) : World :=
  set_models_cache_time t (set_models_cache c w).

(** One assignment to a cache global *)
Inductive write : Type :=
| WCache (result : list ModelInfo)
| WTime (current_time : Q).

Definition run_write (w : World) (x : write) : World :=
  match x with
  | WCache result => set_models_cache (Models result) w
  | WTime current_time => set_models_cache_time current_time w
  end.

Definition run (ws : list write) (w : World) : World :=
  fold_left run_write ws w.

(** The assignments of one cache update, in program order *)
Definition store_writes (result : list ModelInfo) (current_time : Q)
  : list write :=
  [WCache result; WTime current_time].

(** [zs] interleaves [xs] and [ys], keeping the order of each. *)
Inductive interleaving (A : Type) : list A -> list A -> list A -> Prop :=
| interleaving_nil : interleaving [] [] []
| interleaving_left x xs ys zs :
    interleaving xs ys zs -> interleaving (x :: xs) ys (x :: zs)
| interleaving_right y xs ys zs :
    interleaving xs ys zs -> interleaving xs (y :: ys) (y :: zs).

(** The last catalog a sequence of writes assigns *)
Fixpoint last_cache (ws : list write) : option (list ModelInfo) :=
  match ws with
  | [] => None
  | WCache result :: rest =>
      match last_cache rest with
      | Some later => Some later
      | None => Some result
      end
  | WTime _ :: rest => last_cache rest
  end.

End CatalogSpec.

(* ------------------------------------------------------------------ *)
(** ** Sample states *)

Module Sample.

Definition holder : Assistant :=
  mkAssistant "asst-cache" "bb_browser_cache"
              (Some "Cache storage for bb_browser application").

Definition helper : Assistant := mkAssistant "asst-1" "helper" None.

(** A cache entry as [set] writes it *)
Definition entry (aid i key text : string) (t ttl : Z) : RemoteMemory :=
  mkRemoteMemory aid (Some i) text
    (Some [("cache_key", PStr key); ("cache_time", PInt t); ("ttl", PInt ttl)]).

(** A memory of the holder that is no cache entry *)
Definition note : RemoteMemory :=
  mkRemoteMemory "asst-cache" (Some "m9") "plain note" None.

(** Two entries written at time 1000, one of them short-lived, a plain
    note, and a memory of another assistant; the clock stands at 2000. *)
Definition st0 : State :=
  mkState None [helper; holder]
    [entry "asst-cache" "m1" "a" "1" 1000 60;
     entry "asst-cache" "m2" "b" "[1, 2]" 1000 3600;
     note;
     mkRemoteMemory "asst-1" (Some "m1") "user memory" None]
    7 [] 2000.

(** The holder keeps one entry, written at time 1000 under the empty key
    with a ttl of one second; the clock stands at 1005. *)
Definition empty_key_entry : RemoteMemory :=
  entry "asst-cache" "id-6" "" "1" 1000 1.

Definition st_empty_key : State :=
  mkState (Some "asst-cache") [holder] [empty_key_entry] 7 [] 1005.

(** A fresh account *)
Definition empty : State := mkState None [] [] 0 [] 1000.

(** An account with two assistants and the cache holder between them:
    the first has a memory that mentions memory and one that does not,
    the holder has a note that mentions it, and the last has one that
    does. *)
Definition writer : Assistant := mkAssistant "asst-2" "writer" None.

Definition library : State :=
  mkState None [helper; holder; writer]
    [mkRemoteMemory "asst-1" (Some "m1") "User Memory" None;
     mkRemoteMemory "asst-1" (Some "m2") "shopping list" None;
     mkRemoteMemory "asst-cache" (Some "m3") "memory of the cache" None;
     mkRemoteMemory "asst-2" (Some "m4") "a memory palace" None]
    7 [] 1000.

(** An account with ten thousand assistants and one more, the only one
    with a memory *)
Definition late : Assistant := mkAssistant "asst-late" "late" None.

Definition needle : RemoteMemory :=
  mkRemoteMemory "asst-late" (Some "m1") "needle" None.

Definition overfull : State :=
  mkState None (repeat helper (Z.to_nat 10000) ++ [late])%list [needle]
    7 [] 1000.



(** [str.upper] on the letters a to z *)
Definition upper (s : string) : string :=
  string_of_list_ascii
    (map (fun c => let n := N_of_ascii c in
                   if ((97 <=? n) && (n <=? 122))%N
                   then ascii_of_N (n - 32) else c)
         (list_ascii_of_string s)).

Definition opt_str (v : pyval) : option (option string) :=
  match v with
  | PNone => Some None
  | PStr s => Some (Some s)
  | _ => None
  end.

(** A validation of the arguments of [ModelInfo] that takes values of the
    declared types only *)
Definition ModelInfo_init (id name provider : pyval)
    (capabilities : list string) (description : string)
    (max_tokens supports_streaming : pyval) : option ModelInfo :=
  match id, name, opt_str provider, max_tokens, supports_streaming with
  | PStr i, PStr n, Some p, PNone, PBool b =>
      Some (mkModelInfo i n p (Some capabilities) (Some description) None
                        (Some b))
  | PStr i, PStr n, Some p, PInt k, PBool b =>
      Some (mkModelInfo i n p (Some capabilities) (Some description)
                        (Some k) (Some b))
  | _, _, _, _, _ => None
  end.

Definition gpt : ModelInfo :=
  mkModelInfo "gpt-4o" "gpt-4o" (Some "openai") (Some []) (Some "LLM model")
              (Some 128000) (Some true).

(** The reply of the platform for a catalog of one model *)
Definition one_model : pyval :=
  PDict [("total", PInt 1);
         ("models",
          PList [PDict [("name", PStr "gpt-4o"); ("provider", PStr "openai");
                        ("model_type", PStr "llm");
                        ("context_limit", PInt 128000);
                        ("supports_tools", PBool true)]])].

(** The reply of the platform for a catalog without models *)
Definition no_model : pyval :=
  PDict [("total", PInt 0); ("models", PList [])].

(** A process that has not listed the models yet *)
Definition started (t : Q) (answers : list (option pyval)) : World :=
  mkWorld EmptyDict 0 t [] answers [].

(** A process holding the catalog [gpt] since time 1000, five seconds
    later *)
Definition warm : World :=
  mkWorld (Models [gpt]) 1000 1005 [] [Some one_model] [].

(** A process that listed the models at time 1000 and was answered an
    empty catalog, five seconds later *)
Definition listed_nothing : World :=
  set_clock 1005
    (snd (ModelCatalog.list_models upper ModelInfo_init "key"
            (started 1000 [Some no_model; Some one_model]))).

End Sample.


(* ------------------------------------------------------------------ *)
(** ** Further vocabulary for the cache *)

Module CacheLaws.
Import BackboardService BackboardCache CacheSpec.

(** The platform hands out ids that are not in use: none of the next
    [count] ids it will draw is the id of a stored record. *)
Definition next_ids_unused (count : nat) (s : State) : bool :=
  forallb (fun x => negb (existsb (fun k => has_id (mint k) x)
                                  (seq (next_id s) count)))
          (memories s).

(** Every record with a truthy [cache_key] has numeric [cache_time] and
    [ttl], whatever container it is in. *)
Definition well_timed_all (l : list RemoteMemory) : bool :=
  forallb (fun x => negb (holds_some_key (to_Memory x))
                    || well_timed (to_Memory x)) l.

(** The assistant [_get_cache_assistant_id] creates under the [n]-th id *)
Definition new_holder (n : nat) : Assistant :=
  mkAssistant (mint n) CACHE_ASSISTANT_NAME
              (Some "Cache storage for bb_browser application").

(** The first page of the assistant listing, which is all that
    [_get_cache_assistant_id] looks at *)
Definition first_page (s : State) : list Assistant :=
  firstn 100 (assistants s).

(** The records of container [aid] that are cache entries for [key] *)
Definition entries_for (aid key : string) (s : State) : list RemoteMemory :=
  filter (entry_for aid key) (memories s).

(** Every entry for [key] carries a [ttl] of its own. *)
Definition carries_ttl (key : string) (l : list RemoteMemory) : bool :=
  forallb (fun x => negb (holds_key key (to_Memory x))
                    || Py.dict_has "ttl" (metadata_dict (to_Memory x))) l.

End CacheLaws.

(* ------------------------------------------------------------------ *)
(** ** More sample states *)

Module MoreSamples.

(** An account whose cache holder comes after a hundred other
    assistants in the listing *)
Definition crowded : State :=
  mkState None (repeat Sample.helper 100 ++ [Sample.holder])%list [] 7 []
          1000.

(** The account [Sample.st0] seen by a cache object that has resolved its
    holder, with failures pending for the next remote calls *)
Definition resolved_failing : State :=
  set_faults [Some (RemoteError "down")]
    (set_self (Some "asst-cache") Sample.st0).

(** A process whose cached catalog is 4000 seconds old *)
Definition warm_stale : World :=
  mkWorld (Models [Sample.gpt]) 1000 5000 [] [] [].

(** A process that has not listed the models yet, in front of a platform
    that announces 250 models, answers the second page and fails on the
    third *)
Definition large : World :=
  Sample.started 1000
    [Some (PDict [("total", PInt 250); ("models", PList [])]);
     Some Sample.one_model; None].

(** An entry for key ["a"] whose [cache_time] is a text *)
Definition corrupt : RemoteMemory :=
  mkRemoteMemory "asst-cache" (Some "p1") "1"
    (Some [("cache_key", PStr "a"); ("cache_time", PStr "yesterday");
           ("ttl", PInt 60)]).

(** A resolved cache whose holder keeps the corrupt entry before a valid
    one for the same key *)
Definition poisoned : State :=
  mkState (Some "asst-cache") [Sample.holder]
    [corrupt; Sample.entry "asst-cache" "m2" "a" "2" 1990 3600] 7 [] 2000.

(** The account [Sample.st0] with the corrupt entry kept by the holder
    as well *)
Definition unsettled : State :=
  set_memories (corrupt :: memories Sample.st0) Sample.st0.


End MoreSamples.

(* ------------------------------------------------------------------ *)
(** ** Further vocabulary for the model catalog *)

Definition set_completion (x : list nat) (w : World) : World :=
  mkWorld (_models_cache w) (_models_cache_time w) (clock w) (sent w)
          (replies w) x.

Module CatalogLaws.
Import ModelCatalog.

(** The request that opens a refresh, and the request for the page that
    starts at [skip] *)
Definition first_request (api_key : string) : Request :=
  mkRequest MODELS_URL api_key None.


(** What a page adds to the catalog data: its items when it can be
    iterated over, nothing otherwise *)
Definition page_items (page_data : pyval) : list pyval :=
  match iter page_data with Some items => items | None => [] end.

(** What the refresh reads in an answer to its first request: the total
    and the items of the first page.  [None] when the answer makes the
    refresh fail: no answer, a body that is no object, a [total] that is
    no number, or [models] that cannot be iterated over. *)
Definition first_answer (r : option pyval) : option (Z * list pyval) :=
  match r with
  | Some (PDict data) =>
      match Py.as_int (Py.dict_get_default "total" (PInt 0) data),
            iter (Py.dict_get_default "models" (PList []) data) with
      | Some total, Some first => Some (total, first)
      | _, _ => None
      end
  | _ => None
  end.


End CatalogLaws.

(* ------------------------------------------------------------------ *)
(** ** [app/api/memory.py] and [app/api/assistants.py]: the other memory
       routes *)

Module MemoryRoutes.
Import Routes.

(** pydantic on an [Optional[List[str]]] field *)
Fixpoint str_items (l : list pyval) : option (list string) :=
  match l with
  | [] => Some []
  | PStr s :: rest => option_map (cons s) (str_items rest)
  | _ :: _ => None
  end.

Definition optional_str_list (o : option pyval)
  : option (option (list string)) :=
  match o with
  | None | Some PNone => Some None
  | Some (PList l) => option_map Some (str_items l)
  | Some _ => None
  end.

(** [{k: v for k, v in data.items() if k != 'assistant_id'}] *)
Definition without_assistant_id (data : pydict) : pydict :=
  filter (fun kv => negb (fst kv =? "assistant_id")%string) data.

(** [jsonify({'data': [m.model_dump() for m in memories]})] *)
Definition data_response (memories : list Memory) : Response :=
  mkResponse 200
    (PDict [("data",
             PList (map (fun m => PDict (dump_memory_items m)) memories))]).

Section Pydantic.
(** pydantic's rendering of the validation errors of an input *)
Variable describe : string -> pydict -> string.

(** The constructor [MemoryCreate] applied to keyword arguments *)
Definition MemoryCreate_init (data : pydict) : M MemoryCreate :=
  match Py.dict_lookup "content" data,
        optional_dict (Py.dict_lookup "metadata" data),
        optional_str_list (Py.dict_lookup "tags" data) with
  | Some (PStr content), Some metadata, Some tags =>
      ret (mkMemoryCreate content metadata tags)
  | _, _, _ => raise (ValidationError (describe "MemoryCreate" data))
  end.

(** [POST /api/memory]; [data] is what [request.get_json()] gave.  The
    id goes to the platform as its text. *)
Definition store_memory (session_key : option string) (data : pyval)
  : M Response :=
  handle
    (service <- get_service session_key ;;
     match data with
     | PDict d =>
         let assistant_id := Py.dict_get "assistant_id" d in
         if negb (Py.truthy assistant_id) then
           ret (error_response 400 "assistant_id is required")
         else
           memory_create <- MemoryCreate_init (without_assistant_id d) ;;
           memory <-
             BackboardService.store_memory memory_create
               (PyStr.str assistant_id) ;;
           ret (mkResponse 201 (PDict (dump_memory_items memory)))
     | _ => raise (AttributeError
                     ("'" ++ type_name data
                      ++ "' object has no attribute 'get'"))
     end).
End Pydantic.

(** [DELETE /api/memory/<memory_id>] *)
Definition delete_memory (session_key : option string) (memory_id : string)
    (assistant_id : option string) : M Response :=
  handle
    (service <- get_service session_key ;;
     if negb (Py.opt_str_truthy assistant_id) then
       ret (error_response 400 "assistant_id is required")
     else
       BackboardService.delete_memory memory_id
         (match assistant_id with Some a => a | None => EmptyString end) ;;
       ret (mkResponse 200 (PDict [("success", PBool true)]))).

Section Parsing.
(** [int(text)] for a [str]; [None] when it raises [ValueError] *)
Variable int_of_str : string -> option Z.

(** [int(request.args.get(name, dflt))] *)
Definition int_arg (arg : option string) (dflt : Z) : M Z :=
  match arg with
  | None => ret dflt
  | Some text =>
      match int_of_str text with
      | Some n => ret n
      | None => raise (ValueError
                         ("invalid literal for int() with base 10: "
                          ++ PyStr.repr_str text))
      end
  end.

(** [GET /api/memory]; the arguments are what [request.args.get] gives
    for [assistant_id], [query] and [limit]. *)
Definition list_memories (session_key : option string)
    (assistant_id query limit : option string) : M Response :=
  handle
    (service <- get_service session_key ;;
     if negb (Py.opt_str_truthy assistant_id) then ret (data_response [])
     else
       let aid :=
         match assistant_id with Some a => a | None => EmptyString end in
       memories <-
         (if Py.opt_str_truthy query then
            n <- int_arg limit 10 ;;
            service_search_memory
              (mkMemorySearch
                 (match query with Some q => q | None => EmptyString end)
                 (Some n) None)
              aid
          else BackboardService.list_memories aid) ;;
       ret (data_response memories)).
End Parsing.


End MemoryRoutes.

Module RouteLaws.
Import Routes RouteSpec CacheSpec.

(** The first match of every scanned assistant, in scan order *)
Definition first_matches (q : string) (s : State) : list pyval :=
  flat_map (fun a => firstn 1 (map (memory_dict a) (found q s a)))
           (scanned s).

(** Every memory of the scanned assistants, in scan order *)
Definition all_memories (s : State) : list pyval :=
  flat_map (fun a => map (memory_dict a) (listing (a_id a) (memories s)))
           (scanned s).

(** The memory the platform keeps for a [POST /api/memory] *)
Definition posted (aid : string) (n : nat) (content : string)
    (metadata : option pydict) : RemoteMemory :=
  mkRemoteMemory aid (Some (mint n)) content metadata.

End RouteLaws.

(* ------------------------------------------------------------------ *)
(** ** [app/api/cache.py]: the count routes *)

Module CacheRoutes.
Import Routes.

(** What a count route answers: a response, or, for a cached content whose
    decoding leaves the model, the response that carries the value of
    [cache.get] as its count, left unevaluated *)
Inductive answer : Type :=
| Answer (r : Response)
| CachedBeyond (content : string).

(** The two handlers of a count route *)
Definition handle_count (c : M answer) : M answer :=
  try_except c
    (fun e =>
       if is_ValueError e then ret (Answer (error_response 401 (str_exn e)))
       else ret (Answer (error_response 500 (str_exn e)))).

(** [jsonify({'count': count, 'cached': cached})] *)
Definition count_response (count : pyval) (cached : bool) : Response :=
  mkResponse 200 (PDict [("count", count); ("cached", PBool cached)]).

(** [BackboardCache(api_key=api_key)]: every request works with a cache
    object of its own, which has not resolved its holder yet. *)
Definition new_cache : M unit := modify (set_self None).

(** The part the count routes share: the cached count when there is one,
    the computed count otherwise, stored for an hour. *)
Definition cached_count (session_key : option string) (key : string)
    (compute : M Z) : M answer :=
  handle_count
    (if negb (Py.opt_str_truthy session_key) then
       ret (Answer (error_response 401 "API key not found"))
     else
       new_cache ;;
       cached <- BackboardCache.get key None ;;
       match cached with
       | Value PNone =>
           total_count <- compute ;;
           BackboardCache.set key (PInt total_count) (Some 3600) ;;
           ret (Answer (count_response (PInt total_count) false))
       | Value v => ret (Answer (count_response v true))
       | LoadsOrRaw content => ret (CachedBeyond content)
       end).

(** [GET /api/cache/assistants-count] *)
Definition get_assistants_count (session_key : option string) : M answer :=
  cached_count session_key "assistants_count_total"
    (assistants <- BackboardService.list_assistants 0 (Z.to_nat 10000) ;;
     ret (Z.of_nat (List.length assistants))).

(** The local function [fetch_memories]: a listing that fails counts
    for 0. *)
Definition fetch_memories (assistant_id : string) : M Z :=
  try_except
    (memories <- BackboardService.list_memories assistant_id ;;
     ret (Z.of_nat (List.length memories)))
    (fun e => ret 0).

(** The fan-out over the assistants and the sum of its results; the
    model takes the listings in submission order, and the sum does not
    depend on the order in which they complete. *)
Fixpoint sum_memories (assistants : list Assistant) (total_memories : Z)
  : M Z :=
  match assistants with
  | [] => ret total_memories
  | a :: rest =>
      n <- fetch_memories (a_id a) ;;
      sum_memories rest (total_memories + n)
  end.

(** [GET /api/cache/memory-count] *)
Definition get_memory_count (session_key : option string) : M answer :=
  cached_count session_key "memory_count_total"
    (assistants <- BackboardService.list_assistants 0 (Z.to_nat 10000) ;;
     sum_memories assistants 0).

Section Documents.
(** A document, and the SDK calls that list the documents of an
    assistant and of a thread, conversion of the items included *)
Variable Document : Type.
Variable list_assistant_documents : string -> M (list Document).
Variable list_thread_documents : string -> M (list Document).
(** [d.model_dump()] *)
Variable dump_document : Document -> pyval.

(** [BackboardService.list_documents(assistant_id, thread_id)] *)
Definition list_documents (assistant_id thread_id : option string)
  : M (list Document) :=
  if Py.opt_str_truthy assistant_id then
    list_assistant_documents
      (match assistant_id with Some a => a | None => EmptyString end)
  else if Py.opt_str_truthy thread_id then
    list_thread_documents
      (match thread_id with Some t => t | None => EmptyString end)
  else ret [].

(** [GET /api/documents] *)
Definition list_documents_route (session_key : option string)
  : M Response :=
  handle
    (service <- get_service session_key ;;
     documents <- list_documents None None ;;
     ret (mkResponse 200
            (PDict [("data", PList (map dump_document documents))]))).

(** [GET /api/cache/documents-count] *)
Definition get_documents_count (session_key : option string) : M answer :=
  cached_count session_key "documents_count_total"
    (documents <- list_documents None None ;;
     ret (Z.of_nat (List.length documents))).
End Documents.

End CacheRoutes.

Module CountLaws.
Import BackboardService BackboardCache CacheSpec CacheLaws.

(** The number of memories the listed assistants own together *)
Definition memories_of (l : list Assistant) (s : State) : Z :=
  Z.of_nat (List.length
              (flat_map (fun a => listing (a_id a) (memories s)) l)).

(** The page of assistants the count routes list *)
Definition counted (s : State) : list Assistant :=
  firstn (Z.to_nat 10000) (assistants s).

(** No record of any container is a cache entry for [key]. *)
Definition no_entry (key : string) (s : State) : bool :=
  negb (existsb (fun x => holds_key key (to_Memory x)) (memories s)).

End CountLaws.


(* ================================================================== *)
(** * Facts *)

Unset Implicit Arguments.

(* ------------------------------------------------------------------ *)
(** ** Lists and filters *)

Section ListFacts.
Context {A : Type}.

Lemma filter_twice (f g : A -> bool) (l : list A) :
  filter f (filter g l) = filter (fun x => g x && f x) l.
Proof.
  induction l as [|x l IH]; simpl; auto.
  destruct (g x); simpl; [destruct (f x)|]; rewrite IH; reflexivity.
Qed.

Lemma filter_all (f : A -> bool) (l : list A) :
  (forall x, In x l -> f x = true) -> filter f l = l.
Proof.
  induction l as [|x l IH]; simpl; intros H; auto.
  rewrite (H x (or_introl eq_refl)), IH; auto.
Qed.

Lemma filter_length_split (f : A -> bool) (l : list A) :
  (List.length (filter f l) + List.length (filter (fun x => negb (f x)) l) = List.length l)%nat.
Proof.
  induction l as [|x l IH]; simpl; auto.
  destruct (f x); simpl; lia.
Qed.
End ListFacts.

(* ------------------------------------------------------------------ *)
(** ** The remote calls *)

Module ServiceFacts.
Import BackboardService.

Import CacheSpec.

Lemma remote_call_ok s : faults s = [] -> remote_call s = (Ret tt, s).
Proof. unfold remote_call; intros ->; reflexivity. Qed.

Lemma remote_call_cases s :
  (exists fs, faults s = None :: fs /\ remote_call s = (Ret tt, set_faults fs s))
  \/ (exists e fs, faults s = Some e :: fs
                   /\ remote_call s = (Raise e, set_faults fs s))
  \/ (faults s = [] /\ remote_call s = (Ret tt, s)).
Proof.
  unfold remote_call; destruct (faults s) as [|[e|] fs]; eauto 6.
Qed.

Lemma list_memories_ok aid s :
  faults s = [] ->
  list_memories aid s
  = (Ret (map to_Memory (filter (owned_by aid) (memories s))), s).
Proof.
  intros H; unfold list_memories, bind; rewrite (remote_call_ok _ H); reflexivity.
Qed.

Lemma delete_memory_ok i aid s :
  faults s = [] ->
  delete_memory i aid s
  = (Ret true,
     set_memories
       (filter (fun r => negb (owned_by aid r && has_id i r)) (memories s)) s).
Proof.
  intros H; unfold delete_memory, bind; rewrite (remote_call_ok _ H); reflexivity.
Qed.

Lemma store_memory_ok mc aid s :
  faults s = [] ->
  store_memory mc aid s
  = (Ret (mkMemory None (mc_content mc) (mc_metadata mc) (mc_tags mc)),
     set_memories
       (memories s
        ++ [mkRemoteMemory aid (Some (mint (next_id s))) (mc_content mc)
                           (mc_metadata mc)])
       (set_next_id (S (next_id s)) s)).
Proof.
  intros H; unfold store_memory, bind; rewrite (remote_call_ok _ H); reflexivity.
Qed.

Lemma list_assistants_ok skip limit s :
  faults s = [] ->
  list_assistants skip limit s
  = (Ret (firstn limit (skipn skip (assistants s))), s).
Proof.
  intros H; unfold list_assistants, bind; rewrite (remote_call_ok _ H); reflexivity.
Qed.

(** Whatever the failure schedule, a deletion removes the records with the
    given owner and id, or raises and removes nothing. *)
Lemma delete_memory_any i aid s :
  exists r s',
    delete_memory i aid s = (r, s')
    /\ same_but_memories s s'
    /\ (faults s = [] -> faults s' = [])
    /\ ((r = Ret true
         /\ memories s'
            = filter (fun x => negb (owned_by aid x && has_id i x)) (memories s))
        \/ ((exists e, r = Raise e) /\ memories s' = memories s
            /\ faults s <> [])).
Proof.
  unfold delete_memory, bind, same_but_memories.
  destruct (remote_call_cases s) as [(fs & Hf & ->)|[(e & fs & Hf & ->)|(Hf & ->)]];
    simpl; do 2 eexists; (split; [reflexivity|]); simpl;
    repeat split; auto; try congruence.
  right; repeat split; eauto; congruence.
Qed.

Lemma list_memories_any aid s :
  exists r s',
    list_memories aid s = (r, s')
    /\ same_but_memories s s' /\ memories s' = memories s
    /\ (r = Ret (listing aid (memories s)) \/ exists e, r = Raise e).
Proof.
  unfold list_memories, bind, gets, ret, same_but_memories, listing.
  destruct (remote_call_cases s) as [(fs & Hf & ->)|[(e & fs & Hf & ->)|(Hf & ->)]];
    simpl; do 2 eexists; (split; [reflexivity|]); simpl; repeat split; eauto.
Qed.

End ServiceFacts.

(* ------------------------------------------------------------------ *)
(** ** The cache-holder assistant *)

Module HolderFacts.
Import BackboardService BackboardCache CacheSpec ServiceFacts.

Lemma set_self_same s x :
  self_cache_assistant_id s = x -> set_self x s = s.
Proof. destruct s; simpl; intros <-; reflexivity. Qed.


Lemma remote_call_frame s r s' :
  remote_call s = (r, s') -> memories s' = memories s /\ now s' = now s.
Proof.
  destruct (remote_call_cases s)
    as [(fs & Hf & ->)|[(e & fs & Hf & ->)|(Hf & ->)]];
    intros [= <- <-]; auto.
Qed.

Lemma list_assistants_frame skip limit s r s' :
  list_assistants skip limit s = (r, s') ->
  memories s' = memories s /\ now s' = now s.
Proof.
  unfold list_assistants, bind, gets, ret.
  destruct (remote_call s) as [[[]|e] s1] eqn:E;
    apply remote_call_frame in E; intros [= <- <-]; auto.
Qed.

Lemma create_assistant_frame name sp s r s' :
  create_assistant name sp s = (r, s') ->
  memories s' = memories s /\ now s' = now s.
Proof.
  unfold create_assistant, bind, fresh_id, modify, ret.
  destruct (remote_call s) as [[[]|e] s1] eqn:E;
    apply remote_call_frame in E; intros [= <- <-]; auto.
Qed.

(** Resolving the holder never touches the memories or the clock. *)
Lemma holder_frame s r s1 :
  _get_cache_assistant_id s = (r, s1) ->
  memories s1 = memories s /\ now s1 = now s.
Proof.
  unfold _get_cache_assistant_id, bind, gets.
  destruct (Py.opt_str_truthy (self_cache_assistant_id s)).
  - intros [= <- <-]; auto.
  - destruct (list_assistants 0 100 s) as [[l|e] s2] eqn:E;
      apply list_assistants_frame in E; destruct E as [E1 E2];
      [|intros [= <- <-]; auto].
    destruct (find is_cache_assistant l).
    + unfold modify, ret; intros [= <- <-]; auto.
    + destruct (create_assistant CACHE_ASSISTANT_NAME
                  (Some "Cache storage for bb_browser application") s2)
        as [[a|e] s3] eqn:E'; apply create_assistant_frame in E';
        destruct E' as [E3 E4]; unfold modify, ret; intros [= <- <-];
        simpl; split; congruence.
Qed.

Lemma settled_transfer aid s s' :
  settled aid s ->
  self_cache_assistant_id s' = self_cache_assistant_id s ->
  assistants s' = assistants s ->
  settled aid s'.
Proof.
  intros H H1 H2 s2 E1 E2 F; apply H; congruence.
Qed.

Lemma holder_ok s :
  faults s = [] ->
  exists aid s1,
    _get_cache_assistant_id s = (Ret aid, s1)
    /\ memories s1 = memories s /\ now s1 = now s /\ faults s1 = []
    /\ settled aid s1.
Proof.
  intros Hf.
  unfold _get_cache_assistant_id, bind, gets.
  destruct (Py.opt_str_truthy (self_cache_assistant_id s)) eqn:Ht.
  - do 2 eexists; split; [reflexivity|]; repeat split; auto.
    intros s2 E1 E2 F.
    unfold _get_cache_assistant_id, bind, gets; rewrite E1, Ht; reflexivity.
  - rewrite (list_assistants_ok 0 100 s Hf).
    destruct (find is_cache_assistant (firstn 100 (skipn 0 (assistants s))))
      as [a|] eqn:Hfind.
    + do 2 eexists; split; [reflexivity|]; repeat split; auto.
      intros s2 E1 E2 F; simpl in E1, E2.
      unfold _get_cache_assistant_id, bind, gets; rewrite E1.
      destruct (Py.opt_str_truthy (Some (a_id a))); [reflexivity|].
      rewrite (list_assistants_ok 0 100 s2 F), E2, Hfind.
      unfold modify, ret; rewrite (set_self_same _ _ E1); reflexivity.
    + unfold create_assistant, bind, fresh_id, modify, ret.
      rewrite (remote_call_ok _ Hf).
      do 2 eexists; split; [reflexivity|]; repeat split; auto.
      intros s2 E1 E2 F; simpl in E1.
      unfold _get_cache_assistant_id, bind, gets; rewrite E1; simpl.
      reflexivity.
Qed.

Lemma holder_returns s aid s1 :
  _get_cache_assistant_id s = (Ret aid, s1) ->
  self_cache_assistant_id s1 = Some aid.
Proof.
  unfold _get_cache_assistant_id, bind, gets.
  destruct (self_cache_assistant_id s) as [i|] eqn:Hs; simpl.
  - destruct (Py.str_truthy i).
    + intros [= <- <-]; assumption.
    + destruct (list_assistants 0 100 s) as [[l|e] s2]; [|discriminate].
      destruct (find is_cache_assistant l).
      * unfold modify, ret; intros [= <- <-]; reflexivity.
      * destruct (create_assistant _ _ s2) as [[a|e] s3]; [|discriminate].
        unfold modify, ret; intros [= <- <-]; reflexivity.
  - destruct (list_assistants 0 100 s) as [[l|e] s2]; [|discriminate].
    destruct (find is_cache_assistant l).
    + unfold modify, ret; intros [= <- <-]; reflexivity.
    + destruct (create_assistant _ _ s2) as [[a|e] s3]; [|discriminate].
      unfold modify, ret; intros [= <- <-]; reflexivity.
Qed.

End HolderFacts.

(* ------------------------------------------------------------------ *)
(** ** [delete] *)

Module DeleteFacts.
Import BackboardService BackboardCache CacheSpec ServiceFacts HolderFacts.

Lemma same_but_memories_refl s : same_but_memories s s.
Proof. repeat split. Qed.

Lemma same_but_memories_trans s1 s2 s3 :
  same_but_memories s1 s2 -> same_but_memories s2 s3 -> same_but_memories s1 s3.
Proof.
  unfold same_but_memories; intros (A & B & C & D) (A' & B' & C' & D');
    repeat split; congruence.
Qed.

Lemma kept_nil aid l : filter (kept aid []) l = l.
Proof.
  apply filter_all; intros x _; unfold kept; simpl.
  rewrite andb_false_r; reflexivity.
Qed.

Lemma kept_cons aid i D l :
  filter (kept aid D)
         (filter (fun x => negb (owned_by aid x && has_id i x)) l)
  = filter (kept aid (i :: D)) l.
Proof.
  rewrite filter_twice; apply filter_ext; intros x; unfold kept; simpl.
  destruct (owned_by aid x), (has_id i x), (id_in D x); reflexivity.
Qed.

(** The loop of [delete], under any failure schedule: it removes the
    records whose id is among the ids it got to, and nothing else. *)
Lemma delete_loop_any key aid ms :
  forall s, exists r s' D,
    delete_loop key aid ms s = (r, s')
    /\ same_but_memories s s'
    /\ incl D (targets (holds_key key) ms)
    /\ memories s' = filter (kept aid D) (memories s)
    /\ (faults s = [] ->
        r = Ret tt /\ D = targets (holds_key key) ms /\ faults s' = []).
Proof.
  induction ms as [|m ms IH]; intros s; simpl.
  - exists (Ret tt), s, []; unfold ret; repeat split; auto.
    + apply incl_refl.
    + symmetry; apply kept_nil.
  - unfold targets; simpl.
    destruct (holds_key key m); simpl;
      [destruct (Py.opt_str_truthy (id m)); simpl|]; try apply IH.
    unfold bind.
    destruct (delete_memory_any (the_id m) aid s)
      as (r1 & s1 & E & Hs & Hf & [[-> Hm]|[[e ->] [Hm Hne]]]); rewrite E.
    + destruct (IH s1) as (r & s' & D & E' & Hs' & Hi & Hm' & Hok).
      exists r, s', (the_id m :: D).
      split; [exact E'|].
      split; [eapply same_but_memories_trans; eauto|].
      split; [intros x [<-|Hx]; [left; reflexivity|right; apply Hi, Hx]|].
      split; [rewrite Hm', Hm; apply kept_cons|].
      intros F; destruct (Hok (Hf F)) as (-> & -> & Hf').
      repeat split; auto.
    + exists (Raise e), s1, [].
      split; [reflexivity|].
      split; [exact Hs|].
      split; [intros x []|].
      split; [rewrite Hm; symmetry; apply kept_nil|].
      intros F; contradiction.
Qed.

Lemma state_eq s s' :
  same_but_memories s s' -> memories s' = memories s -> faults s' = faults s ->
  s' = s.
Proof.
  destruct s, s'; unfold same_but_memories; simpl.
  intros (-> & -> & -> & ->) -> ->; reflexivity.
Qed.

Lemma state_eq_set s s' l :
  same_but_memories s s' -> memories s' = l -> faults s' = faults s ->
  s' = set_memories l s.
Proof.
  destruct s, s'; unfold same_but_memories; simpl.
  intros (-> & -> & -> & ->) -> ->; reflexivity.
Qed.

(** A record that satisfies [P] and has an id is among the targets. *)
Lemma targets_hit P aid l x :
  In x l -> owned_by aid x = true -> P (to_Memory x) = true ->
  Py.opt_str_truthy (rm_id x) = true ->
  id_in (targets P (listing aid l)) x = true.
Proof.
  intros Hin Ho HP Hid; unfold id_in, targets, listing.
  apply existsb_exists; exists (the_id (to_Memory x)); split.
  - apply in_map, filter_In; split.
    + apply in_map, filter_In; auto.
    + simpl; rewrite HP, Hid; reflexivity.
  - unfold has_id, the_id; simpl; destruct (rm_id x); [|discriminate].
    apply String.eqb_refl.
Qed.

Lemma distinct_ids_same l x y :
  distinct_ids l = true -> In x l -> In y l ->
  rm_owner x = rm_owner y -> rm_id x = rm_id y -> rm_id x <> None -> x = y.
Proof.
  induction l as [|z l IH]; simpl; [intros _ []|].
  intros H; apply andb_true_iff in H; destruct H as [Hz Hl].
  apply negb_true_iff in Hz.
  assert (Hno : forall u v, In v l -> rm_owner u = rm_owner v ->
                 rm_id u = rm_id v -> rm_id u <> None ->
                 existsb (same_ident u) l = true).
  { intros u v Hv Ho Hi Hn; apply existsb_exists; exists v; split; auto.
    unfold same_ident, owned_by, has_id; rewrite <- Ho, <- Hi.
    destruct (rm_id u); [|congruence].
    rewrite !String.eqb_refl; reflexivity. }
  intros [<-|Hx] [<-|Hy] Ho Hi Hn; auto.
  - rewrite (Hno z y Hy Ho Hi Hn) in Hz; discriminate.
  - rewrite (Hno z x Hx (eq_sym Ho) (eq_sym Hi)) in Hz; [discriminate|].
    congruence.
Qed.

(** With distinct ids, the targets single out exactly the records that
    satisfy [P] and have an id. *)
Lemma kept_targets P aid l x :
  distinct_ids l = true -> In x l ->
  kept aid (targets P (listing aid l)) x
  = negb (owned_by aid x && P (to_Memory x) && Py.opt_str_truthy (rm_id x)).
Proof.
  intros Hd Hin; unfold kept; f_equal.
  destruct (owned_by aid x) eqn:Ho; simpl; [|reflexivity].
  destruct (P (to_Memory x) && Py.opt_str_truthy (rm_id x)) eqn:HP.
  - apply andb_true_iff in HP; destruct HP; apply targets_hit; auto.
  - destruct (id_in (targets P (listing aid l)) x) eqn:Hi; [|reflexivity].
    exfalso; unfold id_in in Hi; apply existsb_exists in Hi.
    destruct Hi as (i & Hi & Hx).
    unfold targets in Hi; apply in_map_iff in Hi.
    destruct Hi as (m & <- & Hm); apply filter_In in Hm; destruct Hm as [Hm Hq].
    unfold listing in Hm; apply in_map_iff in Hm.
    destruct Hm as (y & <- & Hy); apply filter_In in Hy; destruct Hy as [Hy Hoy].
    apply andb_true_iff in Hq; destruct Hq as [HPy Hty].
    assert (y = x) as ->.
    { apply (distinct_ids_same l); auto.
      - unfold owned_by in Ho, Hoy; apply String.eqb_eq in Ho, Hoy; congruence.
      - unfold has_id, the_id in Hx; simpl in *.
        destruct (rm_id y) as [iy|]; [|discriminate].
        destruct (rm_id x) as [ix|]; [|discriminate].
        apply String.eqb_eq in Hx; congruence.
      - simpl in Hty; destruct (rm_id y); [discriminate|discriminate]. }
    simpl in HPy, Hty; rewrite HPy, Hty in HP; discriminate.
Qed.

(** [delete] in a run without failures *)
Lemma delete_ok key s aid s1 :
  faults s = [] ->
  _get_cache_assistant_id s = (Ret aid, s1) ->
  delete key s
  = (Ret true,
     set_memories
       (filter (kept aid (targets (holds_key key) (listing aid (memories s))))
               (memories s)) s1).
Proof.
  intros Hf Hr.
  destruct (holder_ok s Hf) as (aid' & s1' & Hr' & Hm & Hn & Hf1 & _).
  rewrite Hr in Hr'; injection Hr' as <- <-.
  unfold delete, try_except, delete_try, bind; rewrite Hr.
  rewrite (list_memories_ok aid s1 Hf1).
  destruct (delete_loop_any key aid
              (map to_Memory (filter (owned_by aid) (memories s1))) s1)
    as (r & s' & D & E & Hs & _ & Hm' & Hok).
  destruct (Hok Hf1) as (-> & -> & Hf'); rewrite E; unfold ret.
  f_equal; apply state_eq_set; auto; [|congruence].
  rewrite Hm', Hm; reflexivity.
Qed.

Lemma targets_none P aid l :
  existsb (fun x => owned_by aid x && P (to_Memory x)) l = false ->
  targets P (listing aid l) = [].
Proof.
  unfold targets, listing; induction l as [|x l IH]; simpl; auto.
  intros H; apply orb_false_iff in H; destruct H as [Hx Hl].
  destruct (owned_by aid x); simpl in *; auto.
  rewrite Hx; simpl; auto.
Qed.

(** After the targets are gone, no target is left. *)
Lemma kept_fixpoint P aid l :
  let l' := filter (kept aid (targets P (listing aid l))) l in
  filter (kept aid (targets P (listing aid l'))) l' = l'.
Proof.
  intros l'; apply filter_all; intros x Hx.
  destruct (kept aid (targets P (listing aid l')) x) eqn:Hk; [reflexivity|].
  exfalso; unfold kept in Hk; apply negb_false_iff, andb_true_iff in Hk.
  destruct Hk as [Ho Hi]; unfold id_in in Hi; apply existsb_exists in Hi.
  destruct Hi as (i & Hi & Hxi).
  unfold targets in Hi; apply in_map_iff in Hi.
  destruct Hi as (m & <- & Hm); apply filter_In in Hm; destruct Hm as [Hm Hq].
  unfold listing in Hm; apply in_map_iff in Hm.
  destruct Hm as (y & <- & Hy); apply filter_In in Hy; destruct Hy as [Hy Hoy].
  apply andb_true_iff in Hq; destruct Hq as [HPy Hty].
  unfold l' in Hy; apply filter_In in Hy; destruct Hy as [Hy Hky].
  assert (Hhit : id_in (targets P (listing aid l)) y = true)
    by (apply targets_hit; auto).
  unfold kept in Hky; rewrite Hoy, Hhit in Hky; discriminate.
Qed.

Lemma set_memories_same s : set_memories (memories s) s = s.
Proof. destruct s; reflexivity. Qed.

Lemma id_in_incl D D' x :
  incl D D' -> id_in D x = true -> id_in D' x = true.
Proof.
  unfold id_in; intros Hi H; apply existsb_exists in H.
  destruct H as (i & Hin & Hx); apply existsb_exists; eauto.
Qed.

(** With distinct ids, a record that a run drops belongs to the container
    and satisfies the predicate the run selected its targets by. *)
Lemma dropped_is_target P aid l D x :
  distinct_ids l = true -> In x l ->
  incl D (targets P (listing aid l)) ->
  kept aid D x = false ->
  rm_owner x = aid /\ P (to_Memory x) = true /\ D <> [].
Proof.
  intros Hd Hin Hi Hk.
  unfold kept in Hk; apply negb_false_iff, andb_true_iff in Hk.
  destruct Hk as [Ho Hx].
  pose proof (id_in_incl _ _ _ Hi Hx) as Hx'.
  pose proof (kept_targets P aid l x Hd Hin) as E.
  unfold kept in E; rewrite Ho, Hx' in E; simpl in E.
  symmetry in E; apply negb_false_iff, andb_true_iff in E.
  repeat split.
  - unfold owned_by in Ho; apply String.eqb_eq in Ho; exact Ho.
  - apply E.
  - intros ->; discriminate.
Qed.

(** [delete] under any failure schedule *)
Lemma delete_any key s :
  exists b s' aid D,
    delete key s = (Ret b, s')
    /\ memories s' = filter (kept aid D) (memories s)
    /\ incl D (targets (holds_key key) (listing aid (memories s)))
    /\ (D <> [] -> self_cache_assistant_id s' = Some aid)
    /\ now s' = now s.
Proof.
  unfold delete, try_except, delete_try, bind.
  destruct (_get_cache_assistant_id s) as [[aid|e] s1] eqn:Hr.
  - destruct (holder_frame _ _ _ Hr) as [Hm Hn].
    pose proof (holder_returns _ _ _ Hr) as Hself.
    destruct (list_memories_any aid s1)
      as (r & s2 & -> & Hs2 & Hm2 & [->|[e ->]]).
    + destruct (delete_loop_any key aid (listing aid (memories s1)) s2)
        as (r & s' & D & -> & Hs' & Hi & Hm' & _).
      assert (Hfin : memories s' = filter (kept aid D) (memories s)
                     /\ self_cache_assistant_id s' = Some aid
                     /\ now s' = now s).
      { destruct Hs2 as (A & _ & _ & B), Hs' as (A' & _ & _ & B').
        repeat split; congruence. }
      destruct Hfin as (F1 & F2 & F3); rewrite Hm in Hi.
      destruct r; unfold ret; exists (match a with tt => true end) || exists false.
      all: exists s', aid, D; repeat split; auto; destruct a; reflexivity.
    + exists false, s2, aid, []; unfold ret.
      split; [reflexivity|]. split; [rewrite kept_nil; congruence|].
      split; [intros x []|]. split; [congruence|].
      destruct Hs2 as (_ & _ & _ & B); congruence.
  - exists false, s1, EmptyString, []; unfold ret.
    destruct (holder_frame _ _ _ Hr) as [Hm Hn].
    split; [reflexivity|]. split; [rewrite kept_nil; congruence|].
    split; [intros x []|]. split; [congruence|assumption].
Qed.

End DeleteFacts.

(* ------------------------------------------------------------------ *)
(** ** [clear_expired] *)

Module ClearFacts.
Import BackboardService BackboardCache CacheSpec ServiceFacts HolderFacts
       DeleteFacts.

(** The loop of [clear_expired], under any failure schedule and any
    metadata: it removes only ids of expired entries; when nothing fails
    and the timing fields are numbers it removes them all and counts
    them. *)
Lemma clear_loop_any aid t ms :
  forall n s, exists r s' D,
    clear_loop aid t ms n s = (r, s')
    /\ same_but_memories s s'
    /\ incl D (targets (expired_entry t) ms)
    /\ memories s' = filter (kept aid D) (memories s)
    /\ (faults s = [] ->
        forallb (fun m => negb (holds_some_key m) || well_timed m) ms = true ->
        r = Ret (n + Z.of_nat (List.length D))
        /\ D = targets (expired_entry t) ms /\ faults s' = []).
Proof.
  induction ms as [|m ms IH]; intros n s; simpl.
  - exists (Ret n), s, []; unfold ret; simpl.
    split; [reflexivity|]. split; [apply same_but_memories_refl|].
    split; [apply incl_refl|]. split; [symmetry; apply kept_nil|].
    intros F _; rewrite Z.add_0_r; auto.
  - unfold targets, expired_entry, aged, well_timed, timing; simpl.
    destruct (holds_some_key m); simpl; [|apply IH].
    unfold bind, int_sub, int_ge.
    destruct (Py.as_int (Py.dict_get_default "cache_time" (PInt 0)
                                              (metadata_dict m))) as [ct|].
    2:{ exists (Raise (TypeError
                ("unsupported operand type(s) for -: 'int' and '"
                 ++ type_name (Py.dict_get_default "cache_time" (PInt 0)
                                                   (metadata_dict m)) ++ "'"))),
               s, [].
        split; [reflexivity|]. split; [apply same_but_memories_refl|].
        split; [intros x []|]. split; [symmetry; apply kept_nil|].
        intros _ H; discriminate. }
    unfold ret at 1.
    destruct (Py.as_int (Py.dict_get_default "ttl" (PInt CACHE_TTL)
                                              (metadata_dict m))) as [tl|].
    2:{ exists (Raise (TypeError
                ("'>=' not supported between instances of 'int' and '"
                 ++ type_name (Py.dict_get_default "ttl" (PInt CACHE_TTL)
                                                   (metadata_dict m)) ++ "'"))),
               s, [].
        split; [reflexivity|]. split; [apply same_but_memories_refl|].
        split; [intros x []|]. split; [symmetry; apply kept_nil|].
        intros _ H; discriminate. }
    unfold ret at 1; simpl.
    destruct (t - ct >=? tl); simpl; [|apply IH].
    destruct (Py.opt_str_truthy (id m)); simpl; [|apply IH].
    destruct (delete_memory_any (the_id m) aid s)
      as (r1 & s1 & E & Hs & Hf & [[-> Hm]|[[e ->] [Hm Hne]]]); rewrite E.
    + destruct (IH (n + 1) s1) as (r & s' & D & E' & Hs' & Hi & Hm' & Hok).
      exists r, s', (the_id m :: D).
      split; [exact E'|].
      split; [eapply same_but_memories_trans; eauto|].
      split; [intros x [<-|Hx]; [left; reflexivity|right; apply Hi, Hx]|].
      split; [rewrite Hm', Hm; apply kept_cons|].
      intros F W; destruct (Hok (Hf F) W) as (-> & -> & Hf').
      repeat split; auto.
      f_equal; simpl List.length; lia.
    + exists (Raise e), s1, [].
      split; [reflexivity|]. split; [exact Hs|].
      split; [intros x []|]. split; [rewrite Hm; symmetry; apply kept_nil|].
      intros F; contradiction.
Qed.

(** [clear_expired] under any failure schedule *)
Lemma clear_any s :
  exists n s' aid D,
    clear_expired s = (Ret n, s')
    /\ memories s' = filter (kept aid D) (memories s)
    /\ incl D (targets (expired_entry (now s)) (listing aid (memories s)))
    /\ (D <> [] -> self_cache_assistant_id s' = Some aid).
Proof.
  unfold clear_expired, try_except, clear_expired_try, bind.
  destruct (_get_cache_assistant_id s) as [[aid|e] s1] eqn:Hr.
  - destruct (holder_frame _ _ _ Hr) as [Hm Hn].
    pose proof (holder_returns _ _ _ Hr) as Hself.
    destruct (list_memories_any aid s1)
      as (r & s2 & -> & Hs2 & Hm2 & [->|[e ->]]).
    + unfold int_time, gets.
      destruct (clear_loop_any aid (now s2) (listing aid (memories s1)) 0 s2)
        as (r & s' & D & -> & Hs' & Hi & Hm' & _).
      assert (Hfin : memories s' = filter (kept aid D) (memories s)
                     /\ self_cache_assistant_id s' = Some aid
                     /\ now s2 = now s).
      { destruct Hs2 as (A & _ & _ & B), Hs' as (A' & _ & _ & B').
        repeat split; congruence. }
      destruct Hfin as (F1 & F2 & F3); rewrite Hm, F3 in Hi.
      destruct r as [n|e]; unfold ret;
        [exists n|exists 0]; exists s', aid, D; repeat split; auto.
    + exists 0, s2, aid, []; unfold ret.
      split; [reflexivity|]. split; [rewrite kept_nil; congruence|].
      split; [intros x []|congruence].
  - exists 0, s1, EmptyString, []; unfold ret.
    destruct (holder_frame _ _ _ Hr) as [Hm Hn].
    split; [reflexivity|]. split; [rewrite kept_nil; congruence|].
    split; [intros x []|congruence].
Qed.

(** [clear_expired] in a run without failures over well-timed entries *)
Lemma clear_ok s aid s1 :
  faults s = [] ->
  _get_cache_assistant_id s = (Ret aid, s1) ->
  holder_well_timed aid (memories s) = true ->
  clear_expired s
  = (Ret (Z.of_nat (List.length
                      (targets (expired_entry (now s))
                               (listing aid (memories s))))),
     set_memories
       (filter (kept aid (targets (expired_entry (now s))
                                  (listing aid (memories s))))
               (memories s)) s1).
Proof.
  intros Hf Hr Hw.
  destruct (holder_ok s Hf) as (aid' & s1' & Hr' & Hm & Hn & Hf1 & _).
  rewrite Hr in Hr'; injection Hr' as <- <-.
  unfold clear_expired, try_except, clear_expired_try, bind; rewrite Hr.
  rewrite (list_memories_ok aid s1 Hf1); unfold int_time, gets.
  destruct (clear_loop_any aid (now s1)
              (map to_Memory (filter (owned_by aid) (memories s1))) 0 s1)
    as (r & s' & D & E & Hs & _ & Hm' & Hok).
  unfold holder_well_timed, listing in Hw; rewrite <- Hm in Hw.
  destruct (Hok Hf1 Hw) as (-> & -> & Hf'); rewrite E; unfold ret.
  unfold listing; rewrite <- Hm, <- Hn; f_equal.
  apply state_eq_set; auto; congruence.
Qed.

Lemma targets_length P aid l :
  forallb (fun x => Py.opt_str_truthy (rm_id x)) l = true ->
  List.length (targets P (listing aid l))
  = List.length (filter (fun x => owned_by aid x && P (to_Memory x)) l).
Proof.
  unfold targets, listing; rewrite length_map.
  induction l as [|x l IH]; simpl; auto.
  intros H; apply andb_true_iff in H; destruct H as [Hx Hl].
  destruct (owned_by aid x); simpl; auto.
  rewrite Hx, andb_true_r.
  destruct (P (to_Memory x)); simpl; auto.
Qed.

Lemma kept_exact P aid l :
  distinct_ids l = true ->
  forallb (fun x => Py.opt_str_truthy (rm_id x)) l = true ->
  filter (kept aid (targets P (listing aid l))) l
  = filter (fun x => negb (owned_by aid x && P (to_Memory x))) l.
Proof.
  intros Hd Hp; apply filter_ext_in; intros x Hx.
  rewrite (kept_targets P aid l x Hd Hx).
  rewrite forallb_forall in Hp; rewrite (Hp x Hx), andb_true_r; reflexivity.
Qed.

End ClearFacts.

(* ------------------------------------------------------------------ *)
(** ** [set] and [get] *)

Module GetFacts.
Import BackboardService BackboardCache CacheSpec ServiceFacts HolderFacts
       DeleteFacts.

Lemma get_loop_skip key ttl ms1 ms2 s :
  forallb (fun m => negb (holds_key key m)) ms1 = true ->
  get_loop key ttl (ms1 ++ ms2) s = get_loop key ttl ms2 s.
Proof.
  induction ms1 as [|m ms1 IH]; simpl; auto.
  intros H; apply andb_true_iff in H; destruct H as [Hm Hr].
  apply negb_true_iff in Hm; rewrite Hm; auto.
Qed.

Lemma listing_no_match aid key l :
  existsb (entry_for aid key) l = false ->
  forallb (fun m => negb (holds_key key m)) (listing aid l) = true.
Proof.
  unfold listing, entry_for; induction l as [|x l IH]; simpl; auto.
  intros H; apply orb_false_iff in H; destruct H as [Hx Hl].
  destruct (owned_by aid x); simpl in *; auto.
  rewrite Hx; simpl; auto.
Qed.

Lemma listing_app aid l l' :
  listing aid (l ++ l') = (listing aid l ++ listing aid l')%list.
Proof. unfold listing; rewrite filter_app, map_app; reflexivity. Qed.

Lemma forallb_filter {A} (p f : A -> bool) l :
  forallb p l = true -> forallb p (filter f l) = true.
Proof.
  rewrite !forallb_forall; intros H x Hx; apply filter_In in Hx; apply H, Hx.
Qed.

(** Once the targets are deleted, the container holds no record that
    satisfies the predicate, provided every record has an id. *)
Lemma after_delete_no_entry P aid l :
  forallb (fun x => Py.opt_str_truthy (rm_id x)) l = true ->
  existsb (fun x => owned_by aid x && P (to_Memory x))
          (filter (kept aid (targets P (listing aid l))) l) = false.
Proof.
  intros Hp.
  destruct (existsb _ (filter _ l)) eqn:E; [|reflexivity].
  exfalso; apply existsb_exists in E; destruct E as (x & Hx & Hq).
  apply filter_In in Hx; destruct Hx as [Hx Hk].
  apply andb_true_iff in Hq; destruct Hq as [Ho HP].
  rewrite forallb_forall in Hp.
  assert (Hin : id_in (targets P (listing aid l)) x = true)
    by (apply targets_hit; auto).
  unfold kept in Hk; rewrite Ho, Hin in Hk; discriminate.
Qed.

Lemma settled_self aid s :
  settled aid s -> faults s = [] -> _get_cache_assistant_id s = (Ret aid, s).
Proof. intros H F; apply H; auto. Qed.

(** [set] in a run without failures *)
Lemma set_ok key value ttl s aid s1 :
  faults s = [] ->
  _get_cache_assistant_id s = (Ret aid, s1) ->
  set key value ttl s = (Ret true, after_set aid key value ttl s s1).
Proof.
  intros Hf Hr.
  destruct (holder_ok s Hf) as (aid' & s1' & Hr' & Hm & Hn & Hf1 & Hset).
  rewrite Hr in Hr'; injection Hr' as <- <-.
  unfold set, try_except, set_try, bind; rewrite Hr.
  rewrite (delete_ok key s1 aid s1 Hf1 (settled_self aid s1 Hset Hf1)).
  unfold int_time, gets.
  rewrite store_memory_ok by (destruct s1; exact Hf1).
  unfold ret, after_set, stored_entry, cache_data; simpl.
  rewrite Hm, Hn; destruct s1; reflexivity.
Qed.

Lemma holds_key_stored aid n key value ttl t :
  holds_key key (to_Memory (stored_entry aid n key value ttl t)) = true.
Proof. unfold holds_key; simpl; apply String.eqb_refl. Qed.

Lemma stored_cache_time aid n key value ttl t :
  Py.dict_get_default "cache_time" (PInt 0)
    (metadata_dict (to_Memory (stored_entry aid n key value ttl t)))
  = PInt t.
Proof. reflexivity. Qed.

Lemma stored_ttl aid n key value ttl t dflt :
  Py.dict_get_default "ttl" dflt
    (metadata_dict (to_Memory (stored_entry aid n key value ttl t)))
  = PInt (Py.int_or ttl CACHE_TTL).
Proof. reflexivity. Qed.

Lemma owned_by_refl aid i c m : owned_by aid (mkRemoteMemory aid i c m) = true.
Proof. apply String.eqb_refl. Qed.

(** [get] right after [set], with the clock moved to [t']: the value
    while the ttl has not elapsed, [None] and a deletion afterwards. *)
Lemma get_after_set key value ttl ttl' s aid s1 t' :
  faults s = [] ->
  _get_cache_assistant_id s = (Ret aid, s1) ->
  ids_present s = true ->
  let s2 := set_now t' (after_set aid key value ttl s s1) in
  get key ttl' s2
  = if t' - now s <? Py.int_or ttl CACHE_TTL
    then (Ret (decode (encode value)), s2)
    else (Ret (Value PNone),
          set_memories
            (filter (kept aid (targets (holds_key key)
                                       (listing aid (memories s2))))
                    (memories s2)) s2).
Proof.
  intros Hf Hr Hp s2.
  destruct (holder_ok s Hf) as (aid' & s1' & Hr' & Hm & Hn & Hf1 & Hset).
  rewrite Hr in Hr'; injection Hr' as <- <-.
  assert (Hf2 : faults s2 = []) by (destruct s1; exact Hf1).
  assert (Hset2 : settled aid s2)
    by (apply (settled_transfer aid s1); auto; destruct s1; reflexivity).
  pose proof (settled_self aid s2 Hset2 Hf2) as Hr2.
  unfold get, try_except, get_try, bind; rewrite Hr2.
  rewrite (list_memories_ok aid s2 Hf2).
  change (map to_Memory (filter (owned_by aid) (memories s2)))
    with (listing aid (memories s2)).
  assert (Hmem : memories s2
                 = (filter (kept aid (targets (holds_key key)
                                              (listing aid (memories s))))
                           (memories s)
                    ++ [stored_entry aid (next_id s1) key value ttl (now s)])%list)
    by (destruct s1; reflexivity).
  rewrite Hmem at 1; rewrite listing_app, get_loop_skip.
  2:{ apply listing_no_match, (after_delete_no_entry (holds_key key)), Hp. }
  unfold listing at 1; simpl filter.
  unfold stored_entry at 1; rewrite owned_by_refl; simpl map.
  fold (stored_entry aid (next_id s1) key value ttl (now s)).
  unfold get_loop; rewrite holds_key_stored, stored_cache_time, stored_ttl.
  assert (Hnow : now s2 = t') by (destruct s1; reflexivity).
  unfold int_time, gets, bind, int_sub, int_lt, ret; cbn [Py.as_int].
  rewrite Hnow.
  destruct (t' - now s <? Py.int_or ttl CACHE_TTL); [reflexivity|].
  rewrite (delete_ok key s2 aid s2 Hf2 Hr2); reflexivity.
Qed.

End GetFacts.


(* ------------------------------------------------------------------ *)
(** ** [json.loads] undoes [json.dumps] *)

Module JsonFacts.
Import Json JsonSpec.
Local Open Scope char_scope.

Lemma append_assoc (a b c : string) :
  ((a ++ b) ++ c = a ++ (b ++ c))%string.
Proof. induction a as [|x a IH]; simpl; congruence. Qed.

(** *** Strings *)

Lemma unescape_escape_char c r :
  parse_string_body (escape_char c ++ r)
  = pmap (String c) (parse_string_body r).
Proof.
  destruct c as [[] [] [] [] [] [] [] []]; reflexivity.
Qed.

Lemma parse_escape s rest :
  parse_string_body (escape s ++ String dquote rest) = Ok s rest.
Proof.
  induction s as [|c s IH]; simpl.
  - reflexivity.
  - rewrite append_assoc, unescape_escape_char, IH; reflexivity.
Qed.

Lemma parse_quote s rest :
  exists r, (quote s ++ rest)%string = String dquote r
            /\ parse_string_body r = Ok s rest.
Proof.
  exists (escape s ++ String dquote rest)%string; split.
  - unfold quote; simpl; rewrite append_assoc; reflexivity.
  - apply parse_escape.
Qed.

(** *** Integers *)

Lemma read_digits_print d rest :
  starts_digit rest = false ->
  read_digits (NilEmpty.string_of_uint d ++ rest) = (d, rest).
Proof.
  intros H; induction d; simpl; try (rewrite IHd; reflexivity).
  destruct rest as [|c r]; simpl in *; auto.
  destruct (digit_of_char c); [discriminate|reflexivity].
Qed.

Lemma delim_no_digit rest : delim rest = true -> starts_digit rest = false.
Proof.
  destruct rest as [|c r]; simpl; auto.
  destruct c as [[] [] [] [] [] [] [] []]; simpl; auto; discriminate.
Qed.

Lemma delim_no_float rest : delim rest = true -> starts_float_tail rest = false.
Proof.
  destruct rest as [|c r]; simpl; auto.
  destruct c as [[] [] [] [] [] [] [] []]; simpl; auto; discriminate.
Qed.

Lemma to_uint_head p :
  Pos.to_uint p <> Decimal.Nil /\ forall d, Pos.to_uint p <> Decimal.D0 d.
Proof.
  split; [apply DecimalPos.Unsigned.to_uint_nonnil|].
  intros d E.
  pose proof (DecimalPos.Unsigned.to_of (Pos.to_uint p)) as H.
  rewrite DecimalPos.Unsigned.of_to in H; simpl in H.
  pose proof (DecimalPos.Unsigned.to_uint_nonzero p) as Hz.
  unfold Decimal.unorm in H.
  destruct (Decimal.nzhead (Pos.to_uint p)) eqn:En;
    try (rewrite H in E; discriminate).
  - rewrite H in Hz; apply Hz; reflexivity.
  - apply (DecimalFacts.nzhead_nonzero (Pos.to_uint p) u); congruence.
Qed.

Lemma parse_nat_print p rest :
  delim rest = true ->
  parse_nat (NilEmpty.string_of_uint (Pos.to_uint p) ++ rest)
  = Ok (Zpos p) rest.
Proof.
  intros H; unfold parse_nat.
  rewrite (read_digits_print _ _ (delim_no_digit _ H)).
  rewrite (delim_no_float _ H).
  destruct (to_uint_head p) as [Hn Hz].
  pose proof (DecimalPos.Unsigned.of_to p) as Hof.
  destruct (Pos.to_uint p) eqn:E;
    try (rewrite Hof; reflexivity).
  - contradiction.
  - exfalso; apply (Hz u); reflexivity.
Qed.

(** *** The head of a printed value *)

Lemma dumps_list l : dumps (PList l) = ("[" ++ dumps_items l ++ "]")%string.
Proof. reflexivity. Qed.

Lemma dumps_dict d : dumps (PDict d) = ("{" ++ dumps_members d ++ "}")%string.
Proof. reflexivity. Qed.

Lemma uint_starts_digit d rest :
  d <> Decimal.Nil ->
  starts_digit (NilEmpty.string_of_uint d ++ rest) = true.
Proof. destruct d; simpl; auto; contradiction. Qed.

Lemma starts_digit_value s : starts_digit s = true -> starts_value s = true.
Proof.
  destruct s as [|c r]; simpl; auto.
  destruct (digit_of_char c); [|discriminate].
  intros _; rewrite !orb_true_r; reflexivity.
Qed.

Lemma dumps_starts v rest : starts_value (dumps v ++ rest) = true.
Proof.
  destruct v as [|[]|[|p|p]|s|l|d]; try reflexivity.
  apply starts_digit_value, uint_starts_digit, to_uint_head.
Qed.

Lemma starts_value_not_ws c r :
  starts_value (String c r) = true -> is_ws c = false.
Proof.
  destruct c as [[] [] [] [] [] [] [] []]; simpl; auto; discriminate.
Qed.

Lemma skip_ws_value s : starts_value s = true -> skip_ws s = s.
Proof.
  destruct s as [|c r]; simpl; auto.
  intros H; rewrite (starts_value_not_ws c r H); reflexivity.
Qed.

Lemma skip_ws_space_value s :
  starts_value s = true -> skip_ws (String " " s) = s.
Proof. intros H; simpl; apply skip_ws_value, H. Qed.

(** *** Scalars *)

Lemma parse_value_digit fuel c r :
  starts_digit (String c r) = true ->
  parse_value (S fuel) (String c r) = pmap PInt (parse_nat (String c r)).
Proof.
  destruct c as [[] [] [] [] [] [] [] []]; simpl; try discriminate;
    reflexivity.
Qed.

Lemma parse_value_minus fuel c r :
  starts_digit (String c r) = true ->
  parse_value (S fuel) (String "-" (String c r))
  = pmap (fun n => PInt (- n)) (parse_nat (String c r)).
Proof.
  destruct c as [[] [] [] [] [] [] [] []]; simpl; try discriminate;
    reflexivity.
Qed.

Lemma parse_int z fuel rest :
  delim rest = true ->
  parse_value (S fuel) (str_int z ++ rest) = Ok (PInt z) rest.
Proof.
  intros H; destruct z as [|p|p]; unfold str_int.
  - change ("0" ++ rest)%string with (String "0" rest).
    rewrite parse_value_digit by reflexivity.
    unfold parse_nat.
    change (String "0" rest)
      with (NilEmpty.string_of_uint (Decimal.D0 Decimal.Nil) ++ rest)%string.
    rewrite (read_digits_print _ _ (delim_no_digit _ H)).
    rewrite (delim_no_float _ H); reflexivity.
  - pose proof (uint_starts_digit (Pos.to_uint p) rest (proj1 (to_uint_head p)))
      as Hs.
    pose proof (parse_nat_print p rest H) as Hp.
    destruct (NilEmpty.string_of_uint (Pos.to_uint p) ++ rest)%string
      as [|c r]; [discriminate|].
    rewrite (parse_value_digit fuel c r Hs), Hp; reflexivity.
  - pose proof (uint_starts_digit (Pos.to_uint p) rest (proj1 (to_uint_head p)))
      as Hs.
    pose proof (parse_nat_print p rest H) as Hp.
    change (String "-" (NilEmpty.string_of_uint (Pos.to_uint p)) ++ rest)%string
      with (String "-" (NilEmpty.string_of_uint (Pos.to_uint p) ++ rest)).
    destruct (NilEmpty.string_of_uint (Pos.to_uint p) ++ rest)%string
      as [|c r]; [discriminate|].
    rewrite (parse_value_minus fuel c r Hs), Hp; reflexivity.
Qed.

Lemma parse_str s fuel rest :
  parse_value (S fuel) (quote s ++ rest) = Ok (PStr s) rest.
Proof.
  destruct (parse_quote s rest) as (r & -> & Hr).
  change (parse_value (S fuel) (String dquote r))
    with (pmap PStr (parse_string_body r)).
  rewrite Hr; reflexivity.
Qed.

(** *** Lists and dicts *)

Lemma starts_value_not_close c r :
  starts_value (String c r) = true -> (c =? "]") = false /\ (c =? "}") = false.
Proof.
  destruct c as [[] [] [] [] [] [] [] []]; simpl; auto; discriminate.
Qed.

Lemma items_starts l r :
  l <> [] -> starts_value (dumps_items l ++ r) = true.
Proof.
  destruct l as [|x [|y l]]; [contradiction| |]; intros _; simpl dumps_items.
  - apply dumps_starts.
  - rewrite append_assoc; apply dumps_starts.
Qed.

Lemma members_starts d r :
  d <> [] -> starts_value (dumps_members d ++ r) = true.
Proof.
  destruct d as [|[k x] [|y d]]; [contradiction| |]; intros _; reflexivity.
Qed.

Lemma parse_elements_last pv n s v rest :
  pv s = Ok v (String "]" rest) ->
  parse_elements pv (S n) s = Ok [v] rest.
Proof. intros H; cbn [parse_elements]; rewrite H; reflexivity. Qed.

Lemma parse_elements_more pv n s v t :
  pv s = Ok v (String "," (String " " t)) ->
  starts_value t = true ->
  parse_elements pv (S n) s = pmap (cons v) (parse_elements pv n t).
Proof.
  intros H Ht; cbn [parse_elements]; rewrite H.
  change (skip_ws (String "," (String " " t)))
    with (String "," (String " " t)).
  cbv iota beta.
  change ("," =? "]") with false; change ("," =? ",") with true; cbv iota.
  change (skip_ws (String " " t)) with (skip_ws t).
  rewrite (skip_ws_value t Ht); reflexivity.
Qed.

Lemma parse_elements_items pv l rest :
  l <> [] ->
  (forall x, In x l -> forall r, delim r = true -> pv (dumps x ++ r)%string = Ok x r) ->
  forall n, (List.length l <= n)%nat ->
  parse_elements pv n (dumps_items l ++ String "]" rest) = Ok l rest.
Proof.
  induction l as [|x l IH]; [contradiction|]; intros _ Hpv n Hn.
  destruct n as [|n]; [simpl in Hn; lia|].
  destruct l as [|y l].
  - apply parse_elements_last, Hpv; [left|]; reflexivity.
  - change (dumps_items (x :: y :: l))
      with (dumps x ++ ", " ++ dumps_items (y :: l))%string.
    rewrite append_assoc.
    change ((", " ++ dumps_items (y :: l)) ++ String "]" rest)%string
      with (String "," (String " " (dumps_items (y :: l) ++ String "]" rest))).
    rewrite (parse_elements_more pv n _ x
               (dumps_items (y :: l) ++ String "]" rest)).
    + rewrite IH; [reflexivity|discriminate| |simpl in *; lia].
      intros z Hz; apply Hpv; right; exact Hz.
    + apply Hpv; [left|]; reflexivity.
    + apply items_starts; discriminate.
Qed.

Lemma parse_members_last pv n k s v rest :
  parse_string_body s = Ok k (String ":" (String " " (dumps v ++ String "}" rest))) ->
  pv (dumps v ++ String "}" rest)%string = Ok v (String "}" rest) ->
  parse_members pv (S n) (String dquote s) = Ok [(k, v)] rest.
Proof.
  intros Hk Hv; cbn [parse_members].
  change (dquote =? dquote) with true; cbv iota; rewrite Hk.
  change (skip_ws (String ":" (String " " (dumps v ++ String "}" rest))))
    with (String ":" (String " " (dumps v ++ String "}" rest))).
  change (":" =? ":") with true; cbv iota.
  change (skip_ws (String " " (dumps v ++ String "}" rest)))
    with (skip_ws (dumps v ++ String "}" rest)).
  rewrite (skip_ws_value _ (dumps_starts v _)), Hv; reflexivity.
Qed.

Lemma parse_members_more pv n k s v t :
  parse_string_body s
  = Ok k (String ":" (String " " (dumps v ++ String "," (String " " t)))) ->
  pv (dumps v ++ String "," (String " " t))%string
  = Ok v (String "," (String " " t)) ->
  starts_value t = true ->
  parse_members pv (S n) (String dquote s)
  = pmap (cons (k, v)) (parse_members pv n t).
Proof.
  intros Hk Hv Ht; cbn [parse_members].
  change (dquote =? dquote) with true; cbv iota; rewrite Hk.
  change (skip_ws (String ":" (String " " (dumps v ++ String "," (String " " t)))))
    with (String ":" (String " " (dumps v ++ String "," (String " " t)))).
  change (":" =? ":") with true; cbv iota.
  change (skip_ws (String " " (dumps v ++ String "," (String " " t))))
    with (skip_ws (dumps v ++ String "," (String " " t))).
  rewrite (skip_ws_value _ (dumps_starts v _)), Hv.
  change (skip_ws (String "," (String " " t)))
    with (String "," (String " " t)).
  cbv iota beta.
  change ("," =? "}") with false; change ("," =? ",") with true; cbv iota.
  change (skip_ws (String " " t)) with (skip_ws t).
  rewrite (skip_ws_value t Ht); reflexivity.
Qed.

Lemma parse_members_members pv d rest :
  d <> [] ->
  (forall kv, In kv d -> forall r, delim r = true ->
              pv (dumps (snd kv) ++ r)%string = Ok (snd kv) r) ->
  forall n, (List.length d <= n)%nat ->
  parse_members pv n (dumps_members d ++ String "}" rest) = Ok d rest.
Proof.
  induction d as [|[k x] d IH]; [contradiction|]; intros _ Hpv n Hn.
  destruct n as [|n]; [simpl in Hn; lia|].
  destruct d as [|y d].
  - change (dumps_members [(k, x)]) with (quote k ++ ": " ++ dumps x)%string.
    rewrite append_assoc.
    destruct (parse_quote k ((": " ++ dumps x) ++ String "}" rest))
      as (r & -> & Hr).
    rewrite append_assoc in Hr.
    apply (parse_members_last pv n k r x rest Hr).
    apply (Hpv (k, x)); [left|]; reflexivity.
  - change (dumps_members ((k, x) :: y :: d))
      with (quote k ++ ": " ++ dumps x ++ ", " ++ dumps_members (y :: d))%string.
    rewrite append_assoc.
    destruct (parse_quote k ((": " ++ dumps x ++ ", " ++ dumps_members (y :: d))
                             ++ String "}" rest))
      as (r & -> & Hr).
    rewrite !append_assoc in Hr.
    rewrite (parse_members_more pv n k r x
               (dumps_members (y :: d) ++ String "}" rest)).
    + rewrite IH; [reflexivity|discriminate| |simpl in *; lia].
      intros z Hz; apply Hpv; right; exact Hz.
    + exact Hr.
    + apply (Hpv (k, x)); [left|]; reflexivity.
    + apply members_starts; discriminate.
Qed.

(** *** [dict(pairs)] over distinct keys *)

Lemma dict_set_fresh k v acc :
  existsb (String.eqb k) (map fst acc) = false ->
  dict_set k v acc = (acc ++ [(k, v)])%list.
Proof.
  induction acc as [|[k' v'] acc IH]; simpl; auto.
  intros H; apply orb_false_iff in H; destruct H as [Hk Hr].
  rewrite String.eqb_sym, Hk, IH; auto.
Qed.

Lemma distinct_middle l1 k l2 :
  distinct (l1 ++ k :: l2) = true -> existsb (String.eqb k) l1 = false.
Proof.
  induction l1 as [|x l1 IH]; simpl; auto.
  intros H; apply andb_true_iff in H; destruct H as [Hx Hr].
  apply negb_true_iff in Hx; rewrite existsb_app in Hx.
  apply orb_false_iff in Hx; destruct Hx as [_ Hx]; simpl in Hx.
  apply orb_false_iff in Hx; destruct Hx as [Hx _].
  rewrite String.eqb_sym, Hx; simpl; auto.
Qed.

Lemma fold_dict_set l :
  forall acc,
    distinct (map fst (acc ++ l)) = true ->
    fold_left (fun d kv => dict_set (fst kv) (snd kv) d) l acc
    = (acc ++ l)%list.
Proof.
  induction l as [|[k v] l IH]; intros acc H; simpl.
  - rewrite app_nil_r; reflexivity.
  - rewrite map_app in H; simpl in H.
    rewrite (dict_set_fresh k v acc (distinct_middle _ _ _ H)).
    rewrite IH, <- app_assoc; [reflexivity|].
    rewrite <- app_assoc, map_app; exact H.
Qed.

Lemma dict_of_pairs_distinct d :
  distinct (map fst d) = true -> dict_of_pairs d = d.
Proof. intros H; apply (fold_dict_set d []); exact H. Qed.

(** *** Sizes *)

Lemma size_pos v : (1 <= size v)%nat.
Proof. destruct v; simpl; lia. Qed.

Lemma sum_bounds {A} (f : A -> nat) (l : list A) :
  (forall x, 1 <= f x)%nat ->
  (List.length l <= list_sum (map f l))%nat
  /\ forall x, In x l -> (f x <= list_sum (map f l))%nat.
Proof.
  intros Hf; induction l as [|y l [IH1 IH2]]; simpl.
  - split; [lia|intros x []].
  - split; [pose proof (Hf y); lia|].
    intros x [<-|Hx]; [lia|]; pose proof (IH2 x Hx); lia.
Qed.

(** *** The round trip of one value *)

Lemma parse_dumps v :
  wf v = true ->
  forall fuel rest,
    (size v <= fuel)%nat -> delim rest = true ->
    parse_value fuel (dumps v ++ rest) = Ok v rest.
Proof.
  induction v as [|b|z|s|l IH|d IH] using pyval_nested_ind;
    intros Hwf fuel rest Hsz Hd.
  all: destruct fuel as [|f]; [simpl in Hsz; lia|].
  - reflexivity.
  - destruct b; reflexivity.
  - apply parse_int, Hd.
  - apply parse_str.
  - destruct l as [|x l]; [reflexivity|].
    rewrite dumps_list.
    change (("[" ++ dumps_items (x :: l) ++ "]") ++ rest)%string
      with (String "[" ((dumps_items (x :: l) ++ "]") ++ rest)).
    rewrite append_assoc.
    change ("]" ++ rest)%string with (String "]" rest).
    pose proof (items_starts (x :: l) (String "]" rest)
                  ltac:(discriminate)) as Hst.
    cbn [parse_value]; change ("[" =? dquote) with false;
      change ("[" =? "{") with false; change ("[" =? "[") with true;
      cbv iota.
    rewrite (skip_ws_value _ Hst).
    destruct (dumps_items (x :: l) ++ String "]" rest)%string
      as [|c r] eqn:E; [discriminate|].
    destruct (starts_value_not_close c r Hst) as [-> _].
    rewrite <- E.
    simpl in Hsz, Hwf.
    destruct (sum_bounds size (x :: l) size_pos) as [Hlen Hin].
    rewrite (parse_elements_items (parse_value f) (x :: l) rest);
      [reflexivity|discriminate| |simpl in *; lia].
    intros y Hy r' Hr.
    rewrite Forall_forall in IH; apply IH; auto.
    + change (forallb wf (x :: l) = true) in Hwf.
      rewrite forallb_forall in Hwf; apply Hwf, Hy.
    + pose proof (Hin y Hy); simpl in *; lia.
  - destruct d as [|kx d]; [reflexivity|].
    rewrite dumps_dict.
    change (("{" ++ dumps_members (kx :: d) ++ "}") ++ rest)%string
      with (String "{" ((dumps_members (kx :: d) ++ "}") ++ rest)).
    rewrite append_assoc.
    change ("}" ++ rest)%string with (String "}" rest).
    pose proof (members_starts (kx :: d) (String "}" rest)
                  ltac:(discriminate)) as Hst.
    cbn [parse_value]; change ("{" =? dquote) with false;
      change ("{" =? "{") with true; cbv iota.
    rewrite (skip_ws_value _ Hst).
    destruct (dumps_members (kx :: d) ++ String "}" rest)%string
      as [|c r] eqn:E; [discriminate|].
    destruct (starts_value_not_close c r Hst) as [_ ->].
    rewrite <- E.
    change (distinct (map fst (kx :: d))
            && forallb (fun kv => wf (snd kv)) (kx :: d) = true) in Hwf.
    apply andb_true_iff in Hwf; destruct Hwf as [Hdist Hwf].
    change (S (list_sum (map (fun kv => size (snd kv)) (kx :: d))) <= S f)%nat
      in Hsz.
    destruct (sum_bounds (fun kv : string * pyval => size (snd kv)) (kx :: d)
                (fun kv => size_pos (snd kv))) as [Hlen Hin].
    rewrite (parse_members_members (parse_value f) (kx :: d) rest);
      [|discriminate| |lia].
    + simpl pmap; rewrite (dict_of_pairs_distinct _ Hdist); reflexivity.
    + intros y Hy r' Hr.
      rewrite Forall_forall in IH; apply IH; auto.
      * rewrite forallb_forall in Hwf; apply Hwf, Hy.
      * pose proof (Hin y Hy); simpl in *; lia.
Qed.

(** *** The round trip of a document *)

Lemma length_append a b :
  String.length (a ++ b) = (String.length a + String.length b)%nat.
Proof. induction a as [|c a IH]; simpl; congruence. Qed.

Lemma append_nil_r a : (a ++ "")%string = a.
Proof. induction a as [|c a IH]; simpl; congruence. Qed.

Lemma items_length l :
  Forall (fun x => size x <= String.length (dumps x))%nat l ->
  (list_sum (map size l) <= String.length (dumps_items l))%nat.
Proof.
  induction 1 as [|x l Hx Hl IH]; simpl; [lia|].
  destruct l as [|y l]; [simpl; lia|].
  rewrite !length_append; simpl in *; lia.
Qed.

Lemma members_length d :
  Forall (fun kv => size (snd kv) <= String.length (dumps (snd kv)))%nat d ->
  (list_sum (map (fun kv => size (snd kv)) d)
   <= String.length (dumps_members d))%nat.
Proof.
  induction 1 as [|[k x] d Hx Hd IH]; [simpl; lia|].
  destruct d as [|y d].
  - change (dumps_members [(k, x)]) with (quote k ++ ": " ++ dumps x)%string.
    rewrite !length_append; simpl in *; lia.
  - change (dumps_members ((k, x) :: y :: d))
      with (quote k ++ ": " ++ dumps x ++ ", " ++ dumps_members (y :: d))%string.
    rewrite !length_append.
    change (list_sum (map (fun kv => size (snd kv)) ((k, x) :: y :: d)))
      with (size x + list_sum (map (fun kv => size (snd kv)) (y :: d)))%nat.
    simpl snd in Hx; lia.
Qed.

Lemma size_le_length v : (size v <= String.length (dumps v))%nat.
Proof.
  induction v as [|b|z|s|l IH|d IH] using pyval_nested_ind.
  - simpl; lia.
  - destruct b; simpl; lia.
  - destruct z as [|p|p]; simpl; try lia.
    destruct (to_uint_head p) as [Hn _].
    destruct (Pos.to_uint p); simpl; try lia; contradiction.
  - simpl; lia.
  - rewrite dumps_list, !length_append; pose proof (items_length l IH).
    simpl; lia.
  - rewrite dumps_dict, !length_append; pose proof (members_length d IH).
    change (size (PDict d))
      with (S (list_sum (map (fun kv => size (snd kv)) d))).
    simpl String.length; lia.
Qed.

(** [json.loads(json.dumps(v))] gives [v] back. *)
Lemma loads_dumps v : wf v = true -> loads (dumps v) = Ok v EmptyString.
Proof.
  intros Hwf; unfold loads.
  pose proof (dumps_starts v EmptyString) as Hst; rewrite append_nil_r in Hst.
  rewrite (skip_ws_value _ Hst).
  pose proof (parse_dumps v Hwf (S (String.length (dumps v))) EmptyString)
    as H.
  rewrite append_nil_r in H; rewrite H; [reflexivity| |reflexivity].
  pose proof (size_le_length v); lia.
Qed.

End JsonFacts.


(* ------------------------------------------------------------------ *)
(** ** The aggregate search *)

Module SearchFacts.
Import Routes RouteSpec CacheSpec ServiceFacts.

Lemma len_ge_int l k :
  len_ge l (PInt k) = inr (Z.of_nat (List.length l) >=? k).
Proof. reflexivity. Qed.

(** What one assistant's loop appends comes from its matching memories. *)
Lemma scan_memories_sound q limit a ms :
  forall all, exists l,
    fst (scan_memories q limit a ms all) = (all ++ l)%list
    /\ incl l (entries q a ms).
Proof.
  unfold entries; induction ms as [|m ms IH]; intros all; simpl.
  - exists []; rewrite app_nil_r; split; [reflexivity|apply incl_refl].
  - destruct (matches_query q m); simpl.
    + destruct (len_ge (all ++ [memory_dict a m]) limit) as [e|[]]; simpl.
      * exists [memory_dict a m]; split; auto.
        intros x [<-|[]]; left; reflexivity.
      * exists [memory_dict a m]; split; auto.
        intros x [<-|[]]; left; reflexivity.
      * destruct (IH (all ++ [memory_dict a m])%list) as (l & -> & Hl).
        exists (memory_dict a m :: l); rewrite <- app_assoc; split; auto.
        intros x [<-|Hx]; [left; reflexivity|right; apply Hl, Hx].
    + apply IH.
Qed.

(** With an integer limit the loop never fails, stays within the larger
    of 1 and the limit, and finishes with the loop still open. *)
Lemma scan_memories_bound q k a ms :
  forall all,
    open_at k all ->
    let r := scan_memories q (PInt k) a ms all in
    (forall e, snd r <> Failed e)
    /\ Z.of_nat (List.length (fst r)) <= Z.max 1 k
    /\ (snd r = Finished -> open_at k (fst r)).
Proof.
  induction ms as [|m ms IH]; intros all Ho; cbn [scan_memories].
  - split; [discriminate|]; split; auto.
    destruct Ho as [Ho| ->]; simpl; lia.
  - destruct (matches_query q m); [|apply IH; exact Ho].
    rewrite len_ge_int.
    destruct (Z.of_nat (List.length (all ++ [memory_dict a m])) >=? k) eqn:E.
    + cbn [fst snd]; split; [discriminate|]; split; [|discriminate].
      rewrite length_app; simpl.
      destruct Ho as [Ho| ->]; simpl; lia.
    + apply IH; left; rewrite Z.geb_leb in E; apply Z.leb_gt in E; exact E.
Qed.

(** With a limit of at least 1 the loop collects the matches in order
    up to the limit and breaks exactly when the limit is reached. *)
Lemma scan_memories_exact q k a ms :
  1 <= k ->
  forall all,
    Z.of_nat (List.length all) < k ->
    scan_memories q (PInt k) a ms all
    = (firstn (Z.to_nat k) (all ++ entries q a ms),
       if Z.of_nat (List.length (all ++ entries q a ms)) >=? k
       then Broke else Finished).
Proof.
  intros Hk; unfold entries.
  induction ms as [|m ms IH]; intros all Hall; cbn [scan_memories filter map].
  - rewrite app_nil_r, firstn_all2 by lia.
    replace (Z.of_nat (List.length all) >=? k) with false; [reflexivity|].
    symmetry; rewrite Z.geb_leb; apply Z.leb_gt; exact Hall.
  - destruct (matches_query q m); [|apply IH; exact Hall].
    cbn [map]; rewrite len_ge_int.
    destruct (Z.of_nat (List.length (all ++ [memory_dict a m])) >=? k) eqn:E.
    + rewrite Z.geb_leb in E; apply Z.leb_le in E.
      rewrite length_app in E; simpl in E.
      f_equal.
      * change (memory_dict a m :: map (memory_dict a) (filter (matches_query q) ms))
          with ([memory_dict a m]
                ++ map (memory_dict a) (filter (matches_query q) ms))%list.
        rewrite app_assoc, firstn_app.
        rewrite firstn_all2 by (rewrite length_app; simpl; lia).
        replace (Z.to_nat k - List.length (all ++ [memory_dict a m]))%nat
          with 0%nat by (rewrite length_app; simpl; lia).
        rewrite firstn_O, app_nil_r; reflexivity.
      * replace (Z.of_nat (List.length (all ++ _ :: _)) >=? k) with true;
          [reflexivity|].
        symmetry; rewrite Z.geb_leb; apply Z.leb_le.
        rewrite length_app; simpl; lia.
    + rewrite Z.geb_leb in E; apply Z.leb_gt in E.
      rewrite (IH (all ++ [memory_dict a m])%list E), <- !app_assoc.
      reflexivity.
Qed.

(** The loop over the assistants under any failure schedule: it returns,
    leaves the memories alone, and what it appends are entries of the
    assistants it was given. *)
Lemma scan_assistants_sound q limit l_as :
  forall all s, exists all' s' l,
    scan_assistants q limit l_as all s = (Ret all', s')
    /\ memories s' = memories s
    /\ all' = (all ++ l)%list
    /\ forall r, In r l ->
         exists a, In a l_as
                   /\ In r (entries q a (listing (a_id a) (memories s))).
Proof.
  induction l_as as [|a rest IH]; intros all s; cbn [scan_assistants].
  - exists all, s, []; unfold ret; rewrite app_nil_r.
    repeat split; auto; intros r [].
  - assert (Hrec : forall all1 s1 l1,
              memories s1 = memories s ->
              all1 = (all ++ l1)%list ->
              incl l1 (entries q a (listing (a_id a) (memories s))) ->
              exists all' s' l,
                scan_assistants q limit rest all1 s1 = (Ret all', s')
                /\ memories s' = memories s
                /\ all' = (all ++ l)%list
                /\ forall r, In r l ->
                     exists a', In a' (a :: rest)
                       /\ In r (entries q a' (listing (a_id a') (memories s)))).
    { intros all1 s1 l1 Hm -> Hl1.
      destruct (IH (all ++ l1)%list s1) as (all' & s' & l & E & Hm' & -> & Hl).
      exists ((all ++ l1) ++ l)%list, s', (l1 ++ l)%list.
      split; [exact E|]; split; [congruence|]; split;
        [rewrite app_assoc; reflexivity|].
      intros r Hr; apply in_app_or in Hr; destruct Hr as [Hr|Hr].
      - exists a; split; [left; reflexivity|apply Hl1, Hr].
      - destruct (Hl r Hr) as (a' & Ha' & Hin); rewrite Hm in Hin.
        exists a'; split; [right; exact Ha'|exact Hin]. }
    destruct (list_memories_any (a_id a) s)
      as (r & s1 & -> & _ & Hm & [->|[e ->]]).
    + destruct (scan_memories_sound q limit a (listing (a_id a) (memories s)) all)
        as (l1 & E1 & Hl1).
      destruct (scan_memories q limit a (listing (a_id a) (memories s)) all)
        as [all1 fl]; simpl in E1; subst all1.
      assert (Hret : exists all' s' l,
                (Ret (all ++ l1)%list, s1) = (Ret all', s')
                /\ memories s' = memories s
                /\ all' = (all ++ l)%list
                /\ forall r, In r l ->
                     exists a', In a' (a :: rest)
                       /\ In r (entries q a' (listing (a_id a') (memories s)))).
      { exists (all ++ l1)%list, s1, l1; repeat split; auto.
        intros r Hr; exists a; split; [left; reflexivity|apply Hl1, Hr]. }
      destruct fl; try (apply (Hrec _ s1 l1); auto; fail);
        destruct (len_ge (all ++ l1) limit) as [e|[]];
        try (apply (Hrec _ s1 l1); auto; fail); exact Hret.
    + destruct (Hrec all s1 [] Hm) as (all' & s' & l & E & H).
      * rewrite app_nil_r; reflexivity.
      * intros x [].
      * eauto.
Qed.

(** With an integer limit the list never grows past the larger of 1 and
    the limit. *)
Lemma scan_assistants_bound q k l_as :
  forall all s all' s',
    open_at k all ->
    scan_assistants q (PInt k) l_as all s = (Ret all', s') ->
    Z.of_nat (List.length all') <= Z.max 1 k.
Proof.
  induction l_as as [|a rest IH]; intros all s all' s' Ho;
    cbn [scan_assistants].
  - unfold ret; intros [= <- <-]; destruct Ho as [Ho| ->]; simpl; lia.
  - destruct (BackboardService.list_memories (a_id a) s) as [[ms|e] s1];
      [|apply IH; exact Ho].
    pose proof (scan_memories_bound q k a ms all Ho) as (Hnf & Hlen & Hfin).
    destruct (scan_memories q (PInt k) a ms all) as [all1 fl];
      cbn [fst snd] in *.
    destruct fl as [| |e]; [| |exfalso; apply (Hnf e); reflexivity];
      rewrite len_ge_int;
      destruct (Z.of_nat (List.length all1) >=? k) eqn:E;
      try (intros [= <- <-]; exact Hlen).
    + apply IH, Hfin; reflexivity.
    + apply IH; left; rewrite Z.geb_leb in E; apply Z.leb_gt in E; exact E.
Qed.

(** Without failures and with a limit of at least 1 the scan collects
    the matches of all the assistants in order, up to the limit. *)
Lemma scan_assistants_exact q k l_as :
  1 <= k ->
  forall all s,
    faults s = [] ->
    Z.of_nat (List.length all) < k ->
    scan_assistants q (PInt k) l_as all s
    = (Ret (firstn (Z.to_nat k)
              (all ++ flat_map
                        (fun a => entries q a (listing (a_id a) (memories s)))
                        l_as)),
       s).
Proof.
  intros Hk; induction l_as as [|a rest IH]; intros all s Hf Hall;
    cbn [scan_assistants flat_map].
  - unfold ret; rewrite app_nil_r, firstn_all2 by lia; reflexivity.
  - rewrite (list_memories_ok (a_id a) s Hf).
    change (map BackboardService.to_Memory
              (filter (BackboardService.owned_by (a_id a)) (memories s)))
      with (listing (a_id a) (memories s)).
    rewrite (scan_memories_exact q k a _ Hk all Hall).
    set (E := entries q a (listing (a_id a) (memories s))).
    set (R := flat_map
                (fun a0 => entries q a0 (listing (a_id a0) (memories s))) rest).
    destruct (Z.of_nat (List.length (all ++ E)) >=? k) eqn:HE.
    + rewrite Z.geb_leb in HE; apply Z.leb_le in HE.
      rewrite len_ge_int.
      replace (Z.of_nat (List.length (firstn (Z.to_nat k) (all ++ E))) >=? k)
        with true
        by (symmetry; rewrite Z.geb_leb; apply Z.leb_le;
            rewrite length_firstn; lia).
      f_equal; f_equal.
      rewrite (app_assoc all E R), (firstn_app (Z.to_nat k) (all ++ E) R).
      replace (Z.to_nat k - List.length (all ++ E))%nat with 0%nat by lia.
      rewrite firstn_O, app_nil_r; reflexivity.
    + rewrite Z.geb_leb in HE; apply Z.leb_gt in HE.
      rewrite firstn_all2 by lia.
      rewrite len_ge_int.
      replace (Z.of_nat (List.length (all ++ E)) >=? k) with false
        by (symmetry; rewrite Z.geb_leb; apply Z.leb_gt; exact HE).
      rewrite (IH (all ++ E)%list s Hf HE), <- app_assoc; reflexivity.
Qed.

Lemma list_assistants_any skip limit s :
  exists r s',
    BackboardService.list_assistants skip limit s = (r, s')
    /\ memories s' = memories s /\ assistants s' = assistants s
    /\ (r = Ret (firstn limit (skipn skip (assistants s)))
        \/ ((exists e, r = Raise e) /\ faults s <> [])).
Proof.
  unfold BackboardService.list_assistants, bind, gets, ret.
  destruct (remote_call_cases s) as [(fs & Hf & ->)|[(e & fs & Hf & ->)|(Hf & ->)]];
    simpl; do 2 eexists; (split; [reflexivity|]); simpl; repeat split; auto.
  right; split; [eauto|congruence].
Qed.

Lemma slice_to_incl {A} (l : list A) k x : In x (slice_to l k) -> In x l.
Proof.
  unfold slice_to; destruct (0 <=? k); intros H.
  - rewrite <- (firstn_skipn (Z.to_nat k) l); apply in_or_app; left; exact H.
  - rewrite <- (firstn_skipn (Z.to_nat (Z.of_nat (List.length l) + k)) l).
    apply in_or_app; left; exact H.
Qed.

Lemma slice_to_bound {A} (l : list A) k :
  Z.of_nat (List.length l) <= Z.max 1 k ->
  Z.of_nat (List.length (slice_to l k)) <= Z.max 0 k.
Proof.
  unfold slice_to; intros H; destruct (0 <=? k) eqn:E; rewrite length_firstn.
  - apply Z.leb_le in E; lia.
  - apply Z.leb_gt in E; lia.
Qed.

Lemma slice_to_short {A} (l : list A) k :
  k <= 0 -> Z.of_nat (List.length l) <= 1 -> slice_to l k = [].
Proof.
  unfold slice_to; intros Hk Hl; destruct (0 <=? k) eqn:E.
  - apply Z.leb_le in E; replace k with 0 by lia; reflexivity.
  - replace (Z.to_nat (Z.of_nat (List.length l) + k)) with 0%nat by lia.
    reflexivity.
Qed.

(** *** The filters of the search, in the words of the specification *)

Lemma startswith_spec p :
  forall s,
    PyStr.startswith p s = true <-> exists post, s = (p ++ post)%string.
Proof.
  induction p as [|a p IH]; intros s.
  - destruct s; simpl; split; auto; intros _; eexists; reflexivity.
  - destruct s as [|b s]; simpl.
    + split; [discriminate|intros (post & H); discriminate].
    + split.
      * intros H; apply andb_true_iff in H; destruct H as [Hab Hr].
        apply Ascii.eqb_eq in Hab; subst b.
        apply IH in Hr; destruct Hr as (post & ->).
        exists post; reflexivity.
      * intros (post & H); injection H as -> ->.
        rewrite Ascii.eqb_refl; simpl; apply IH; exists post; reflexivity.
Qed.

Lemma contains_spec p :
  forall s,
    PyStr.contains p s = true
    <-> exists pre post, s = (pre ++ p ++ post)%string.
Proof.
  induction s as [|c s IH]; cbn [PyStr.contains].
  - rewrite orb_false_r, startswith_spec; split.
    + intros (post & H); exists EmptyString, post; exact H.
    + intros (pre & post & H); destruct pre; simpl in H;
        [exists post; exact H|discriminate].
  - split.
    + intros H; apply orb_true_iff in H; destruct H as [H|H].
      * apply startswith_spec in H; destruct H as (post & H).
        exists EmptyString, post; exact H.
      * apply IH in H; destruct H as (pre & post & ->).
        exists (String c pre), post; reflexivity.
    + intros (pre & post & H); apply orb_true_iff.
      destruct pre as [|c' pre]; simpl in H.
      * left; apply startswith_spec; exists post; exact H.
      * right; injection H as -> ->; apply IH; exists pre, post; reflexivity.
Qed.

Lemma matches_query_spec q m :
  matches_query (PyStr.lower q) m = true <-> contains_ci q (content m).
Proof. unfold matches_query, contains_ci; apply contains_spec. Qed.

Lemma scanned_spec s a : In a (scanned s) <-> searched s a.
Proof.
  unfold scanned, searched, is_not_cache_assistant; rewrite filter_In.
  rewrite negb_true_iff, String.eqb_neq; reflexivity.
Qed.

Lemma all_matches_spec q s r :
  In r (all_matches (PyStr.lower q) s) <-> hit q s r.
Proof.
  unfold all_matches, hit, found; rewrite in_flat_map; split.
  - intros (a & Ha & Hr); apply in_map_iff in Hr.
    destruct Hr as (m & <- & Hm); apply filter_In in Hm.
    exists a, m; split; [apply scanned_spec, Ha|].
    split; [apply Hm|]; split; [apply matches_query_spec, Hm|reflexivity].
  - intros (a & m & Ha & Hm & Hq & ->).
    exists a; split; [apply scanned_spec, Ha|].
    apply in_map, filter_In; split; [exact Hm|].
    apply matches_query_spec, Hq.
Qed.

End SearchFacts.


(* ------------------------------------------------------------------ *)
(** ** The model catalog: the refresh and the cache globals *)

Module CatalogFacts.
Import ModelCatalog CatalogSpec.

(** A request neither reads nor writes the cache globals. *)
Lemma http_get_frame rq c t w :
  http_get rq (with_cache c t w)
  = (fst (http_get rq w), with_cache c t (snd (http_get rq w))).
Proof.
  unfold http_get; simpl; destruct (replies w); reflexivity.
Qed.

Lemma fetch_page_frame api_key skip c t w :
  fetch_page api_key skip (with_cache c t w)
  = (fst (fetch_page api_key skip w),
     with_cache c t (snd (fetch_page api_key skip w))).
Proof.
  unfold fetch_page; rewrite http_get_frame.
  destruct (http_get _ w) as [r w1]; reflexivity.
Qed.

Lemma fetch_pages_frame api_key skips c t :
  forall w,
    fetch_pages api_key skips (with_cache c t w)
    = (fst (fetch_pages api_key skips w),
       with_cache c t (snd (fetch_pages api_key skips w))).
Proof.
  induction skips as [|skip rest IH]; intros w; simpl; [reflexivity|].
  rewrite fetch_page_frame.
  destruct (fetch_page api_key skip w) as [page w1]; simpl.
  rewrite IH.
  destruct (fetch_pages api_key rest w1) as [pages w2]; reflexivity.
Qed.

(** Nor does the whole refresh. *)
Lemma fetch_frame upper init api_key c t w :
  fetch upper init api_key (with_cache c t w)
  = (fst (fetch upper init api_key w),
     with_cache c t (snd (fetch upper init api_key w))).
Proof.
  unfold fetch; rewrite http_get_frame.
  destruct (http_get _ w) as [r w1]; simpl.
  destruct r as [[| | | | |data]|]; try reflexivity.
  destruct (Py.as_int _) as [total|]; [|reflexivity].
  destruct (total >? 100).
  - destruct (iter _) as [first|]; [|reflexivity].
    rewrite fetch_pages_frame.
    destruct (fetch_pages api_key _ w1) as [pages w2]; reflexivity.
  - destruct (iter _); reflexivity.
Qed.

Lemma store_with_cache result current_time c t w :
  store result current_time (with_cache c t w) = store result current_time w.
Proof. reflexivity. Qed.

Lemma store_store r1 t1 r2 t2 w :
  store r2 t2 (store r1 t1 w) = store r2 t2 w.
Proof. reflexivity. Qed.

(** The writes of a cache update are what [store] does. *)
Lemma run_store_writes result current_time w :
  run (store_writes result current_time) w = store result current_time w.
Proof. reflexivity. Qed.

Lemma run_same_but_cache ws :
  forall w, same_but_cache w (run ws w).
Proof.
  unfold run, same_but_cache; induction ws as [|x ws IH]; intros w; simpl.
  - repeat split.
  - destruct (IH (run_write w x)) as (H1 & H2 & H3 & H4).
    rewrite H1, H2, H3, H4; destruct x; repeat split.
Qed.

(** After a sequence of writes the cache holds the last catalog
    assigned. *)
Lemma run_last_cache ws :
  forall w,
    _models_cache (run ws w)
    = match last_cache ws with
      | Some result => Models result
      | None => _models_cache w
      end.
Proof.
  unfold run; induction ws as [|x ws IH]; intros w; simpl; [reflexivity|].
  rewrite IH; destruct x; simpl; destruct (last_cache ws); reflexivity.
Qed.

End CatalogFacts.


(* ------------------------------------------------------------------ *)
(** ** The round trip through [json], and runs with failing calls *)

Module RoundTripFacts.
Import BackboardCache CacheSpec.

Lemma decode_dumps v :
  Json.wf v = true -> decode (Json.dumps v) = Value v.
Proof.
  intros H; unfold decode; rewrite (JsonFacts.loads_dumps v H); reflexivity.
Qed.

(** What [get] decodes from the content [set] stored *)
Lemma portable_read_back value :
  portable value = true -> decode (encode value) = read_back value.
Proof.
  destruct value; try reflexivity; unfold portable; intros H;
    apply andb_true_iff in H; destruct H as [H _];
    apply (decode_dumps _ H).
Qed.

End RoundTripFacts.

Module FailureFacts.
Import BackboardService BackboardCache CacheSpec ServiceFacts HolderFacts
       DeleteFacts ClearFacts.


Lemma unfailed_of_calls {A} (c : M A) :
  fails_with_calls c -> returns_unfailed c.
Proof.
  intros H s r s' E; destruct (H s r s' E) as (pre & U & F).
  exists pre; split; [exact U|]; destruct r; auto.
Qed.

Lemma calls_ret {A} (a : A) : fails_with_calls (ret a).
Proof. intros s r s' [= <- <-]; exists []; split; reflexivity. Qed.

Lemma calls_gets {A} (f : State -> A) : fails_with_calls (gets f).
Proof. intros s r s' [= <- <-]; exists []; split; reflexivity. Qed.

Lemma calls_modify (f : State -> State) :
  (forall s, faults (f s) = faults s) -> fails_with_calls (modify f).
Proof.
  intros Hf s r s' [= <- <-]; exists []; split; [|reflexivity].
  rewrite Hf; reflexivity.
Qed.

Lemma calls_fresh_id : fails_with_calls fresh_id.
Proof. intros s r s' [= <- <-]; exists []; split; reflexivity. Qed.

Lemma calls_remote_call : fails_with_calls remote_call.
Proof.
  intros s r s' E.
  destruct (remote_call_cases s)
    as [(fs & Hf & E')|[(e & fs & Hf & E')|(Hf & E')]];
    rewrite E' in E; injection E as <- <-.
  - exists [None]; rewrite Hf; split; reflexivity.
  - exists [Some e]; rewrite Hf; split; reflexivity.
  - exists []; split; reflexivity.
Qed.

Lemma calls_bind {A B} (c : M A) (k : A -> M B) :
  fails_with_calls c -> (forall a, fails_with_calls (k a)) ->
  fails_with_calls (bind c k).
Proof.
  intros Hc Hk s r s' E; unfold bind in E.
  destruct (c s) as [[a|e] s1] eqn:Ec.
  - destruct (Hc _ _ _ Ec) as (p1 & U1 & F1).
    destruct (Hk a _ _ _ E) as (p2 & U2 & F2).
    exists (p1 ++ p2)%list; split.
    + rewrite U1, U2, app_assoc; reflexivity.
    + rewrite existsb_app, F1; exact F2.
  - injection E as <- <-; exact (Hc _ _ _ Ec).
Qed.

Lemma unfailed_bind {A B} (c : M A) (k : A -> M B) :
  returns_unfailed c -> (forall a, returns_unfailed (k a)) ->
  returns_unfailed (bind c k).
Proof.
  intros Hc Hk s r s' E; unfold bind in E.
  destruct (c s) as [[a|e] s1] eqn:Ec.
  - destruct (Hc _ _ _ Ec) as (p1 & U1 & F1).
    destruct (Hk a _ _ _ E) as (p2 & U2 & F2).
    exists (p1 ++ p2)%list; split.
    + rewrite U1, U2, app_assoc; reflexivity.
    + destruct r; [|exact I].
      rewrite existsb_app, F1; exact F2.
  - injection E as <- <-.
    destruct (Hc _ _ _ Ec) as (p1 & U1 & _); exists p1; auto.
Qed.

Ltac calls :=
  repeat first
    [ apply calls_ret | apply calls_gets | apply calls_fresh_id
    | apply calls_remote_call
    | apply calls_modify; intros ?; reflexivity
    | apply calls_bind; [|intros ?] ].




Lemma calls_delete_memory i aid : fails_with_calls (delete_memory i aid).
Proof. unfold delete_memory; calls. Qed.






Lemma unfailed_int_sub a v : returns_unfailed (int_sub a v).
Proof.
  unfold int_sub; destruct (Py.as_int v); intros s r s' [= <- <-];
    exists []; split; auto.
Qed.

Lemma unfailed_int_ge a v : returns_unfailed (int_ge a v).
Proof.
  unfold int_ge; destruct (Py.as_int v); intros s r s' [= <- <-];
    exists []; split; auto.
Qed.

Lemma unfailed_clear_loop aid t ms :
  forall n, returns_unfailed (clear_loop aid t ms n).
Proof.
  induction ms as [|m ms IH]; intros n; cbn [clear_loop].
  - apply unfailed_of_calls, calls_ret.
  - destruct (holds_some_key m); [|apply IH].
    apply unfailed_bind; [apply unfailed_int_sub|intros age].
    apply unfailed_bind; [apply unfailed_int_ge|intros [|]]; [|apply IH].
    destruct (Py.opt_str_truthy (id m)); [|apply IH].
    apply unfailed_bind;
      [apply unfailed_of_calls, calls_delete_memory|intros _; apply IH].
Qed.





(** A run without pending failures leaves none behind. *)
Lemma unfailed_quiet {A} (c : M A) s r s' :
  returns_unfailed c -> c s = (r, s') -> faults s = [] -> faults s' = [].
Proof.
  intros H E Hf; destruct (H _ _ _ E) as (pre & U & _).
  rewrite Hf in U; symmetry in U; apply app_eq_nil in U; apply U.
Qed.

(** [clear_expired] for a resolved cache when no call fails, whatever
    the metadata: it removes ids of expired entries only. *)
Lemma clear_settled s aid :
  faults s = [] ->
  _get_cache_assistant_id s = (Ret aid, s) ->
  exists n s' D,
    clear_expired s = (Ret n, s')
    /\ same_but_memories s s' /\ faults s' = []
    /\ memories s' = filter (kept aid D) (memories s)
    /\ incl D (targets (expired_entry (now s)) (listing aid (memories s))).
Proof.
  intros Hf Hr.
  unfold clear_expired, try_except, clear_expired_try, bind; rewrite Hr.
  rewrite (list_memories_ok aid s Hf); unfold int_time, gets.
  change (map to_Memory (filter (owned_by aid) (memories s)))
    with (listing aid (memories s)).
  destruct (clear_loop_any aid (now s) (listing aid (memories s)) 0 s)
    as (r & s' & D & E & Hs & Hi & Hm' & _).
  pose proof (unfailed_quiet _ _ _ _
                (unfailed_clear_loop aid (now s)
                   (listing aid (memories s)) 0) E Hf) as Hf'.
  rewrite E; destruct r as [n|e]; unfold ret;
    [exists n|exists 0]; exists s', D; repeat split; auto; apply Hs.
Qed.

End FailureFacts.


(* ================================================================== *)
(** * The claims about the cache *)

Module CacheClaims.
Import BackboardService BackboardCache CacheSpec ServiceFacts HolderFacts
       DeleteFacts ClearFacts GetFacts RoundTripFacts FailureFacts.

(** C7.  [delete(key)] is idempotent.  In a run without remote failure:
    when the holder container has no entry whose metadata [cache_key]
    equals [key], [delete] returns [True] and leaves the stored memories as
    they are (the state is the one the holder look-up alone produces); and
    a second [delete(key)] right after a first one returns [True] and
    changes nothing. *)
Theorem delete_idempotent (key : string) (s : State) :
  faults s = [] ->
  (forall aid s1,
      _get_cache_assistant_id s = (Ret aid, s1) ->
      existsb (entry_for aid key) (memories s) = false ->
      delete key s = (Ret true, s1) /\ memories s1 = memories s)
  /\ (exists s1,
        delete key s = (Ret true, s1) /\ delete key s1 = (Ret true, s1)).
Proof.
  intros Hf; split.
  - intros aid s1 Hr Hno.
    destruct (holder_frame _ _ _ Hr) as [Hm _].
    rewrite (delete_ok key s aid s1 Hf Hr).
    rewrite (targets_none (holds_key key) aid (memories s) Hno), kept_nil.
    rewrite <- Hm, set_memories_same; auto.
  - destruct (holder_ok s Hf) as (aid & s1 & Hr & Hm & Hn & Hf1 & Hset).
    rewrite (delete_ok key s aid s1 Hf Hr).
    eexists; split; [reflexivity|].
    set (L := filter (kept aid (targets (holds_key key)
                                        (listing aid (memories s))))
                     (memories s)).
    assert (Hr' : _get_cache_assistant_id (set_memories L s1)
                  = (Ret aid, set_memories L s1))
      by (apply Hset; auto).
    rewrite (delete_ok key (set_memories L s1) aid (set_memories L s1));
      auto.
    f_equal; simpl memories.
    pose proof (kept_fixpoint (holds_key key) aid (memories s)) as Hfix.
    simpl in Hfix; fold L in Hfix; rewrite Hfix.
    destruct s1; reflexivity.
Qed.

Lemma delete_idempotent_witness :
  faults Sample.st0 = []
  /\ (exists s1, delete "zz" Sample.st0 = (Ret true, s1)
                 /\ memories s1 = memories Sample.st0)
  /\ (exists s1, delete "a" Sample.st0 = (Ret true, s1)
                 /\ delete "a" s1 = (Ret true, s1)).
Proof.
  split; [reflexivity|]; split.
  - eexists; apply (proj1 (delete_idempotent "zz" Sample.st0 eq_refl)
                      "asst-cache"); reflexivity.
  - exact (proj2 (delete_idempotent "a" Sample.st0 eq_refl)).
Defined.

(** C10.  Frame of [delete] and [clear_expired].  Over a platform whose
    records have distinct ids, and whatever remote calls fail: the memories
    after [delete(key)] are the memories before with some records dropped,
    each dropped record sits in the holder container and its metadata
    [cache_key] equals [key]; the same holds for [clear_expired] with
    records whose metadata carries a truthy [cache_key]; so a record
    without metadata stays in place under both. *)
Theorem delete_clear_frame (key : string) (s : State) :
  distinct_ids (memories s) = true ->
  (forall r s', delete key s = (r, s') ->
     (exists keep,
         memories s' = filter keep (memories s)
         /\ forall x, In x (memories s) -> keep x = false ->
               self_cache_assistant_id s' = Some (rm_owner x)
               /\ holds_key key (to_Memory x) = true)
     /\ forall x, In x (memories s) -> rm_metadata x = None ->
           In x (memories s'))
  /\ (forall r s', clear_expired s = (r, s') ->
       (exists keep,
           memories s' = filter keep (memories s)
           /\ forall x, In x (memories s) -> keep x = false ->
                 self_cache_assistant_id s' = Some (rm_owner x)
                 /\ holds_some_key (to_Memory x) = true)
       /\ forall x, In x (memories s) -> rm_metadata x = None ->
             In x (memories s')).
Proof.
  intros Hd; split; intros r s' E.
  - destruct (delete_any key s) as (b & s2 & aid & D & E' & Hm & Hi & Hs & _).
    rewrite E in E'; injection E' as -> ->.
    assert (Hdrop : forall x, In x (memories s) -> kept aid D x = false ->
              self_cache_assistant_id s2 = Some (rm_owner x)
              /\ holds_key key (to_Memory x) = true).
    { intros x Hx Hk.
      destruct (dropped_is_target _ _ _ _ _ Hd Hx Hi Hk) as (-> & HP & Hne).
      split; auto. }
    split; [exists (kept aid D); auto|].
    intros x Hx Hnone; rewrite Hm; apply filter_In; split; auto.
    destruct (kept aid D x) eqn:Hk; auto.
    destruct (Hdrop x Hx Hk) as [_ HP].
    unfold holds_key in HP; simpl in HP; rewrite Hnone in HP; discriminate.
  - destruct (clear_any s) as (n & s2 & aid & D & E' & Hm & Hi & Hs).
    rewrite E in E'; injection E' as -> ->.
    assert (Hdrop : forall x, In x (memories s) -> kept aid D x = false ->
              self_cache_assistant_id s2 = Some (rm_owner x)
              /\ holds_some_key (to_Memory x) = true).
    { intros x Hx Hk.
      destruct (dropped_is_target _ _ _ _ _ Hd Hx Hi Hk) as (-> & HP & Hne).
      split; auto.
      unfold expired_entry in HP; apply andb_true_iff in HP; apply HP. }
    split; [exists (kept aid D); auto|].
    intros x Hx Hnone; rewrite Hm; apply filter_In; split; auto.
    destruct (kept aid D x) eqn:Hk; auto.
    destruct (Hdrop x Hx Hk) as [_ HP].
    unfold holds_some_key in HP; simpl in HP; rewrite Hnone in HP; discriminate.
Qed.

Lemma delete_clear_frame_witness :
  distinct_ids (memories Sample.st0) = true
  /\ In Sample.note (memories (snd (delete "a" Sample.st0)))
  /\ In Sample.note (memories (snd (clear_expired Sample.st0))).
Proof.
  split; [reflexivity|].
  destruct (delete_clear_frame "a" Sample.st0 eq_refl) as [Hdel Hclr].
  split.
  - destruct (delete "a" Sample.st0) as [r s'] eqn:E.
    apply (proj2 (Hdel r s' eq_refl)); [|reflexivity].
    simpl; auto.
  - destruct (clear_expired Sample.st0) as [r s'] eqn:E.
    apply (proj2 (Hclr r s' eq_refl)); [|reflexivity].
    simpl; auto.
Defined.

(** C3, as the code has it.  In a run without remote failure, over
    records with distinct non-empty ids whose timing fields are numbers,
    [clear_expired] deletes exactly the records of the holder whose
    metadata carries a truthy [cache_key] and whose age [now - cache_time]
    is at least their own [ttl]; it returns their number and leaves every
    other record in place. *)
Theorem clear_expired_exact (s : State) (aid : string) (s1 : State) :
  faults s = [] ->
  _get_cache_assistant_id s = (Ret aid, s1) ->
  distinct_ids (memories s) = true ->
  ids_present s = true ->
  holder_well_timed aid (memories s) = true ->
  let gone x := owned_by aid x && expired_entry (now s) (to_Memory x) in
  clear_expired s
  = (Ret (Z.of_nat (List.length (filter gone (memories s)))),
     set_memories (filter (fun x => negb (gone x)) (memories s)) s1).
Proof.
  intros Hf Hr Hd Hp Hw gone.
  rewrite (clear_ok s aid s1 Hf Hr Hw).
  rewrite (targets_length (expired_entry (now s)) aid (memories s) Hp).
  rewrite (kept_exact (expired_entry (now s)) aid (memories s) Hd Hp).
  reflexivity.
Qed.

Lemma clear_expired_exact_witness :
  clear_expired Sample.st0
  = (Ret 1,
     set_memories
       [Sample.entry "asst-cache" "m2" "b" "[1, 2]" 1000 3600;
        Sample.note;
        mkRemoteMemory "asst-1" (Some "m1") "user memory" None]
       (set_self (Some "asst-cache") Sample.st0)).
Proof.
  exact (clear_expired_exact Sample.st0 "asst-cache"
           (set_self (Some "asst-cache") Sample.st0)
           eq_refl eq_refl eq_refl eq_refl eq_refl).
Defined.

(** C3 as the specification words it fails: the entry that
    [set(key, 1, ttl=1)] stores under the empty key at time 1000 is five
    seconds old at time 1005, yet [clear_expired] returns 0 and the entry
    stays. *)
Lemma clear_expired_misses_empty_key :
  set "" (PInt 1) (Some 1)
      (mkState (Some "asst-cache") [Sample.holder] [] 6 [] 1000)
  = (Ret true, set_now 1000 Sample.st_empty_key)
  /\ In Sample.empty_key_entry (memories Sample.st_empty_key)
  /\ entry_for "asst-cache" "" Sample.empty_key_entry = true
  /\ aged CACHE_TTL (now Sample.st_empty_key)
           (to_Memory Sample.empty_key_entry) = true
  /\ clear_expired Sample.st_empty_key = (Ret 0, Sample.st_empty_key).
Proof. repeat split; simpl; auto. Qed.









(** C1, as the code has it.  In a run without remote failure over
    records that carry ids, for every key, every ttl and every value
    within the limits of [json] (dicts with distinct keys, no integer of
    more than 4300 digits, no nesting beyond 500 levels; for a string, a
    text with no such run of digits and no more brackets): after
    [set(key, value, ttl)] at time [now], while [t' - now] is less than the
    stored ttl, [get(key)] returns a value equal to [value] when [value]
    is not a string; a string is stored raw, and [get] returns what
    [json.loads] makes of it, the string itself only when it is no JSON
    text. *)
Theorem set_then_get
    (key : string) (value : pyval) (ttl ttl' : option Z) (s : State) (t' : Z) :
  faults s = [] ->
  ids_present s = true ->
  portable value = true ->
  t' - now s < Py.int_or ttl CACHE_TTL ->
  exists s1,
    set key value ttl s = (Ret true, s1)
    /\ get key ttl' (set_now t' s1)
       = (Ret (match value with
               | PStr text => decode text
               | _ => Value value
               end),
          set_now t' s1).
Proof.
  intros Hf Hp Hv Ht.
  destruct (holder_ok s Hf) as (aid & s0 & Hr & _).
  exists (after_set aid key value ttl s s0).
  split; [apply set_ok; auto|].
  rewrite (get_after_set key value ttl ttl' s aid s0 t' Hf Hr Hp).
  replace (t' - now s <? Py.int_or ttl CACHE_TTL) with true
    by (symmetry; apply Z.ltb_lt; exact Ht).
  rewrite (portable_read_back value Hv); reflexivity.
Qed.

Lemma set_then_get_witness :
  exists s1,
    set "models_count_data" (PDict [("count", PInt 42); ("providers", PInt 5)])
        (Some 3600) Sample.st0 = (Ret true, s1)
    /\ get "models_count_data" None (set_now 2001 s1)
       = (Ret (Value (PDict [("count", PInt 42); ("providers", PInt 5)])),
          set_now 2001 s1).
Proof.
  exact (set_then_get "models_count_data"
           (PDict [("count", PInt 42); ("providers", PInt 5)])
           (Some 3600) None Sample.st0 2001
           eq_refl eq_refl eq_refl eq_refl).
Defined.

(** C1 as the specification words it fails on a string that is JSON
    text: after [set(k, '123')] the immediate [get(k)] returns the integer
    123, not the string. *)
Lemma set_then_get_string_differs :
  exists s1,
    set "k" (PStr "123") (Some 3600) Sample.empty = (Ret true, s1)
    /\ get "k" None s1 = (Ret (Value (PInt 123)), s1)
    /\ Value (PInt 123) <> Value (PStr "123").
Proof.
  eexists; split; [reflexivity|]; split; [reflexivity|discriminate].
Qed.

End CacheClaims.


(* ================================================================== *)
(** * The claims about messages, routes and the model catalog *)

Module MessageClaims.
Import MessageModel RouteSpec.

Lemma lookup_coerce_role data :
  Py.dict_lookup "role" (coerce_role data)
  = option_map (fun v => PStr (PyStr.str v)) (Py.dict_lookup "role" data).
Proof.
  induction data as [|[k v] data IH]; simpl; auto.
  destruct (k =? "role")%string eqn:E; simpl; rewrite E; auto.
Qed.

Lemma lookup_coerce_other k data :
  (k =? "role")%string = false ->
  Py.dict_lookup k (coerce_role data) = Py.dict_lookup k data.
Proof.
  intros Hk; induction data as [|[k' v] data IH]; simpl; auto.
  destruct (k' =? "role")%string eqn:E; simpl.
  - apply String.eqb_eq in E; subst k'.
    rewrite String.eqb_sym, Hk; reflexivity.
  - destruct (k' =? k)%string; auto.
Qed.

(** C5.  For every message payload the role comes out as a string and no
    role value is refused.  The message [_dict_to_model] constructs has the
    text [str] gives of the payload's [role], ["user"] when the payload has
    none and ["123"] for the integer 123.  The validating constructor gives
    the same role whenever it returns, and it returns for every role value:
    it raises only over the content or the timestamp. *)
Theorem message_role_normalized
    (validate_datetime : pyval -> option pyval)
    (describe : string -> pydict -> string) (data : pydict) :
  role (construct data) = expected_role data
  /\ (Py.dict_lookup "role" data = None -> role (construct data) = "user")
  /\ (Py.dict_lookup "role" data = Some (PInt 123) ->
      role (construct data) = "123")
  /\ (forall m, init validate_datetime describe data = Ret m ->
                role m = expected_role data)
  /\ ((exists m, init validate_datetime describe data = Ret m)
      \/ (exists v, Py.dict_lookup "content" data = Some v
                    /\ forall s, v <> PStr s)
      \/ (exists v, Py.dict_lookup "timestamp" data = Some v
                    /\ validate_datetime v = None)).
Proof.
  assert (Hc : role (construct data) = expected_role data).
  { unfold construct, expected_role, Py.dict_get_default; simpl.
    destruct (Py.dict_lookup "role" data); reflexivity. }
  assert (Hrole : match Py.dict_lookup "role" (coerce_role data) with
                  | Some v => normalize_role v
                  | None => "user"
                  end = expected_role data).
  { rewrite lookup_coerce_role; unfold expected_role.
    destruct (Py.dict_lookup "role" data); reflexivity. }
  split; [exact Hc|].
  split; [intros H; rewrite Hc; unfold expected_role; rewrite H; reflexivity|].
  split; [intros H; rewrite Hc; unfold expected_role; rewrite H; reflexivity|].
  unfold init; rewrite Hrole.
  rewrite !lookup_coerce_other by reflexivity.
  assert (HC : forall o : option string,
            match Py.dict_lookup "content" data with
            | Some (PStr s) => Some s
            | Some _ => None
            | None => Some EmptyString
            end = o ->
            o = None ->
            exists v, Py.dict_lookup "content" data = Some v
                      /\ forall s, v <> PStr s).
  { intros o Ho ->; destruct (Py.dict_lookup "content" data) as [v|];
      [|discriminate].
    exists v; split; [reflexivity|]; intros s ->; discriminate. }
  assert (HT : forall o : option pyval,
            match Py.dict_lookup "timestamp" data with
            | Some PNone => Some PNone
            | Some v => validate_datetime v
            | None => Some PNone
            end = o ->
            o = None ->
            exists v, Py.dict_lookup "timestamp" data = Some v
                      /\ validate_datetime v = None).
  { intros o Ho ->; destruct (Py.dict_lookup "timestamp" data) as [v|];
      [|discriminate].
    exists v; split; [reflexivity|]; destruct v; auto; discriminate. }
  destruct (match Py.dict_lookup "content" data with
            | Some (PStr s) => Some s
            | Some _ => None
            | None => Some EmptyString
            end) as [c|] eqn:EC.
  - destruct (match Py.dict_lookup "timestamp" data with
              | Some PNone => Some PNone
              | Some v => validate_datetime v
              | None => Some PNone
              end) as [t|] eqn:ET.
    + split; [intros m [= <-]; reflexivity|left; eexists; reflexivity].
    + split; [intros m [=]|right; right; apply (HT None); auto].
  - split; [intros m [=]|right; left; apply (HC None); auto].
Qed.

End MessageClaims.

Module RouteClaims.
Import Routes RouteSpec CacheSpec ServiceFacts SearchFacts.

(** Without an API key in the session every route answers 401. *)
Lemma missing_key_is_401 describe data memory_id assistant_id s :
  create_assistant describe None data s
  = (Ret (error_response 401 "API key not found in session"), s)
  /\ get_memory None memory_id assistant_id s
     = (Ret (error_response 401 "API key not found in session"), s).
Proof. split; reflexivity. Qed.

(** A memory request without [assistant_id] answers 400. *)
Lemma missing_assistant_id_is_400 key memory_id s :
  Py.str_truthy key = true ->
  get_memory (Some key) memory_id None s
  = (Ret (error_response 400 "assistant_id is required"), s).
Proof.
  intros Hk; unfold get_memory, handle, try_except, bind, get_service; simpl.
  rewrite Hk; reflexivity.
Qed.

(** A failure that is no [ValueError] answers 500 with its message. *)
Lemma other_failure_is_500 (c : M Response) e s s' :
  c s = (Raise e, s') -> is_ValueError e = false ->
  handle c s = (Ret (error_response 500 (str_exn e)), s').
Proof.
  intros Hc He; unfold handle, try_except; rewrite Hc, He; reflexivity.
Qed.

(** C6 at the input where the code departs from it.  A request to create
    an assistant that carries an API key and a JSON object without [name]
    is answered with status 401 and the validation message, not with 400:
    pydantic's [ValidationError] is a [ValueError], and the route maps
    every [ValueError] to 401. *)
Theorem create_assistant_missing_name
    (describe : string -> pydict -> string)
    (key : string) (data : pydict) (s : State) :
  Py.str_truthy key = true ->
  Py.dict_lookup "name" data = None ->
  create_assistant describe (Some key) (PDict data) s
  = (Ret (error_response 401 (describe "AssistantCreate" data)), s).
Proof.
  intros Hk Hn.
  unfold create_assistant, handle, try_except, bind, get_service,
    AssistantCreate_init; simpl.
  rewrite Hk, Hn; reflexivity.
Qed.

Lemma create_assistant_missing_name_witness :
  create_assistant (fun model _ => model) (Some "key") (PDict []) Sample.empty
  = (Ret (mkResponse 401 (PDict [("error", PStr "AssistantCreate")])),
     Sample.empty).
Proof.
  exact (create_assistant_missing_name (fun model _ => model) "key" []
           Sample.empty eq_refl eq_refl).
Defined.

Lemma search_memory_without_assistant validate describe key data s :
  Py.str_truthy key = true ->
  Py.truthy (Py.dict_get "assistant_id" data) = false ->
  search_memory validate describe (Some key) data s
  = handle (search_all_assistants data) s.
Proof.
  intros Hkey Haid.
  unfold search_memory, handle, try_except, bind, get_service.
  change (Py.opt_str_truthy (Some key)) with (Py.str_truthy key).
  rewrite Hkey, Haid; reflexivity.
Qed.

Lemma search_all_unfold data q k s :
  Py.dict_get_default "query" (PStr "") data = PStr q ->
  Py.dict_get_default "limit" (PInt 50) data = PInt k ->
  search_all_assistants data s
  = match BackboardService.list_assistants 0 (Z.to_nat 10000) s with
    | (Ret l, s1) =>
        match scan_assistants (PyStr.lower q) (PInt k)
                (filter is_not_cache_assistant l) [] s1 with
        | (Ret all, s2) =>
            (Ret (mkResponse 200 (PDict [("data", PList (slice_to all k))])),
             s2)
        | (Raise e, s2) => (Raise e, s2)
        end
    | (Raise e, s1) => (Raise e, s1)
    end.
Proof.
  intros Hq Hk; unfold search_all_assistants, bind, query_of.
  rewrite Hq, Hk.
  destruct (BackboardService.list_assistants 0 (Z.to_nat 10000) s)
    as [[l|e] s1]; [|reflexivity].
  unfold of_sum at 1, ret at 1.
  destruct (scan_assistants (PyStr.lower q) (PInt k)
              (filter is_not_cache_assistant l) [] s1) as [[all|e] s2];
    reflexivity.
Qed.

(** The aggregate search when no remote call fails *)
Lemma search_all_ok data q k s :
  Py.dict_get_default "query" (PStr "") data = PStr q ->
  Py.dict_get_default "limit" (PInt 50) data = PInt k ->
  faults s = [] ->
  exists s',
    search_all_assistants data s
    = (Ret (mkResponse 200
              (PDict [("data",
                       PList (firstn (Z.to_nat k)
                                (all_matches (PyStr.lower q) s)))])),
       s').
Proof.
  intros Hq Hk Hf.
  rewrite (search_all_unfold data q k s Hq Hk).
  rewrite (list_assistants_ok 0 (Z.to_nat 10000) s Hf).
  change (skipn 0 (assistants s)) with (assistants s).
  fold (scanned s).
  destruct (Z_lt_le_dec k 1) as [Hlt|Hge].
  - destruct (scan_assistants_sound (PyStr.lower q) (PInt k) (scanned s) [] s)
      as (all' & s2 & l & E & _).
    pose proof (scan_assistants_bound (PyStr.lower q) k (scanned s) [] s
                  all' s2 (or_intror eq_refl) E) as Hb.
    rewrite E, slice_to_short by lia.
    replace (Z.to_nat k) with 0%nat by lia.
    eexists; reflexivity.
  - rewrite (scan_assistants_exact (PyStr.lower q) k (scanned s) Hge [] s Hf)
      by (simpl; lia).
    unfold slice_to; replace (0 <=? k) with true
      by (symmetry; apply Z.leb_le; lia).
    rewrite firstn_firstn, Nat.min_id.
    eexists; reflexivity.
Qed.

(** The aggregate search under any failure schedule *)
Lemma search_all_any data q k s :
  Py.dict_get_default "query" (PStr "") data = PStr q ->
  Py.dict_get_default "limit" (PInt 50) data = PInt k ->
  exists r s',
    search_all_assistants data s = (r, s')
    /\ ((exists e, r = Raise e /\ faults s <> [])
        \/ exists results,
             r = Ret (mkResponse 200 (PDict [("data", PList results)]))
             /\ Z.of_nat (List.length results) <= Z.max 0 k
             /\ forall x, In x results ->
                  exists a m,
                    In a (scanned s) /\ In m (found (PyStr.lower q) s a)
                    /\ x = memory_dict a m).
Proof.
  intros Hq Hk.
  rewrite (search_all_unfold data q k s Hq Hk).
  destruct (list_assistants_any 0 (Z.to_nat 10000) s)
    as (r & s1 & -> & Hm & Ha & [->|[[e ->] Hne]]).
  2:{ do 2 eexists; split; [reflexivity|]; left; eauto. }
  change (skipn 0 (assistants s)) with (assistants s).
  fold (scanned s).
  destruct (scan_assistants_sound (PyStr.lower q) (PInt k) (scanned s) [] s1)
    as (all' & s2 & l & E & Hm2 & Hall & Hl).
  pose proof (scan_assistants_bound (PyStr.lower q) k (scanned s) [] s1
                all' s2 (or_intror eq_refl) E) as Hb.
  rewrite E; do 2 eexists; split; [reflexivity|]; right.
  eexists; split; [reflexivity|]; split.
  - apply slice_to_bound, Hb.
  - intros x Hx; apply slice_to_incl in Hx.
    rewrite Hall in Hx; simpl in Hx.
    destruct (Hl x Hx) as (a & Hin & Hent).
    unfold entries in Hent; apply in_map_iff in Hent.
    destruct Hent as (m & <- & Hmem); rewrite Hm in Hmem.
    exists a, m; repeat split; auto.
Qed.

(** C9, as the code has it.  A search request that carries an API key
    and a body whose [assistant_id] is missing or empty, with a string
    query and an integer limit (50 when none is given), is answered
    whatever remote calls fail.  An answer with status 200 holds at most
    [limit] results (none for a limit below 1), each of them a memory of
    an assistant that is on the page of the first 10000 of the listing and
    is not named [bb_browser_cache], with a content that contains the
    query case-insensitively.  When no remote call fails the answer is
    the first [limit] of exactly these memories, in listing order. *)
Theorem aggregate_search
    (validate : pydict -> option MemorySearch)
    (describe : string -> pydict -> string)
    (key : string) (data : pydict) (q : string) (k : Z) (s : State) :
  Py.str_truthy key = true ->
  Py.truthy (Py.dict_get "assistant_id" data) = false ->
  Py.dict_get_default "query" (PStr "") data = PStr q ->
  Py.dict_get_default "limit" (PInt 50) data = PInt k ->
  exists resp s',
    search_memory validate describe (Some key) data s = (Ret resp, s')
    /\ (status resp = 200 ->
        exists results,
          body resp = PDict [("data", PList results)]
          /\ Z.of_nat (List.length results) <= Z.max 0 k
          /\ forall r, In r results -> hit q s r)
    /\ (faults s = [] ->
        exists results,
          resp = mkResponse 200 (PDict [("data", PList results)])
          /\ results
             = firstn (Z.to_nat k) (all_matches (PyStr.lower q) s)
          /\ forall r,
               In r (all_matches (PyStr.lower q) s) <-> hit q s r).
Proof.
  intros Hkey Haid Hq Hk.
  rewrite (search_memory_without_assistant validate describe key data s
             Hkey Haid).
  unfold handle, try_except.
  destruct (search_all_any data q k s Hq Hk)
    as (r & s' & E & [(e & -> & Hne)|(results & -> & Hlen & Hres)]).
  - rewrite E; destruct (is_ValueError e); unfold ret; do 2 eexists;
      (split; [reflexivity|]); (split; [discriminate|contradiction]).
  - rewrite E; do 2 eexists; split; [reflexivity|]; split.
    + intros _; exists results; split; [reflexivity|]; split; [exact Hlen|].
      intros x Hx; destruct (Hres x Hx) as (a & m & Ha & Hm & ->).
      apply all_matches_spec; unfold all_matches; apply in_flat_map.
      exists a; split; [exact Ha|apply in_map, Hm].
    + intros Hf; destruct (search_all_ok data q k s Hq Hk Hf) as (s3 & E3).
      rewrite E in E3; injection E3 as E3 _.
      eexists; split; [rewrite E3; reflexivity|].
      split; [reflexivity|intros x; apply all_matches_spec].
Qed.

Lemma aggregate_search_witness :
  exists s',
    search_memory (fun _ => None) (fun model _ => model) (Some "key")
                  [("query", PStr "MEMORY")] Sample.library
    = (Ret (mkResponse 200
              (PDict [("data",
                       PList [memory_dict Sample.helper
                                (mkMemory (Some "m1") "User Memory" None
                                          None);
                              memory_dict Sample.writer
                                (mkMemory (Some "m4") "a memory palace"
                                          None None)])])),
       s').
Proof.
  destruct (aggregate_search (fun _ => None) (fun model _ => model) "key"
              [("query", PStr "MEMORY")] "MEMORY" 50 Sample.library
              eq_refl eq_refl eq_refl eq_refl)
    as (resp & s' & E & _ & Hok).
  destruct (Hok eq_refl) as (results & -> & -> & _).
  exists s'; rewrite E; reflexivity.
Defined.

(** C9 as the specification words it fails on an account with more than
    10000 assistants: the assistant that comes last in the listing is not
    the cache holder and has a memory that contains the query, yet the
    search, which asks for one page of 10000, returns nothing. *)
Lemma aggregate_search_skips_late_assistant :
  In Sample.late (assistants Sample.overfull)
  /\ a_name Sample.late <> "bb_browser_cache"
  /\ listing (a_id Sample.late) (memories Sample.overfull)
     = [BackboardService.to_Memory Sample.needle]
  /\ contains_ci "needle"
                 (content (BackboardService.to_Memory Sample.needle))
  /\ search_memory (fun _ => None) (fun model _ => model) (Some "key")
                   [("query", PStr "needle")] Sample.overfull
     = (Ret (mkResponse 200 (PDict [("data", PList [])])),
        Sample.overfull).
Proof.
  split; [|split; [|split; [|split]]].
  - unfold Sample.overfull; cbn [assistants].
    apply in_or_app; right; left; reflexivity.
  - discriminate.
  - reflexivity.
  - exists EmptyString, EmptyString; reflexivity.
  - vm_compute; reflexivity.
Qed.

End RouteClaims.


(* ------------------------------------------------------------------ *)
(** ** The model catalog cache *)

Module CatalogClaims.
Import ModelCatalog CatalogSpec CatalogFacts.

(** C8.  [list_models] serves the catalog from the process-local cache:
    a call made while the cache holds a non-empty list stored less than
    3600 seconds before returns that list and leaves the world as it is,
    so that no request is issued.  A call that finds no fresh catalog and
    whose refresh succeeds returns the catalog read from the platform and
    overwrites both globals with it and the time of the call, whatever the
    cache held before.  A later store replaces an earlier one, and however
    the assignments of two concurrent stores interleave, nothing but the
    two globals changes and each ends up with the value of one of the two
    stores, the cache with the one assigned last. *)
Theorem list_models_cache
    (upper : string -> string)
    (init : pyval -> pyval -> pyval -> list string -> string -> pyval ->
            pyval -> option ModelInfo)
    (api_key : string) :
  (forall w l,
      _models_cache w = Models l -> l <> [] ->
      (clock w - _models_cache_time w < _MODELS_CACHE_TTL)%Q ->
      list_models upper init api_key w = (Models l, w))
  /\ (forall w result w',
         cache_is_fresh (clock w) w = false ->
         fetch upper init api_key w = (Some result, w') ->
         list_models upper init api_key w
         = (Models result, store result (clock w) w')
         /\ forall c t,
             cache_is_fresh (clock w) (with_cache c t w) = false ->
             list_models upper init api_key (with_cache c t w)
             = (Models result, store result (clock w) w'))
  /\ (forall r1 t1 r2 t2 w, store r2 t2 (store r1 t1 w) = store r2 t2 w)
  /\ (forall r1 t1 r2 t2 ws w,
         interleaving (store_writes r1 t1) (store_writes r2 t2) ws ->
         same_but_cache w (run ws w)
         /\ (exists r, last_cache ws = Some r /\ (r = r1 \/ r = r2)
                       /\ _models_cache (run ws w) = Models r)
         /\ (_models_cache_time (run ws w) = t1
             \/ _models_cache_time (run ws w) = t2)).
Proof.
  split; [|split; [|split]].
  - intros w l Hc Hl Hage.
    unfold list_models, cache_is_fresh; rewrite Hc.
    destruct l as [|m l]; [contradiction|]; simpl.
    destruct (Qlt_le_dec _ _) as [_|Hle]; [reflexivity|].
    exfalso; apply (Qlt_not_le _ _ Hage), Hle.
  - intros w result w' Hmiss Hfetch; split.
    + unfold list_models; rewrite Hmiss, Hfetch; reflexivity.
    + intros c t Hmiss'.
      unfold list_models.
      change (clock (with_cache c t w)) with (clock w).
      rewrite Hmiss', fetch_frame, Hfetch; simpl.
      rewrite store_with_cache; reflexivity.
  - intros; apply store_store.
  - intros r1 t1 r2 t2 ws w H; split; [apply run_same_but_cache|].
    rewrite run_last_cache.
    unfold store_writes in H.
    repeat match goal with
           | I : interleaving _ _ _ |- _ => inversion I; subst; clear I
           end;
      (split; [eexists; split; [reflexivity|]; split; [|reflexivity]; auto
              |simpl; auto]).
Qed.

Lemma list_models_cache_witness :
  list_models Sample.upper Sample.ModelInfo_init "key" Sample.warm
  = (Models [Sample.gpt], Sample.warm)
  /\ sent (snd (list_models Sample.upper Sample.ModelInfo_init "key"
                  Sample.warm)) = [].
Proof.
  assert (H : list_models Sample.upper Sample.ModelInfo_init "key" Sample.warm
              = (Models [Sample.gpt], Sample.warm)).
  { apply (proj1 (list_models_cache Sample.upper Sample.ModelInfo_init "key")
             Sample.warm [Sample.gpt]);
      [reflexivity|discriminate|reflexivity]. }
  split; [exact H|rewrite H; reflexivity].
Defined.

(** A process that was answered an empty catalog five seconds ago asks the
    platform again. *)
Lemma list_models_refetches_empty_catalog :
  _models_cache Sample.listed_nothing = Models []
  /\ (clock Sample.listed_nothing - _models_cache_time Sample.listed_nothing
      < _MODELS_CACHE_TTL)%Q
  /\ sent (snd (list_models Sample.upper Sample.ModelInfo_init "key"
                  Sample.listed_nothing))
     = (sent Sample.listed_nothing
        ++ [mkRequest MODELS_URL "key" None])%list
  /\ fst (list_models Sample.upper Sample.ModelInfo_init "key"
            Sample.listed_nothing)
     = Models [Sample.gpt].
Proof. repeat split. Qed.

End CatalogClaims.


(* ------------------------------------------------------------------ *)
(** ** More about the cache: the holder, misses, overwriting, independence
       of keys *)

Module CacheMoreFacts.
Import BackboardService BackboardCache CacheSpec CacheLaws ServiceFacts
       HolderFacts DeleteFacts ClearFacts GetFacts.

Lemma unused_fresh count s x k :
  next_ids_unused count s = true -> In x (memories s) ->
  (next_id s <= k < next_id s + count)%nat ->
  has_id (mint k) x = false.
Proof.
  unfold next_ids_unused; rewrite forallb_forall; intros H Hx Hk.
  specialize (H x Hx); apply negb_true_iff in H.
  destruct (has_id (mint k) x) eqn:E; [|reflexivity].
  assert (existsb (fun k => has_id (mint k) x) (seq (next_id s) count)
          = true)
    by (apply existsb_exists; exists k; split; [apply in_seq; lia|exact E]).
  congruence.
Qed.

Lemma existsb_filter_false {A} (p f : A -> bool) l :
  existsb p l = false -> existsb p (filter f l) = false.
Proof.
  intros H; destruct (existsb p (filter f l)) eqn:E; [|reflexivity].
  apply existsb_exists in E; destruct E as (x & Hx & Hp).
  apply filter_In in Hx; destruct Hx as [Hx _].
  assert (existsb p l = true) by (apply existsb_exists; eauto).
  congruence.
Qed.

Lemma filter_none {A} (p : A -> bool) l :
  existsb p l = false -> filter p l = [].
Proof.
  induction l as [|x l IH]; simpl; [reflexivity|].
  intros H; apply orb_false_iff in H; destruct H as [-> H]; auto.
Qed.

(** *** The holder *)

Lemma holder_known s aid :
  self_cache_assistant_id s = Some aid -> Py.str_truthy aid = true ->
  _get_cache_assistant_id s = (Ret aid, s).
Proof.
  intros Hs Ht; unfold _get_cache_assistant_id, bind, gets.
  rewrite Hs; simpl; rewrite Ht; reflexivity.
Qed.

Lemma holder_found s a :
  Py.opt_str_truthy (self_cache_assistant_id s) = false ->
  faults s = [] ->
  find is_cache_assistant (first_page s) = Some a ->
  _get_cache_assistant_id s = (Ret (a_id a), set_self (Some (a_id a)) s).
Proof.
  intros Ht Hf Hfind; unfold _get_cache_assistant_id, bind, gets.
  rewrite Ht, (list_assistants_ok 0 100 s Hf).
  change (firstn 100 (skipn 0 (assistants s))) with (first_page s).
  rewrite Hfind; reflexivity.
Qed.

Lemma holder_created s :
  Py.opt_str_truthy (self_cache_assistant_id s) = false ->
  faults s = [] ->
  find is_cache_assistant (first_page s) = None ->
  _get_cache_assistant_id s
  = (Ret (mint (next_id s)),
     set_self (Some (mint (next_id s)))
       (set_assistants (assistants s ++ [new_holder (next_id s)])%list
          (set_next_id (S (next_id s)) s))).
Proof.
  intros Ht Hf Hfind; unfold _get_cache_assistant_id, bind, gets.
  rewrite Ht, (list_assistants_ok 0 100 s Hf).
  change (firstn 100 (skipn 0 (assistants s))) with (first_page s).
  rewrite Hfind.
  unfold create_assistant, bind, fresh_id, modify, ret.
  rewrite (remote_call_ok _ Hf); reflexivity.
Qed.

(** Resolving the holder draws at most one id. *)
Lemma holder_next_id s r s1 :
  _get_cache_assistant_id s = (r, s1) ->
  (next_id s <= next_id s1 <= S (next_id s))%nat.
Proof.
  unfold _get_cache_assistant_id, bind, gets.
  destruct (Py.opt_str_truthy (self_cache_assistant_id s)).
  - intros [= <- <-]; lia.
  - unfold list_assistants, bind, gets, ret.
    destruct (remote_call_cases s)
      as [(fs & Hf & ->)|[(e & fs & Hf & ->)|(Hf & ->)]];
      try (intros [= <- <-]; simpl; lia).
    + destruct (find is_cache_assistant _).
      * unfold modify, ret; intros [= <- <-]; simpl; lia.
      * unfold create_assistant, bind, fresh_id, modify, ret.
        destruct (remote_call_cases (set_faults fs s))
          as [(fs' & Hf' & ->)|[(e & fs' & Hf' & ->)|(Hf' & ->)]];
          intros [= <- <-]; simpl; lia.
    + destruct (find is_cache_assistant _).
      * unfold modify, ret; intros [= <- <-]; simpl; lia.
      * unfold create_assistant, bind, fresh_id, modify, ret.
        rewrite (remote_call_ok _ Hf); intros [= <- <-]; simpl; lia.
Qed.

(** *** One run of [set] *)

Lemma after_set_fields aid key value ttl s s1 :
  self_cache_assistant_id (after_set aid key value ttl s s1)
  = self_cache_assistant_id s1
  /\ assistants (after_set aid key value ttl s s1) = assistants s1
  /\ faults (after_set aid key value ttl s s1) = faults s1
  /\ now (after_set aid key value ttl s s1) = now s1
  /\ next_id (after_set aid key value ttl s s1) = S (next_id s1)
  /\ memories (after_set aid key value ttl s s1)
     = (filter (kept aid (targets (holds_key key)
                                  (listing aid (memories s))))
               (memories s)
        ++ [stored_entry aid (next_id s1) key value ttl (now s)])%list.
Proof. destruct s1; repeat split. Qed.

(** What a run of [set] without failures leaves behind *)
Lemma set_run key value ttl s :
  faults s = [] ->
  exists aid s1,
    _get_cache_assistant_id s = (Ret aid, s1)
    /\ set key value ttl s = (Ret true, after_set aid key value ttl s s1)
    /\ faults (after_set aid key value ttl s s1) = []
    /\ settled aid (after_set aid key value ttl s s1)
    /\ self_cache_assistant_id (after_set aid key value ttl s s1) = Some aid
    /\ now (after_set aid key value ttl s s1) = now s
    /\ (next_id s <= next_id s1 <= S (next_id s))%nat.
Proof.
  intros Hf.
  destruct (holder_ok s Hf) as (aid & s1 & Hr & Hm & Hn & Hf1 & Hset).
  destruct (after_set_fields aid key value ttl s s1)
    as (E1 & E2 & E3 & E4 & E5 & E6).
  exists aid, s1; split; [exact Hr|]; split; [apply set_ok; auto|].
  split; [congruence|]; split; [apply (settled_transfer aid s1); auto|].
  split; [rewrite E1; apply (holder_returns s), Hr|].
  split; [congruence|apply (holder_next_id s (Ret aid)), Hr].
Qed.

Lemma stored_entry_id aid n key value ttl t :
  rm_id (stored_entry aid n key value ttl t) = Some (mint n).
Proof. reflexivity. Qed.

Lemma after_set_ids_present aid key value ttl s s1 :
  ids_present s = true ->
  ids_present (after_set aid key value ttl s s1) = true.
Proof.
  unfold ids_present; intros H.
  destruct (after_set_fields aid key value ttl s s1)
    as (_ & _ & _ & _ & _ & ->).
  rewrite forallb_app; apply andb_true_iff; split.
  - apply forallb_filter, H.
  - reflexivity.
Qed.

(** *** Hits and misses of [get] *)

(** [get] answers from the first entry for the key in listing order when
    that entry is within its ttl, and changes nothing. *)
Lemma get_hit key ttl s aid A e B ct tl :
  faults s = [] -> settled aid s ->
  memories s = (A ++ e :: B)%list ->
  existsb (entry_for aid key) A = false ->
  entry_for aid key e = true ->
  timing (Py.int_or ttl CACHE_TTL) (to_Memory e) = Some (ct, tl) ->
  now s - ct < tl ->
  get key ttl s = (Ret (decode (rm_content e)), s).
Proof.
  intros Hf Hset Hmem HA He Ht Hage.
  pose proof (settled_self aid s Hset Hf) as Hr.
  unfold get, try_except, get_try, bind; rewrite Hr.
  rewrite (list_memories_ok aid s Hf).
  change (map to_Memory (filter (owned_by aid) (memories s)))
    with (listing aid (memories s)).
  rewrite Hmem, listing_app, get_loop_skip
    by (apply listing_no_match, HA).
  unfold entry_for in He; apply andb_true_iff in He; destruct He as [Ho Hk].
  unfold listing; simpl filter; rewrite Ho; simpl map.
  cbn [get_loop]; rewrite Hk.
  unfold timing in Ht.
  unfold int_time, gets, bind, int_sub, int_lt, ret.
  destruct (Py.as_int (Py.dict_get_default "cache_time" (PInt 0)
                         (metadata_dict (to_Memory e)))) as [ct'|];
    [|discriminate].
  destruct (Py.as_int (Py.dict_get_default "ttl"
                         (PInt (Py.int_or ttl CACHE_TTL))
                         (metadata_dict (to_Memory e)))) as [tl'|];
    [|discriminate].
  injection Ht as -> ->.
  replace (now s - ct <? tl) with true by (symmetry; apply Z.ltb_lt, Hage).
  reflexivity.
Qed.

Lemma get_miss key ttl s aid s1 :
  faults s = [] ->
  _get_cache_assistant_id s = (Ret aid, s1) ->
  existsb (entry_for aid key) (memories s) = false ->
  get key ttl s = (Ret (Value PNone), s1).
Proof.
  intros Hf Hr Hno.
  destruct (holder_ok s Hf) as (aid' & s1' & Hr' & Hm & Hn & Hf1 & Hset).
  rewrite Hr in Hr'; injection Hr' as <- <-.
  unfold get, try_except, get_try, bind; rewrite Hr.
  rewrite (list_memories_ok aid s1 Hf1), Hm.
  change (map to_Memory (filter (owned_by aid) (memories s)))
    with (listing aid (memories s)).
  rewrite <- (app_nil_r (listing aid (memories s))).
  rewrite get_loop_skip by (apply listing_no_match, Hno).
  reflexivity.
Qed.

Lemma stored_timing aid n key value ttl t dflt :
  timing dflt (to_Memory (stored_entry aid n key value ttl t))
  = Some (t, Py.int_or ttl CACHE_TTL).
Proof. reflexivity. Qed.

Lemma stored_entry_for aid n key value ttl t :
  entry_for aid key (stored_entry aid n key value ttl t) = true.
Proof.
  unfold entry_for; rewrite holds_key_stored.
  unfold stored_entry; rewrite owned_by_refl; reflexivity.
Qed.

Lemma stored_other_key aid n key key' value ttl t :
  key <> key' ->
  holds_key key' (to_Memory (stored_entry aid n key value ttl t)) = false.
Proof.
  intros H; unfold holds_key; simpl; apply String.eqb_neq, H.
Qed.

(** A record whose id no other record carries and that the predicate
    does not select outlives the deletion of the selected ones. *)
Lemma survives P aid A e i :
  (forall x, In x A -> has_id i x = false) ->
  rm_id e = Some i -> P (to_Memory e) = false ->
  kept aid (targets P (listing aid (A ++ [e]))) e = true.
Proof.
  intros HA Hid HP.
  unfold kept; apply negb_true_iff, andb_false_iff; right.
  unfold id_in; destruct (existsb _ _) eqn:E; [|reflexivity].
  exfalso; apply existsb_exists in E; destruct E as (j & Hj & Hhas).
  unfold targets in Hj; apply in_map_iff in Hj.
  destruct Hj as (m & <- & Hm); apply filter_In in Hm.
  destruct Hm as [Hm Hsel]; apply andb_true_iff in Hsel.
  destruct Hsel as [HPm Htr].
  unfold listing in Hm; apply in_map_iff in Hm.
  destruct Hm as (x & <- & Hx); apply filter_In in Hx.
  destruct Hx as [Hx _]; apply in_app_or in Hx.
  destruct Hx as [Hx|[<-|[]]]; [|congruence].
  unfold has_id in Hhas; rewrite Hid in Hhas.
  apply String.eqb_eq in Hhas.
  pose proof (HA x Hx) as Hfresh.
  unfold has_id in Hfresh; unfold the_id in Hhas; simpl in Hhas.
  simpl in Htr; destruct (rm_id x) as [j|]; [|discriminate Htr].
  apply String.eqb_neq in Hfresh; congruence.
Qed.

Lemma filter_last {A} (f : A -> bool) l x :
  f x = true -> filter f (l ++ [x]) = (filter f l ++ [x])%list.
Proof. intros H; rewrite filter_app; simpl; rewrite H; reflexivity. Qed.

Lemma well_timed_holder aid l :
  well_timed_all l = true -> holder_well_timed aid l = true.
Proof.
  unfold well_timed_all, holder_well_timed, listing.
  rewrite !forallb_forall; intros H m Hm.
  apply in_map_iff in Hm; destruct Hm as (x & <- & Hx).
  apply filter_In in Hx; apply H, Hx.
Qed.

Lemma get_loop_ttl key ttl1 ttl2 ms :
  (forall m, In m ms -> holds_key key m = true ->
             Py.dict_has "ttl" (metadata_dict m) = true) ->
  forall s, get_loop key ttl1 ms s = get_loop key ttl2 ms s.
Proof.
  induction ms as [|m ms IH]; intros H s; [reflexivity|].
  cbn [get_loop].
  destruct (holds_key key m) eqn:Hk.
  - assert (Hd : Py.dict_has "ttl" (metadata_dict m) = true)
      by (apply H; [left; reflexivity|exact Hk]).
    unfold Py.dict_has in Hd; unfold Py.dict_get_default at 2 4.
    destruct (Py.dict_lookup "ttl" (metadata_dict m)); [|discriminate].
    unfold bind.
    destruct (int_time s) as [[t|e] s1]; [|reflexivity].
    destruct (int_sub t _ s1) as [[age|e] s2]; [|reflexivity].
    destruct (int_lt age p s2) as [[[]|e] s3]; try reflexivity.
    destruct (delete key s3) as [[b|e] s4]; [|reflexivity].
    apply IH; intros m' Hm'; apply H; right; exact Hm'.
  - apply IH; intros m' Hm'; apply H; right; exact Hm'.
Qed.

End CacheMoreFacts.


(* ------------------------------------------------------------------ *)
(** ** Laws of the cache *)

Module CacheExtras.
Import BackboardService BackboardCache CacheSpec CacheLaws ServiceFacts
       HolderFacts DeleteFacts ClearFacts GetFacts RoundTripFacts
       FailureFacts CacheMoreFacts.

(** X1.  A cache object that has not resolved its holder looks for an
    assistant named [bb_browser_cache] on the first page of a hundred
    assistants only: when there is one it takes the id of the first and
    creates nothing; when there is none it creates a new assistant of that
    name, even if the account has one further down the listing. *)
Theorem holder_resolution (s : State) :
  Py.opt_str_truthy (self_cache_assistant_id s) = false ->
  faults s = [] ->
  (forall a,
      find is_cache_assistant (first_page s) = Some a ->
      _get_cache_assistant_id s
      = (Ret (a_id a), set_self (Some (a_id a)) s))
  /\ (find is_cache_assistant (first_page s) = None ->
      exists s1,
        _get_cache_assistant_id s = (Ret (mint (next_id s)), s1)
        /\ assistants s1
           = (assistants s ++ [new_holder (next_id s)])%list
        /\ self_cache_assistant_id s1 = Some (mint (next_id s))
        /\ memories s1 = memories s).
Proof.
  intros Ht Hf; split.
  - intros a Hfind; apply holder_found; assumption.
  - intros Hfind; eexists; split; [apply holder_created; assumption|].
    repeat split.
Qed.

Lemma holder_resolution_witness :
  (exists s1,
      _get_cache_assistant_id MoreSamples.crowded = (Ret "id-7", s1)
      /\ List.length (filter is_cache_assistant (assistants s1)) = 2%nat)
  /\ _get_cache_assistant_id Sample.st0
     = (Ret "asst-cache", set_self (Some "asst-cache") Sample.st0).
Proof.
  split.
  - destruct (proj2 (holder_resolution MoreSamples.crowded eq_refl eq_refl)
                eq_refl) as (s1 & E & Ha & _).
    exists s1; split; [exact E|rewrite Ha; reflexivity].
  - apply (proj1 (holder_resolution Sample.st0 eq_refl eq_refl)
             Sample.holder); reflexivity.
Defined.

(** X2.  Once a cache object has resolved its holder to a non-empty id, it
    answers with that id without any remote call: the state stays as it
    is, whatever failures are pending and whatever the listing has
    become. *)
Theorem holder_memoised (s s1 s2 : State) (aid : string) :
  _get_cache_assistant_id s = (Ret aid, s1) ->
  Py.str_truthy aid = true ->
  self_cache_assistant_id s2 = self_cache_assistant_id s1 ->
  _get_cache_assistant_id s2 = (Ret aid, s2).
Proof.
  intros Hr Ht Hs; apply holder_known; [|exact Ht].
  rewrite Hs; apply (holder_returns s), Hr.
Qed.

Lemma holder_memoised_witness :
  _get_cache_assistant_id MoreSamples.resolved_failing
  = (Ret "asst-cache", MoreSamples.resolved_failing).
Proof.
  apply (holder_memoised Sample.st0 (set_self (Some "asst-cache") Sample.st0)
           MoreSamples.resolved_failing "asst-cache");
    reflexivity.
Defined.

(** X3.  When no record holds the key and no remote call fails, [get]
    returns [None] and leaves every memory in place. *)
Theorem get_missing_key (key : string) (ttl : option Z) (s : State) :
  faults s = [] ->
  existsb (fun x => holds_key key (to_Memory x)) (memories s) = false ->
  exists s1,
    get key ttl s = (Ret (Value PNone), s1)
    /\ memories s1 = memories s /\ faults s1 = [].
Proof.
  intros Hf Hno.
  destruct (holder_ok s Hf) as (aid & s1 & Hr & Hm & Hn & Hf1 & Hset).
  exists s1; split; [|auto].
  apply (get_miss key ttl s aid s1 Hf Hr).
  destruct (existsb (entry_for aid key) (memories s)) eqn:E; [|reflexivity].
  apply existsb_exists in E; destruct E as (x & Hx & He).
  unfold entry_for in He; apply andb_true_iff in He.
  assert (existsb (fun x => holds_key key (to_Memory x)) (memories s) = true)
    by (apply existsb_exists; exists x; tauto).
  congruence.
Qed.

Lemma get_missing_key_witness :
  exists s1,
    get "zz" None Sample.st0 = (Ret (Value PNone), s1)
    /\ memories s1 = memories Sample.st0 /\ faults s1 = [].
Proof. apply (get_missing_key "zz" None Sample.st0); reflexivity. Defined.

(** X4.  The [ttl] argument of [get] only stands in for a missing [ttl] in
    the metadata: when every entry for the key carries a [ttl] of its own,
    as the entries [set] writes do, [get] does the same whatever [ttl] it
    is given, failures included. *)
Theorem get_ttl_argument_unused
    (key : string) (ttl1 ttl2 : option Z) (s : State) :
  carries_ttl key (memories s) = true ->
  get key ttl1 s = get key ttl2 s.
Proof.
  intros Hc; unfold get, try_except, get_try, bind.
  destruct (_get_cache_assistant_id s) as [[aid|e] s1] eqn:Hr;
    [|reflexivity].
  apply holder_frame in Hr; destruct Hr as [Hm _].
  destruct (list_memories_any aid s1) as (r & s2 & -> & _ & _ & [->|[e ->]]);
    [|reflexivity].
  rewrite (get_loop_ttl key ttl1 ttl2 (listing aid (memories s1)));
    [reflexivity|].
  intros m Hin Hk; unfold listing in Hin; apply in_map_iff in Hin.
  destruct Hin as (x & <- & Hx); apply filter_In in Hx.
  destruct Hx as [Hx _]; rewrite Hm in Hx.
  unfold carries_ttl in Hc; rewrite forallb_forall in Hc.
  specialize (Hc x Hx); rewrite Hk in Hc; exact Hc.
Qed.

Lemma get_ttl_argument_unused_witness :
  get "b" (Some 1) Sample.st0 = get "b" None Sample.st0
  /\ fst (get "b" (Some 1) Sample.st0) = Ret (Value (PList [PInt 1; PInt 2])).
Proof.
  split; [apply (get_ttl_argument_unused "b" (Some 1) None Sample.st0)|];
    reflexivity.
Defined.

(** X5.  Two [set]s of one key, with values within the limits of
    [json], leave exactly one entry for it, the one of the second [set],
    and a [get] within its ttl returns the second value: the value itself
    when it is not a string, and for a string what [json.loads] makes of
    the text. *)
Theorem set_overwrites
    (key : string) (v1 v2 : pyval) (ttl1 ttl2 ttl' : option Z) (s : State) :
  faults s = [] ->
  ids_present s = true ->
  portable v1 = true ->
  portable v2 = true ->
  exists aid s1 s2 n,
    set key v1 ttl1 s = (Ret true, s1)
    /\ set key v2 ttl2 s1 = (Ret true, s2)
    /\ self_cache_assistant_id s2 = Some aid
    /\ entries_for aid key s2 = [stored_entry aid n key v2 ttl2 (now s)]
    /\ forall t',
         t' - now s < Py.int_or ttl2 CACHE_TTL ->
         get key ttl' (set_now t' s2)
         = (Ret (match v2 with
                 | PStr text => decode text
                 | _ => Value v2
                 end),
            set_now t' s2).
Proof.
  intros Hf Hp _ Hv2.
  destruct (set_run key v1 ttl1 s Hf)
    as (aid & s1 & Hr & Hset1 & Hf1 & Hst1 & Hself1 & Hnow1 & Hle).
  pose proof (after_set_ids_present aid key v1 ttl1 s s1 Hp) as Hp1.
  remember (after_set aid key v1 ttl1 s s1) as S1 eqn:ES1.
  pose proof (settled_self aid S1 Hst1 Hf1) as Hr1.
  pose proof (set_ok key v2 ttl2 S1 aid S1 Hf1 Hr1) as Hset2.
  destruct (after_set_fields aid key v2 ttl2 S1 S1)
    as (E1 & E2 & E3 & E4 & E5 & E6).
  exists aid, S1, (after_set aid key v2 ttl2 S1 S1), (next_id S1).
  split; [exact Hset1|]; split; [exact Hset2|].
  split; [congruence|]; split.
  - unfold entries_for; rewrite E6, filter_app.
    rewrite (filter_none (entry_for aid key)
               (filter (kept aid (targets (holds_key key)
                                          (listing aid (memories S1))))
                       (memories S1)))
      by (apply (after_delete_no_entry (holds_key key)), Hp1).
    simpl; rewrite stored_entry_for, Hnow1; reflexivity.
  - intros t' Ht.
    pose proof (get_after_set key v2 ttl2 ttl' S1 aid S1 t' Hf1 Hr1 Hp1)
      as Hg; simpl in Hg.
    rewrite Hg, Hnow1.
    replace (t' - now s <? Py.int_or ttl2 CACHE_TTL) with true
      by (symmetry; apply Z.ltb_lt, Ht).
    rewrite (portable_read_back v2 Hv2); reflexivity.
Qed.

Lemma set_overwrites_witness :
  exists aid s1 s2 n,
    set "k" (PInt 1) None Sample.st0 = (Ret true, s1)
    /\ set "k" (PList [PInt 2; PStr "two"]) (Some 60) s1 = (Ret true, s2)
    /\ self_cache_assistant_id s2 = Some aid
    /\ entries_for aid "k" s2
       = [stored_entry aid n "k" (PList [PInt 2; PStr "two"]) (Some 60)
                       (now Sample.st0)]
    /\ forall t',
         t' - now Sample.st0 < Py.int_or (Some 60) CACHE_TTL ->
         get "k" None (set_now t' s2)
         = (Ret (Value (PList [PInt 2; PStr "two"])), set_now t' s2).
Proof.
  apply (set_overwrites "k" (PInt 1) (PList [PInt 2; PStr "two"]) None
           (Some 60) None Sample.st0);
    reflexivity.
Defined.

(** X6.  Keys do not disturb each other.  On a platform whose records
    carry ids and that hands out ids not in use, after [set] of one key
    and [set] of a different key, with values within the limits of
    [json], [get] of the first key within its ttl still returns the first
    value (for a string, what [json.loads] makes of the text). *)
Theorem set_keys_independent
    (k1 k2 : string) (v1 v2 : pyval) (ttl1 ttl2 ttl' : option Z)
    (s : State) (t' : Z) :
  faults s = [] ->
  ids_present s = true ->
  next_ids_unused 3 s = true ->
  portable v1 = true ->
  portable v2 = true ->
  k1 <> k2 ->
  t' - now s < Py.int_or ttl1 CACHE_TTL ->
  exists s1 s2,
    set k1 v1 ttl1 s = (Ret true, s1)
    /\ set k2 v2 ttl2 s1 = (Ret true, s2)
    /\ get k1 ttl' (set_now t' s2)
       = (Ret (match v1 with
               | PStr text => decode text
               | _ => Value v1
               end),
          set_now t' s2).
Proof.
  intros Hf Hp Hun Hv1 _ Hk Ht.
  destruct (set_run k1 v1 ttl1 s Hf)
    as (aid & s1 & Hr & Hset1 & Hf1 & Hst1 & Hself1 & Hnow1 & Hle).
  destruct (after_set_fields aid k1 v1 ttl1 s s1)
    as (_ & _ & _ & _ & _ & Hmem1).
  remember (after_set aid k1 v1 ttl1 s s1) as S1 eqn:ES1.
  pose proof (settled_self aid S1 Hst1 Hf1) as Hr1.
  pose proof (set_ok k2 v2 ttl2 S1 aid S1 Hf1 Hr1) as Hset2.
  destruct (after_set_fields aid k2 v2 ttl2 S1 S1)
    as (E1 & E2 & E3 & E4 & E5 & E6).
  remember (after_set aid k2 v2 ttl2 S1 S1) as S2 eqn:ES2.
  exists S1, S2; split; [exact Hset1|]; split; [exact Hset2|].
  remember (filter (kept aid (targets (holds_key k1)
                                      (listing aid (memories s))))
                   (memories s)) as A eqn:EA.
  remember (stored_entry aid (next_id s1) k1 v1 ttl1 (now s)) as e1 eqn:Ee1.
  assert (HA : forall x, In x A -> has_id (mint (next_id s1)) x = false).
  { intros x Hx; rewrite EA in Hx; apply filter_In in Hx.
    apply (unused_fresh 3 s x (next_id s1) Hun); [apply Hx|lia]. }
  assert (Hkeep : kept aid (targets (holds_key k2)
                                    (listing aid (A ++ [e1]))) e1 = true).
  { apply (survives (holds_key k2) aid A e1 (mint (next_id s1)) HA);
      rewrite Ee1; [reflexivity|apply stored_other_key, Hk]. }
  rewrite Hmem1 in E6; rewrite (filter_last _ A e1 Hkeep) in E6.
  rewrite <- app_assoc in E6; simpl in E6.
  assert (Hval : decode (rm_content e1)
                 = match v1 with
                   | PStr text => decode text
                   | _ => Value v1
                   end)
    by (rewrite Ee1; exact (portable_read_back v1 Hv1)).
  rewrite <- Hval.
  apply (get_hit k1 ttl' (set_now t' S2) aid
           (filter (kept aid (targets (holds_key k2)
                                      (listing aid (A ++ [e1])))) A)
           e1
           [stored_entry aid (next_id S1) k2 v2 ttl2 (now S1)]
           (now s) (Py.int_or ttl1 CACHE_TTL)).
  - simpl; congruence.
  - apply (settled_transfer aid S1); [exact Hst1| |]; simpl; congruence.
  - simpl; exact E6.
  - apply existsb_filter_false; rewrite EA.
    apply (after_delete_no_entry (holds_key k1)), Hp.
  - rewrite Ee1; apply stored_entry_for.
  - rewrite Ee1; apply stored_timing.
  - simpl; exact Ht.
Qed.

Lemma set_keys_independent_witness :
  exists s1 s2,
    set "a" (PInt 5) None Sample.st0 = (Ret true, s1)
    /\ set "b" (PInt 6) None s1 = (Ret true, s2)
    /\ get "a" None (set_now 2001 s2)
       = (Ret (Value (PInt 5)), set_now 2001 s2).
Proof.
  apply (set_keys_independent "a" "b" (PInt 5) (PInt 6) None None None
           Sample.st0 2001);
    [reflexivity|reflexivity|reflexivity|reflexivity|reflexivity
    |discriminate|reflexivity].
Defined.



(** X8.  [clear_expired] is idempotent: run again at the same time, it
    finds nothing left to delete, returns 0 and changes nothing. *)
Theorem clear_expired_twice (s : State) :
  faults s = [] ->
  ids_present s = true ->
  well_timed_all (memories s) = true ->
  exists n s1,
    clear_expired s = (Ret n, s1) /\ clear_expired s1 = (Ret 0, s1).
Proof.
  intros Hf Hp Hw.
  destruct (holder_ok s Hf) as (aid & s1 & Hr & Hm & Hn & Hf1 & Hset).
  pose proof (clear_ok s aid s1 Hf Hr (well_timed_holder aid _ Hw)) as Hc1.
  remember (filter (kept aid (targets (expired_entry (now s))
                                      (listing aid (memories s))))
                   (memories s)) as L eqn:EL.
  assert (Hf' : faults (set_memories L s1) = []) by exact Hf1.
  assert (Hr' : _get_cache_assistant_id (set_memories L s1)
                = (Ret aid, set_memories L s1)).
  { apply settled_self; [|exact Hf'].
    apply (settled_transfer aid s1); auto. }
  assert (Hw' : holder_well_timed aid (memories (set_memories L s1)) = true).
  { apply well_timed_holder; simpl; rewrite EL.
    apply forallb_filter, Hw. }
  pose proof (clear_ok (set_memories L s1) aid (set_memories L s1)
                Hf' Hr' Hw') as Hc2.
  assert (Hnone : targets (expired_entry (now s)) (listing aid L) = []).
  { apply targets_none; rewrite EL.
    apply (after_delete_no_entry (expired_entry (now s))), Hp. }
  simpl in Hc2; rewrite Hn, Hnone, kept_nil in Hc2; simpl in Hc2.
  do 2 eexists; split; [exact Hc1|].
  rewrite Hc2; f_equal; destruct s1; reflexivity.
Qed.

Lemma clear_expired_twice_witness :
  exists n s1,
    clear_expired Sample.st0 = (Ret n, s1)
    /\ clear_expired s1 = (Ret 0, s1).
Proof. apply (clear_expired_twice Sample.st0); reflexivity. Defined.

(** X9.  [clear_expired] spares what is still valid.  On a platform
    whose records carry ids and that hands out ids not in use, whatever
    the other records of the holder look like, an entry that [set] wrote
    for a value within the limits of [json] is still served by [get] after
    a [clear_expired] run within its ttl. *)
Theorem fresh_entry_survives_clear
    (key : string) (value : pyval) (ttl ttl' : option Z) (s : State)
    (t' : Z) :
  faults s = [] ->
  ids_present s = true ->
  next_ids_unused 2 s = true ->
  portable value = true ->
  t' - now s < Py.int_or ttl CACHE_TTL ->
  exists s1 n s2,
    set key value ttl s = (Ret true, s1)
    /\ clear_expired (set_now t' s1) = (Ret n, s2)
    /\ get key ttl' s2
       = (Ret (match value with
               | PStr text => decode text
               | _ => Value value
               end),
          s2).
Proof.
  intros Hf Hp Hun Hv Ht.
  destruct (set_run key value ttl s Hf)
    as (aid & s1 & Hr & Hset1 & Hf1 & Hst1 & Hself1 & Hnow1 & Hle).
  destruct (after_set_fields aid key value ttl s s1)
    as (_ & _ & _ & _ & _ & Hmem1).
  remember (after_set aid key value ttl s s1) as S1 eqn:ES1.
  remember (filter (kept aid (targets (holds_key key)
                                      (listing aid (memories s))))
                   (memories s)) as A eqn:EA.
  remember (stored_entry aid (next_id s1) key value ttl (now s)) as e1
    eqn:Ee1.
  assert (HfT : faults (set_now t' S1) = []) by exact Hf1.
  assert (HstT : settled aid (set_now t' S1))
    by (apply (settled_transfer aid S1); auto).
  pose proof (settled_self aid _ HstT HfT) as HrT.
  destruct (clear_settled (set_now t' S1) aid HfT HrT)
    as (n & s2 & D & Hc & Hsame & Hf2 & Hm2 & HD).
  cbn [memories now set_now] in Hm2, HD; rewrite Hmem1 in Hm2, HD.
  assert (HA : forall x, In x A -> has_id (mint (next_id s1)) x = false).
  { intros x Hx; rewrite EA in Hx; apply filter_In in Hx.
    apply (unused_fresh 2 s x (next_id s1) Hun); [apply Hx|lia]. }
  assert (Hsurv : kept aid (targets (expired_entry t')
                                    (listing aid (A ++ [e1]))) e1 = true).
  { apply (survives (expired_entry t') aid A e1 (mint (next_id s1)) HA);
      rewrite Ee1; [reflexivity|].
    unfold expired_entry, aged; rewrite stored_timing.
    apply andb_false_iff; right.
    rewrite Z.geb_leb; apply Z.leb_gt; lia. }
  assert (Hkeep : kept aid D e1 = true).
  { unfold kept in *; apply negb_true_iff in Hsurv; apply negb_true_iff.
    destruct (owned_by aid e1); [|reflexivity]; simpl in *.
    destruct (id_in D e1) eqn:Hin; [|reflexivity].
    rewrite (id_in_incl _ _ _ HD Hin) in Hsurv; discriminate. }
  rewrite (filter_last _ A e1 Hkeep) in Hm2.
  destruct Hsame as (Hs1 & Hs2 & _ & Hs4).
  exists S1, n, s2; split; [exact Hset1|]; split; [exact Hc|].
  assert (Hval : decode (rm_content e1)
                 = match value with
                   | PStr text => decode text
                   | _ => Value value
                   end)
    by (rewrite Ee1; exact (portable_read_back value Hv)).
  rewrite <- Hval.
  apply (get_hit key ttl' s2 aid (filter (kept aid D) A) e1 []
           (now s) (Py.int_or ttl CACHE_TTL)).
  - exact Hf2.
  - apply (settled_transfer aid S1); auto.
  - exact Hm2.
  - apply existsb_filter_false; rewrite EA.
    apply (after_delete_no_entry (holds_key key)), Hp.
  - rewrite Ee1; apply stored_entry_for.
  - rewrite Ee1; apply stored_timing.
  - rewrite Hs4; simpl; exact Ht.
Qed.

Lemma fresh_entry_survives_clear_witness :
  exists s1 n s2,
    set "c" (PInt 1) (Some 60) MoreSamples.unsettled = (Ret true, s1)
    /\ clear_expired (set_now 2059 s1) = (Ret n, s2)
    /\ get "c" None s2 = (Ret (Value (PInt 1)), s2).
Proof.
  apply (fresh_entry_survives_clear "c" (PInt 1) (Some 60) None
           MoreSamples.unsettled 2059);
    reflexivity.
Defined.

End CacheExtras.


(* ------------------------------------------------------------------ *)
(** ** More about the model catalog: requests, failures, completion order *)

Module CatalogMoreFacts.
Import ModelCatalog CatalogSpec CatalogLaws.

Lemma http_get_fields rq w :
  _models_cache (snd (http_get rq w)) = _models_cache w
  /\ _models_cache_time (snd (http_get rq w)) = _models_cache_time w
  /\ clock (snd (http_get rq w)) = clock w
  /\ completion (snd (http_get rq w)) = completion w
  /\ sent (snd (http_get rq w)) = (sent w ++ [rq])%list
  /\ replies (snd (http_get rq w)) = tl (replies w)
  /\ fst (http_get rq w) = match replies w with
                           | [] => None
                           | r :: _ => r
                           end.
Proof.
  unfold http_get; destruct (replies w) eqn:E; simpl; rewrite ?E;
    repeat split.
Qed.


(** A request does not look at the completion order. *)
Lemma http_get_completion rq order w :
  http_get rq (set_completion order w)
  = (fst (http_get rq w), set_completion order (snd (http_get rq w))).
Proof. unfold http_get; simpl; destruct (replies w); reflexivity. Qed.

Lemma fetch_pages_completion api_key skips order :
  forall w,
    fetch_pages api_key skips (set_completion order w)
    = (fst (fetch_pages api_key skips w),
       set_completion order (snd (fetch_pages api_key skips w))).
Proof.
  induction skips as [|skip rest IH]; intros w; [reflexivity|].
  cbn [fetch_pages]; unfold fetch_page; rewrite http_get_completion.
  destruct (http_get _ w) as [r w1]; simpl.
  rewrite IH; destruct (fetch_pages api_key rest w1); reflexivity.
Qed.

(** The refresh, by the answer to its first request *)
Lemma fetch_unfold upper init api_key w :
  fetch upper init api_key w
  = let w1 := snd (http_get (first_request api_key) w) in
    match first_answer (fst (http_get (first_request api_key) w)) with
    | None => (None, w1)
    | Some (total, first) =>
        if total >? 100 then
          (Some (convert upper init
                   (fold_left extend
                      (as_completed
                         (completion
                            (snd (fetch_pages api_key (range 100 total 100)
                                    w1)))
                         (fst (fetch_pages api_key (range 100 total 100)
                                 w1)))
                      first)),
           snd (fetch_pages api_key (range 100 total 100) w1))
        else (Some (convert upper init first), w1)
    end.
Proof.
  unfold fetch, first_answer; fold (first_request api_key).
  destruct (http_get (first_request api_key) w) as [r w1]; simpl.
  destruct r as [[| | | | |data]|]; try reflexivity.
  destruct (Py.as_int _) as [total|]; [|reflexivity].
  destruct (iter _) as [first|].
  - destruct (total >? 100); [|reflexivity].
    destruct (fetch_pages api_key _ w1); reflexivity.
  - destruct (total >? 100); reflexivity.
Qed.

Lemma fold_extend pages :
  forall first,
    fold_left extend pages first
    = (first ++ flat_map page_items pages)%list.
Proof.
  induction pages as [|p pages IH]; intros first; simpl.
  - rewrite app_nil_r; reflexivity.
  - rewrite IH; unfold extend, page_items.
    destruct (iter p); [rewrite <- app_assoc|]; reflexivity.
Qed.

Lemma convert_app upper init a b :
  convert upper init (a ++ b)
  = (convert upper init a ++ convert upper init b)%list.
Proof. unfold convert; apply flat_map_app. Qed.

Lemma pick_all (A : Type) (l : list A) :
  flat_map (fun i => match nth_error l i with
                     | Some x => [x]
                     | None => []
                     end)
           (seq 0 (List.length l))
  = l.
Proof.
  induction l as [|a l IH]; [reflexivity|].
  cbn [List.length seq flat_map nth_error app].
  rewrite <- seq_shift, flat_map_concat_map, map_map.
  rewrite <- flat_map_concat_map; simpl; f_equal; exact IH.
Qed.

(** The futures come out of [as_completed] each once. *)
Lemma as_completed_permutation (A : Type) (order : list nat) (l : list A) :
  Permutation (as_completed order l) l.
Proof.
  unfold as_completed.
  set (n := List.length l).
  set (named := nodup Nat.eq_dec (filter (fun i => Nat.ltb i n) order)).
  set (late := filter (fun i => negb (existsb (Nat.eqb i) named)) (seq 0 n)).
  apply (Permutation_trans
           (l' := flat_map (fun i => match nth_error l i with
                                     | Some x => [x]
                                     | None => []
                                     end) (seq 0 n)));
    [|unfold n; rewrite pick_all; apply Permutation_refl].
  apply Permutation_flat_map, NoDup_Permutation.
  - apply NoDup_app.
    + apply NoDup_nodup.
    + apply NoDup_filter, seq_NoDup.
    + intros x Hx Hl; apply filter_In in Hl; destruct Hl as [_ Hl].
      apply negb_true_iff in Hl.
      assert (existsb (Nat.eqb x) named = true)
        by (apply existsb_exists; exists x; split;
            [exact Hx|apply Nat.eqb_refl]).
      congruence.
  - apply seq_NoDup.
  - intros x; split.
    + intros Hx; apply in_app_or in Hx; destruct Hx as [Hx|Hx].
      * apply nodup_In, filter_In in Hx; destruct Hx as [_ Hx].
        apply Nat.ltb_lt in Hx; apply in_seq; lia.
      * apply filter_In in Hx; tauto.
    + intros Hx; apply in_or_app.
      destruct (existsb (Nat.eqb x) named) eqn:E.
      * left; apply existsb_exists in E; destruct E as (y & Hy & Exy).
        apply Nat.eqb_eq in Exy; subst y; exact Hy.
      * right; apply filter_In; split; [exact Hx|rewrite E; reflexivity].
Qed.


End CatalogMoreFacts.


(* ------------------------------------------------------------------ *)
(** ** Laws of the model catalog *)

Module CatalogExtras.
Import ModelCatalog CatalogSpec CatalogLaws CatalogFacts CatalogMoreFacts.

(** X10.  A refresh whose first request is not answered with an object
    that has a numeric [total] and iterable [models] makes [list_models]
    return the empty list after that one request; the cache and its time
    stay as they were, so the failure is not cached and a stale catalog is
    neither served nor dropped. *)
Theorem failed_refresh
    (upper : string -> string)
    (init : pyval -> pyval -> pyval -> list string -> string -> pyval ->
            pyval -> option ModelInfo)
    (api_key : string) (w : World) :
  cache_is_fresh (clock w) w = false ->
  first_answer (hd None (replies w)) = None ->
  exists w',
    list_models upper init api_key w = (Models [], w')
    /\ _models_cache w' = _models_cache w
    /\ _models_cache_time w' = _models_cache_time w
    /\ sent w' = (sent w ++ [first_request api_key])%list
    /\ replies w' = tl (replies w).
Proof.
  intros Hmiss Hbad.
  destruct (http_get_fields (first_request api_key) w)
    as (H1 & H2 & _ & _ & H5 & H6 & H7).
  exists (snd (http_get (first_request api_key) w)).
  split; [|auto].
  unfold list_models; rewrite Hmiss, fetch_unfold; cbv zeta.
  rewrite H7.
  change (match replies w with [] => None | r :: _ => r end)
    with (hd None (replies w)).
  rewrite Hbad; reflexivity.
Qed.

Lemma failed_refresh_witness :
  exists w',
    list_models Sample.upper Sample.ModelInfo_init "key"
      (set_replies [Some (PList [])] MoreSamples.warm_stale)
    = (Models [], w')
    /\ _models_cache w' = Models [Sample.gpt]
    /\ sent w' = [first_request "key"].
Proof.
  destruct (failed_refresh Sample.upper Sample.ModelInfo_init "key"
              (set_replies [Some (PList [])] MoreSamples.warm_stale)
              eq_refl eq_refl) as (w' & E & Hc & _ & Hs & _).
  exists w'; split; [exact E|]; split; [exact Hc|exact Hs].
Defined.



(** X12.  The order in which the page fetches complete changes the order
    of the catalog and nothing else: under any other completion order
    [list_models] issues the same requests, uses up the same replies and
    returns the same models up to a permutation, and what the first page
    contributes always comes first. *)
Theorem completion_order_irrelevant
    (upper : string -> string)
    (init : pyval -> pyval -> pyval -> list string -> string -> pyval ->
            pyval -> option ModelInfo)
    (api_key : string) (w : World) (order : list nat) :
  cache_is_fresh (clock w) w = false ->
  exists l1 l2 w1 w2,
    list_models upper init api_key w = (Models l1, w1)
    /\ list_models upper init api_key (set_completion order w)
       = (Models l2, w2)
    /\ Permutation l1 l2
    /\ sent w2 = sent w1 /\ replies w2 = replies w1
    /\ forall total first,
         first_answer (hd None (replies w)) = Some (total, first) ->
         exists t1 t2,
           l1 = (convert upper init first ++ t1)%list
           /\ l2 = (convert upper init first ++ t2)%list.
Proof.
  intros Hmiss.
  destruct (http_get_fields (first_request api_key) w)
    as (H1 & H2 & H3 & H4 & H5 & H6 & H7).
  unfold list_models.
  change (cache_is_fresh (clock (set_completion order w))
                         (set_completion order w))
    with (cache_is_fresh (clock w) w).
  rewrite Hmiss, !fetch_unfold; cbv zeta.
  rewrite http_get_completion; cbn [fst snd].
  rewrite H7.
  change (match replies w with [] => None | r :: _ => r end)
    with (hd None (replies w)).
  destruct (first_answer (hd None (replies w))) as [[total first]|].
  2:{ exists [], []; do 2 eexists; split; [reflexivity|].
      split; [reflexivity|]; split; [apply Permutation_refl|].
      split; [reflexivity|]; split; [reflexivity|discriminate]. }
  destruct (total >? 100).
  - rewrite fetch_pages_completion; cbn [fst snd].
    remember (fetch_pages api_key (range 100 total 100)
                (snd (http_get (first_request api_key) w))) as P eqn:EP.
    rewrite !fold_extend, !convert_app.
    do 4 eexists; split; [reflexivity|]; split; [reflexivity|].
    split; [|split; [reflexivity|split; [reflexivity|]]].
    + apply Permutation_app_head; unfold convert.
      apply Permutation_flat_map, Permutation_flat_map.
      apply (Permutation_trans (l' := fst P)).
      * apply as_completed_permutation.
      * apply Permutation_sym, as_completed_permutation.
    + intros total' first' [= <- <-]; do 2 eexists; split; reflexivity.
  - do 4 eexists; split; [reflexivity|]; split; [reflexivity|].
    split; [apply Permutation_refl|].
    split; [reflexivity|]; split; [reflexivity|].
    intros total' first' [= <- <-]; exists [], [].
    rewrite app_nil_r; split; reflexivity.
Qed.

Lemma completion_order_irrelevant_witness :
  exists l1 l2 w1 w2,
    list_models Sample.upper Sample.ModelInfo_init "key" MoreSamples.large
    = (Models l1, w1)
    /\ list_models Sample.upper Sample.ModelInfo_init "key"
         (set_completion [1%nat; 0%nat] MoreSamples.large)
       = (Models l2, w2)
    /\ Permutation l1 l2
    /\ sent w2 = sent w1.
Proof.
  destruct (completion_order_irrelevant Sample.upper Sample.ModelInfo_init
              "key" MoreSamples.large [1%nat; 0%nat] eq_refl)
    as (l1 & l2 & w1 & w2 & E1 & E2 & Hp & Hs & _).
  exists l1, l2, w1, w2; auto.
Defined.

(** X13.  What a refresh stores is served afterwards: when [list_models]
    has refreshed the cache with a non-empty catalog, every call made less
    than 3600 seconds after that call returns the same catalog and leaves
    the world as it is. *)
Theorem refresh_then_served
    (upper : string -> string)
    (init : pyval -> pyval -> pyval -> list string -> string -> pyval ->
            pyval -> option ModelInfo)
    (api_key : string) (w w' : World) (result : list ModelInfo) (t : Q) :
  cache_is_fresh (clock w) w = false ->
  list_models upper init api_key w = (Models result, w') ->
  result <> [] ->
  (t - clock w < _MODELS_CACHE_TTL)%Q ->
  list_models upper init api_key (set_clock t w')
  = (Models result, set_clock t w').
Proof.
  intros Hmiss Hrun Hne Hage.
  unfold list_models in Hrun; rewrite Hmiss in Hrun.
  destruct (fetch upper init api_key w) as [[r|] w1].
  2:{ injection Hrun as <- _; contradiction. }
  injection Hrun as <- <-.
  unfold list_models, cache_is_fresh; simpl.
  destruct r as [|m r]; [contradiction|]; simpl.
  destruct (Qlt_le_dec _ _) as [_|Hle]; [reflexivity|].
  exfalso; apply (Qlt_not_le _ _ Hage), Hle.
Qed.

Lemma refresh_then_served_witness :
  list_models Sample.upper Sample.ModelInfo_init "key"
    (set_clock 4599
       (snd (list_models Sample.upper Sample.ModelInfo_init "key"
               (Sample.started 1000 [Some Sample.one_model]))))
  = (Models [Sample.gpt],
     set_clock 4599
       (snd (list_models Sample.upper Sample.ModelInfo_init "key"
               (Sample.started 1000 [Some Sample.one_model])))).
Proof.
  apply (refresh_then_served Sample.upper Sample.ModelInfo_init "key"
           (Sample.started 1000 [Some Sample.one_model]));
    [reflexivity|reflexivity|discriminate|reflexivity].
Defined.

End CatalogExtras.


(* ------------------------------------------------------------------ *)
(** ** More about the routes: the search without a usable limit, the
       memory routes *)

Module RouteMoreFacts.
Import Routes RouteSpec CacheSpec CacheLaws RouteLaws MemoryRoutes
       ServiceFacts SearchFacts CacheMoreFacts.

Lemma len_ge_not_a_number l limit :
  Py.as_int limit = None -> exists e, len_ge l limit = inl e.
Proof. unfold len_ge; intros ->; eexists; reflexivity. Qed.

(** With a limit that is no number the comparison raises after the first
    match, which stays appended. *)
Lemma scan_memories_no_limit q limit a ms :
  Py.as_int limit = None ->
  forall all,
    fst (scan_memories q limit a ms all)
    = (all ++ firstn 1 (entries q a ms))%list
    /\ snd (scan_memories q limit a ms all) <> Broke.
Proof.
  intros Hl; unfold entries; induction ms as [|m ms IH]; intros all.
  - simpl; rewrite app_nil_r; split; [reflexivity|discriminate].
  - cbn [scan_memories filter].
    destruct (matches_query q m).
    + destruct (len_ge_not_a_number (all ++ [memory_dict a m]) limit Hl)
        as (e & He).
      rewrite He; simpl; split; [reflexivity|discriminate].
    + apply IH.
Qed.

Lemma scan_assistants_no_limit q limit l :
  Py.as_int limit = None ->
  forall all s,
    faults s = [] ->
    scan_assistants q limit l all s
    = (Ret (all ++ flat_map
                     (fun a => firstn 1
                                 (entries q a
                                    (listing (a_id a) (memories s))))
                     l)%list,
       s).
Proof.
  intros Hl; induction l as [|a l IH]; intros all s Hf.
  - simpl; rewrite app_nil_r; reflexivity.
  - cbn [scan_assistants flat_map].
    rewrite (list_memories_ok (a_id a) s Hf).
    change (map BackboardService.to_Memory
              (filter (BackboardService.owned_by (a_id a)) (memories s)))
      with (listing (a_id a) (memories s)).
    destruct (scan_memories_no_limit q limit a
                (listing (a_id a) (memories s)) Hl all) as [E1 E2].
    destruct (scan_memories q limit a (listing (a_id a) (memories s)) all)
      as [all' fl]; cbn [fst snd] in E1, E2; subst all'.
    destruct (len_ge_not_a_number
                (all ++ firstn 1 (entries q a
                                    (listing (a_id a) (memories s))))
                limit Hl) as (e & He).
    destruct fl; [rewrite He|contradiction|];
      rewrite (IH _ s Hf), <- app_assoc; reflexivity.
Qed.

Lemma search_all_no_limit data q limit s :
  Py.dict_get_default "query" (PStr "") data = PStr q ->
  Py.dict_get_default "limit" (PInt 50) data = limit ->
  Py.as_int limit = None ->
  faults s = [] ->
  search_all_assistants data s
  = match slice_limit (first_matches (PyStr.lower q) s) limit with
    | inr result =>
        (Ret (mkResponse 200 (PDict [("data", PList result)])), s)
    | inl e => (Raise e, s)
    end.
Proof.
  intros Hq Hlim Hl Hf.
  unfold search_all_assistants, bind, query_of.
  rewrite (list_assistants_ok 0 (Z.to_nat 10000) s Hf), Hq, Hlim.
  unfold of_sum at 1, ret at 1.
  rewrite (scan_assistants_no_limit (PyStr.lower q) limit _ Hl [] s Hf).
  change (skipn 0 (assistants s)) with (assistants s).
  fold (scanned s).
  change ([] ++ flat_map
                  (fun a => firstn 1
                              (entries (PyStr.lower q) a
                                 (listing (a_id a) (memories s))))
                  (scanned s))%list
    with (first_matches (PyStr.lower q) s).
  destruct (slice_limit (first_matches (PyStr.lower q) s) limit);
    reflexivity.
Qed.

Lemma contains_empty s : PyStr.contains "" s = true.
Proof. destruct s; reflexivity. Qed.

Lemma all_matches_empty s : all_matches "" s = all_memories s.
Proof.
  unfold all_matches, all_memories, found.
  apply flat_map_ext; intros a; f_equal.
  apply filter_all; intros m _; apply contains_empty.
Qed.

(** *** The memory routes *)

Lemma lookup_without k data :
  (k =? "assistant_id")%string = false ->
  Py.dict_lookup k (without_assistant_id data) = Py.dict_lookup k data.
Proof.
  intros Hk; unfold without_assistant_id.
  induction data as [|[k' v] rest IH]; [reflexivity|].
  cbn [filter fst Py.dict_lookup].
  destruct (k' =? "assistant_id")%string eqn:E; cbn [negb].
  - apply String.eqb_eq in E; subst k'.
    rewrite String.eqb_sym, Hk; exact IH.
  - cbn [Py.dict_lookup]; rewrite IH; reflexivity.
Qed.

Lemma find_app_none {A} (p : A -> bool) l l' :
  (forall x, In x l -> p x = false) -> find p (l ++ l') = find p l'.
Proof.
  induction l as [|x l IH]; intros H; [reflexivity|].
  simpl; rewrite (H x (or_introl eq_refl)); apply IH.
  intros y Hy; apply H; right; exact Hy.
Qed.

Lemma get_service_ok key s :
  Py.str_truthy key = true -> get_service (Some key) s = (Ret key, s).
Proof.
  intros H; unfold get_service.
  change (Py.opt_str_truthy (Some key)) with (Py.str_truthy key).
  rewrite H; reflexivity.
Qed.

Lemma str_truthy_truthy aid :
  Py.truthy (PStr aid) = Py.str_truthy aid.
Proof. reflexivity. Qed.

End RouteMoreFacts.


(* ------------------------------------------------------------------ *)
(** ** Laws of the routes *)

Module RouteExtras.
Import Routes RouteSpec CacheSpec CacheLaws RouteLaws MemoryRoutes
       ServiceFacts SearchFacts CacheMoreFacts RouteMoreFacts.

(** X14.  The aggregate search with a [limit] that is no number: every
    comparison of the result length with it raises inside the [try] of
    the assistant at hand, so each scanned assistant contributes its first
    match only; a [null] limit then returns all of these, any other value
    makes the final slice raise and the route answer 500. *)
Theorem search_limit_not_a_number
    (validate : pydict -> option MemorySearch)
    (describe : string -> pydict -> string)
    (key : string) (data : pydict) (q : string) (limit : pyval)
    (s : State) :
  Py.str_truthy key = true ->
  Py.truthy (Py.dict_get "assistant_id" data) = false ->
  Py.dict_get_default "query" (PStr "") data = PStr q ->
  Py.dict_get_default "limit" (PInt 50) data = limit ->
  Py.as_int limit = None ->
  faults s = [] ->
  search_memory validate describe (Some key) data s
  = (Ret (match limit with
          | PNone =>
              mkResponse 200
                (PDict [("data", PList (first_matches (PyStr.lower q) s))])
          | _ =>
              error_response 500
                "slice indices must be integers or None or have an __index__ method"
          end),
     s).
Proof.
  intros Hkey Haid Hq Hlim Hl Hf.
  unfold search_memory, handle, try_except, bind.
  rewrite (get_service_ok key s Hkey), Haid; cbn [negb].
  rewrite (search_all_no_limit data q limit s Hq Hlim Hl Hf).
  destruct limit as [|[]| | | |]; try discriminate Hl; reflexivity.
Qed.

Lemma search_limit_not_a_number_witness :
  search_memory (fun _ => None) (fun model _ => model) (Some "key")
                [("query", PStr "e"); ("limit", PNone)] Sample.st0
  = (Ret (mkResponse 200
            (PDict [("data", PList (first_matches "e" Sample.st0))])),
     Sample.st0)
  /\ List.length (first_matches "e" Sample.st0) = 1%nat.
Proof.
  split; [|reflexivity].
  apply (search_limit_not_a_number (fun _ => None) (fun model _ => model)
           "key" [("query", PStr "e"); ("limit", PNone)] "e" PNone
           Sample.st0);
    reflexivity.
Defined.

(** X15.  The aggregate search without a query, or with an empty one,
    does not filter: it returns the first [limit] memories of the scanned
    assistants, in scan order. *)
Theorem search_without_query
    (validate : pydict -> option MemorySearch)
    (describe : string -> pydict -> string)
    (key : string) (data : pydict) (k : Z) (s : State) :
  Py.str_truthy key = true ->
  Py.truthy (Py.dict_get "assistant_id" data) = false ->
  Py.dict_get_default "query" (PStr "") data = PStr "" ->
  Py.dict_get_default "limit" (PInt 50) data = PInt k ->
  faults s = [] ->
  exists s',
    search_memory validate describe (Some key) data s
    = (Ret (mkResponse 200
              (PDict [("data",
                       PList (firstn (Z.to_nat k) (all_memories s)))])),
       s').
Proof.
  intros Hkey Haid Hq Hk Hf.
  unfold search_memory, handle, try_except, bind.
  rewrite (get_service_ok key s Hkey), Haid; cbn [negb].
  destruct (RouteClaims.search_all_ok data "" k s Hq Hk Hf) as (s' & E).
  exists s'; rewrite E.
  change (PyStr.lower "") with "".
  rewrite all_matches_empty; reflexivity.
Qed.

Lemma search_without_query_witness :
  exists s',
    search_memory (fun _ => None) (fun model _ => model) (Some "key")
                  [("limit", PInt 1)] Sample.st0
    = (Ret (mkResponse 200
              (PDict [("data", PList (firstn 1 (all_memories Sample.st0)))])),
       s').
Proof.
  apply (search_without_query (fun _ => None) (fun model _ => model) "key"
           [("limit", PInt 1)] 1 Sample.st0);
    reflexivity.
Defined.

(** X16.  [BackboardService.search_memory] never looks at the tags of the
    search, takes a limit of 0 for the default of 10, and returns only
    memories of the assistant, which contain the query case-insensitively
    when the query is not empty, at most [limit] of them for a limit that
    is not negative. *)
Theorem service_search_laws
    (search : MemorySearch) (aid : string) (s : State) :
  (forall tags',
      service_search_memory
        (mkMemorySearch (ms_query search) (ms_limit search) tags') aid s
      = service_search_memory search aid s)
  /\ (ms_limit search = Some 0 ->
      service_search_memory search aid s
      = service_search_memory
          (mkMemorySearch (ms_query search) None (ms_tags search)) aid s)
  /\ (forall ms s',
         service_search_memory search aid s = (Ret ms, s') ->
         (forall m,
             In m ms ->
             In m (listing aid (memories s))
             /\ (Py.str_truthy (ms_query search) = true ->
                 matches_query (PyStr.lower (ms_query search)) m = true))
         /\ (0 <= Py.int_or (ms_limit search) 10 ->
             Z.of_nat (List.length ms) <= Py.int_or (ms_limit search) 10)
         /\ Py.int_or (ms_limit search) 10 <> 0).
Proof.
  split; [reflexivity|]; split.
  - intros H0; unfold service_search_memory; cbn [ms_limit ms_query].
    rewrite H0; reflexivity.
  - intros ms s'; unfold service_search_memory, bind.
    destruct (list_memories_any aid s)
      as (r & s1 & -> & _ & _ & [->|[e ->]]); [|discriminate].
    unfold ret; intros [= <- <-]; split; [|split].
    + intros m Hm; apply slice_to_incl in Hm.
      destruct (Py.str_truthy (ms_query search)).
      * apply filter_In in Hm; destruct Hm as [Hin Hq]; auto.
      * split; [exact Hm|discriminate].
    + intros Hk; unfold slice_to.
      replace (0 <=? Py.int_or (ms_limit search) 10) with true
        by (symmetry; apply Z.leb_le, Hk).
      rewrite length_firstn; lia.
    + unfold Py.int_or; destruct (ms_limit search) as [z|]; [|discriminate].
      destruct (z =? 0) eqn:E; [discriminate|].
      apply Z.eqb_neq, E.
Qed.

(** X17.  [POST /api/memory] stores the memory and answers 201 with the
    content, metadata and tags of the request, but with [id: null]: the
    id the platform gave the memory is not reported.  On a platform that
    hands out ids not in use, [GET /api/memory/<id>] with that id then
    returns the content and the metadata, without the tags, which never
    reach the platform. *)
Theorem store_then_get
    (describe : string -> pydict -> string)
    (key : string) (data : pydict) (aid content : string)
    (metadata : option pydict) (tags : option (list string)) (s : State) :
  Py.str_truthy key = true ->
  Py.dict_lookup "assistant_id" data = Some (PStr aid) ->
  Py.str_truthy aid = true ->
  Py.dict_lookup "content" data = Some (PStr content) ->
  optional_dict (Py.dict_lookup "metadata" data) = Some metadata ->
  optional_str_list (Py.dict_lookup "tags" data) = Some tags ->
  faults s = [] ->
  next_ids_unused 1 s = true ->
  exists s1,
    store_memory describe (Some key) (PDict data) s
    = (Ret (mkResponse 201
              (PDict (dump_memory_items
                        (mkMemory None content metadata tags)))),
       s1)
    /\ memories s1
       = (memories s ++ [posted aid (next_id s) content metadata])%list
    /\ get_memory (Some key) (mint (next_id s)) (Some aid) s1
       = (Ret (mkResponse 200
                 (PDict (dump_memory_items
                           (mkMemory (Some (mint (next_id s))) content
                                     metadata None)))),
          s1).
Proof.
  intros Hkey Haid Htr Hc Hm Ht Hf Hun.
  eexists; split; [|split].
  - unfold store_memory, handle, try_except, bind.
    rewrite (get_service_ok key s Hkey).
    unfold Py.dict_get; rewrite Haid, str_truthy_truthy, Htr; cbn [negb].
    unfold MemoryCreate_init.
    rewrite !lookup_without by reflexivity.
    rewrite Hc, Hm, Ht; unfold ret at 1.
    change (PyStr.str (PStr aid)) with aid.
    rewrite (store_memory_ok _ aid s Hf); reflexivity.
  - reflexivity.
  - unfold get_memory, handle, try_except, bind.
    rewrite get_service_ok by exact Hkey.
    change (Py.opt_str_truthy (Some aid)) with (Py.str_truthy aid).
    rewrite Htr; cbn [negb].
    unfold BackboardService.retrieve_memory, bind, gets.
    rewrite remote_call_ok by exact Hf.
    cbn [memories set_memories set_next_id mc_content mc_metadata].
    rewrite find_app_none.
    + cbn [find]; unfold BackboardService.owned_by, BackboardService.has_id.
      cbn [rm_owner rm_id]; rewrite !String.eqb_refl; reflexivity.
    + intros x Hx; apply andb_false_iff; right.
      apply (unused_fresh 1 s x (next_id s) Hun Hx); lia.
Qed.

Lemma store_then_get_witness :
  exists s1,
    store_memory (fun model _ => model) (Some "key")
      (PDict [("assistant_id", PStr "asst-1"); ("content", PStr "note");
              ("tags", PList [PStr "a"])])
      Sample.st0
    = (Ret (mkResponse 201
              (PDict [("id", PNone); ("content", PStr "note");
                      ("metadata", PNone); ("tags", PList [PStr "a"]);
                      ("created_at", PNone); ("updated_at", PNone)])),
       s1)
    /\ memories s1
       = (memories Sample.st0 ++ [posted "asst-1" 7 "note" None])%list
    /\ get_memory (Some "key") "id-7" (Some "asst-1") s1
       = (Ret (mkResponse 200
                 (PDict [("id", PStr "id-7"); ("content", PStr "note");
                         ("metadata", PNone); ("tags", PNone);
                         ("created_at", PNone); ("updated_at", PNone)])),
          s1).
Proof.
  apply (store_then_get (fun model _ => model) "key"
           [("assistant_id", PStr "asst-1"); ("content", PStr "note");
            ("tags", PList [PStr "a"])]
           "asst-1" "note" None (Some ["a"]) Sample.st0);
    reflexivity.
Defined.

(** X18.  What [POST /api/memory] and [DELETE /api/memory/<id>] refuse,
    each time before any remote call: a missing or empty [assistant_id]
    gives 400, whatever else the body holds; a body with an
    [assistant_id] and no [content] gives 401, as the validation error is
    a [ValueError]; a body that is no object gives 500. *)
Theorem memory_routes_reject
    (describe : string -> pydict -> string) (key : string) (s : State) :
  Py.str_truthy key = true ->
  (forall data,
      Py.truthy (Py.dict_get "assistant_id" data) = false ->
      store_memory describe (Some key) (PDict data) s
      = (Ret (error_response 400 "assistant_id is required"), s))
  /\ (forall data,
         Py.truthy (Py.dict_get "assistant_id" data) = true ->
         Py.dict_lookup "content" data = None ->
         store_memory describe (Some key) (PDict data) s
         = (Ret (error_response 401
                   (describe "MemoryCreate" (without_assistant_id data))),
            s))
  /\ (forall data,
         (forall d, data <> PDict d) ->
         store_memory describe (Some key) data s
         = (Ret (error_response 500
                   ("'" ++ type_name data
                    ++ "' object has no attribute 'get'")),
            s))
  /\ (forall memory_id assistant_id,
         Py.opt_str_truthy assistant_id = false ->
         delete_memory (Some key) memory_id assistant_id s
         = (Ret (error_response 400 "assistant_id is required"), s)).
Proof.
  intros Hkey; split; [|split; [|split]].
  - intros data Haid.
    unfold store_memory, handle, try_except, bind.
    rewrite (get_service_ok key s Hkey), Haid; reflexivity.
  - intros data Haid Hc.
    unfold store_memory, handle, try_except, bind.
    rewrite (get_service_ok key s Hkey), Haid; cbn [negb].
    unfold MemoryCreate_init.
    rewrite (lookup_without "content" data eq_refl), Hc; reflexivity.
  - intros data Hno.
    unfold store_memory, handle, try_except, bind.
    rewrite (get_service_ok key s Hkey).
    destruct data; try reflexivity.
    exfalso; apply (Hno d); reflexivity.
  - intros memory_id assistant_id Haid.
    unfold delete_memory, handle, try_except, bind.
    rewrite (get_service_ok key s Hkey), Haid; reflexivity.
Qed.

Lemma memory_routes_reject_witness :
  store_memory (fun model _ => model) (Some "key")
    (PDict [("assistant_id", PStr "asst-1")]) Sample.st0
  = (Ret (error_response 401 "MemoryCreate"), Sample.st0)
  /\ store_memory (fun model _ => model) (Some "key")
       (PDict [("content", PInt 3)]) Sample.st0
     = (Ret (error_response 400 "assistant_id is required"), Sample.st0).
Proof.
  destruct (memory_routes_reject (fun model _ => model) "key" Sample.st0
              eq_refl) as (H400 & H401 & _).
  split.
  - apply (H401 [("assistant_id", PStr "asst-1")]); reflexivity.
  - apply (H400 [("content", PInt 3)]); reflexivity.
Defined.



End RouteExtras.


(* ------------------------------------------------------------------ *)
(** ** The count routes *)

Module CountFacts.
Import BackboardService BackboardCache CacheSpec CacheLaws CountLaws
       Routes CacheRoutes ServiceFacts HolderFacts DeleteFacts GetFacts
       CacheMoreFacts.

Lemma set_self_twice x y s : set_self x (set_self y s) = set_self x s.
Proof. reflexivity. Qed.

(** A holder found on the first page stays the answer, whether or not its
    id is taken for resolved. *)
Lemma holder_stable s a :
  faults s = [] ->
  find is_cache_assistant (first_page s) = Some a ->
  self_cache_assistant_id s = Some (a_id a) ->
  _get_cache_assistant_id s = (Ret (a_id a), s).
Proof.
  intros Hf Hfind Hs.
  destruct (Py.str_truthy (a_id a)) eqn:Ht.
  - apply holder_known; assumption.
  - rewrite (holder_found s a); [|rewrite Hs; exact Ht|exact Hf|exact Hfind].
    rewrite (set_self_same s _ Hs); reflexivity.
Qed.

(** [get_hit] for a cache object that resolves its holder on the way *)
Lemma get_hit_from key ttl s aid s1 A e B ct tl :
  faults s = [] ->
  _get_cache_assistant_id s = (Ret aid, s1) ->
  memories s = (A ++ e :: B)%list ->
  existsb (entry_for aid key) A = false ->
  entry_for aid key e = true ->
  timing (Py.int_or ttl CACHE_TTL) (to_Memory e) = Some (ct, tl) ->
  now s - ct < tl ->
  get key ttl s = (Ret (decode (rm_content e)), s1).
Proof.
  intros Hf Hr Hmem HA He Ht Hage.
  destruct (holder_ok s Hf) as (aid' & s1' & Hr' & Hm & Hn & Hf1 & Hset).
  rewrite Hr in Hr'; injection Hr' as <- <-.
  unfold get, try_except, get_try, bind; rewrite Hr.
  rewrite (list_memories_ok aid s1 Hf1), Hm.
  change (map to_Memory (filter (owned_by aid) (memories s)))
    with (listing aid (memories s)).
  rewrite Hmem, listing_app, get_loop_skip
    by (apply listing_no_match, HA).
  unfold entry_for in He; apply andb_true_iff in He; destruct He as [Ho Hk].
  unfold listing; simpl filter; rewrite Ho; simpl map.
  cbn [get_loop]; rewrite Hk.
  unfold timing in Ht.
  unfold int_time, gets, bind, int_sub, int_lt, ret.
  destruct (Py.as_int (Py.dict_get_default "cache_time" (PInt 0)
                         (metadata_dict (to_Memory e)))) as [ct'|];
    [|discriminate].
  destruct (Py.as_int (Py.dict_get_default "ttl"
                         (PInt (Py.int_or ttl CACHE_TTL))
                         (metadata_dict (to_Memory e)))) as [tl'|];
    [|discriminate].
  injection Ht as -> ->.
  rewrite Hn.
  replace (now s - ct <? tl) with true by (symmetry; apply Z.ltb_lt, Hage).
  reflexivity.
Qed.

Lemma decode_int n : decode (encode (PInt n)) = Value (PInt n).
Proof.
  unfold decode, encode.
  rewrite (JsonFacts.loads_dumps (PInt n) eq_refl); reflexivity.
Qed.

Lemma no_entry_for key aid s :
  no_entry key s = true ->
  existsb (entry_for aid key) (memories s) = false.
Proof.
  unfold no_entry; intros H; apply negb_true_iff in H.
  destruct (existsb (entry_for aid key) (memories s)) eqn:E; [|reflexivity].
  apply existsb_exists in E; destruct E as (x & Hx & He).
  unfold entry_for in He; apply andb_true_iff in He.
  assert (existsb (fun x => holds_key key (to_Memory x)) (memories s) = true)
    by (apply existsb_exists; exists x; tauto).
  congruence.
Qed.



Lemma first_page_counted a s : In a (first_page s) -> In a (counted s).
Proof.
  unfold first_page, counted; intros H.
  replace (firstn 100 (assistants s))
    with (firstn 100 (firstn (Z.to_nat 10000) (assistants s))) in H
    by (rewrite firstn_firstn; f_equal; lia).
  rewrite <- (firstn_skipn 100 (firstn (Z.to_nat 10000) (assistants s))).
  apply in_or_app; left; exact H.
Qed.

(** *** The fan-out of the memory count *)

Lemma memories_of_cons a l s :
  memories_of (a :: l) s
  = Z.of_nat (List.length (listing (a_id a) (memories s)))
    + memories_of l s.
Proof.
  unfold memories_of; cbn [flat_map]; rewrite length_app; lia.
Qed.

Lemma memories_of_frame l s s' :
  memories s' = memories s -> memories_of l s' = memories_of l s.
Proof. unfold memories_of; intros ->; reflexivity. Qed.

Lemma sum_memories_ok l :
  forall total s,
    faults s = [] ->
    sum_memories l total s = (Ret (total + memories_of l s), s).
Proof.
  induction l as [|a l IH]; intros total s Hf.
  - unfold memories_of; simpl; unfold ret; rewrite Z.add_0_r; reflexivity.
  - cbn [sum_memories]; unfold bind at 1, fetch_memories, try_except, bind.
    rewrite (list_memories_ok (a_id a) s Hf); unfold ret at 1.
    rewrite (IH _ s Hf), memories_of_cons.
    unfold listing; rewrite Z.add_assoc; reflexivity.
Qed.

Lemma sum_memories_any l :
  forall total s,
    exists n s',
      sum_memories l total s = (Ret n, s')
      /\ memories s' = memories s
      /\ total <= n <= total + memories_of l s.
Proof.
  induction l as [|a l IH]; intros total s.
  - exists total, s; unfold memories_of; simpl; repeat split; lia.
  - cbn [sum_memories]; unfold bind at 1, fetch_memories, try_except, bind.
    destruct (list_memories_any (a_id a) s)
      as (r & s1 & -> & _ & Hm & [->|[e ->]]); unfold ret at 1.
    + destruct (IH (total + Z.of_nat (List.length
                                        (listing (a_id a) (memories s))))
                   s1)
        as (n & s' & E & Hm' & Hn).
      exists n, s'; split; [exact E|]; split; [congruence|].
      rewrite memories_of_cons.
      rewrite (memories_of_frame l s s1 Hm) in Hn; lia.
    + destruct (IH (total + 0) s1) as (n & s' & E & Hm' & Hn).
      exists n, s'; split; [exact E|]; split; [congruence|].
      rewrite memories_of_cons.
      rewrite (memories_of_frame l s s1 Hm) in Hn; lia.
Qed.

End CountFacts.

Module CountExtras.
Import BackboardService BackboardCache CacheSpec CacheLaws CountLaws
       Routes CacheRoutes ServiceFacts HolderFacts DeleteFacts GetFacts
       CacheMoreFacts CountFacts.

(** X20.  [GET /api/cache/assistants-count], when the holder is on the
    first page of the listing and nothing is cached: the first request
    counts the listed assistants, the holder among them, and stores the
    count; after that every request within 3600 seconds answers with that
    count and [cached: true], whatever has become of the assistants, as
    long as the holder is found and the stored memories are the same. *)
Theorem assistants_count_cached (key : string) (s : State) (a : Assistant) :
  Py.str_truthy key = true ->
  faults s = [] ->
  find is_cache_assistant (first_page s) = Some a ->
  no_entry "assistants_count_total" s = true ->
  exists s1,
    get_assistants_count (Some key) s
    = (Ret (Answer (count_response (PInt (Z.of_nat (List.length (counted s))))
                              false)),
       s1)
    /\ 1 <= Z.of_nat (List.length (counted s))
    /\ assistants s1 = assistants s
    /\ faults s1 = []
    /\ forall s2 a2,
         faults s2 = [] ->
         memories s2 = memories s1 ->
         find is_cache_assistant (first_page s2) = Some a2 ->
         a_id a2 = a_id a ->
         now s2 - now s < 3600 ->
         get_assistants_count (Some key) s2
         = (Ret (Answer (count_response
                      (PInt (Z.of_nat (List.length (counted s)))) true)),
            set_self (Some (a_id a)) s2).
Proof.
  intros Hkey Hf Hfind Hno.
  set (aid := a_id a).
  set (s0 := set_self None s).
  set (sA := set_self (Some aid) s0).
  set (n := Z.of_nat (List.length (counted s))).
  assert (Hr0 : _get_cache_assistant_id s0 = (Ret aid, sA))
    by (apply (holder_found s0 a); [reflexivity|exact Hf|exact Hfind]).
  assert (HrA : _get_cache_assistant_id sA = (Ret aid, sA))
    by (apply (holder_stable sA a); [exact Hf|exact Hfind|reflexivity]).
  pose proof (no_entry_for "assistants_count_total" aid s Hno) as Hnone.
  exists (after_set aid "assistants_count_total" (PInt n) (Some 3600) sA sA).
  split; [|split; [|split; [|split]]].
  - unfold get_assistants_count, cached_count, handle_count, try_except,
      bind, new_cache, modify.
    change (Py.opt_str_truthy (Some key)) with (Py.str_truthy key).
    rewrite Hkey; cbn [negb]; fold s0.
    rewrite (get_miss "assistants_count_total" None s0 aid sA Hf Hr0 Hnone).
    rewrite (list_assistants_ok 0 (Z.to_nat 10000) sA Hf).
    unfold ret at 1.
    change (firstn (Z.to_nat 10000) (skipn 0 (assistants sA)))
      with (counted s); fold n.
    rewrite (set_ok "assistants_count_total" (PInt n) (Some 3600) sA aid sA
               Hf HrA).
    reflexivity.
  - assert (Hin : In a (counted s))
      by (apply first_page_counted, (find_some _ _ Hfind)).
    unfold n; destruct (counted s); [destruct Hin|].
    cbn [List.length]; lia.
  - reflexivity.
  - exact Hf.
  - intros s2 a2 Hf2 Hm2 Hfind2 Ha2 Hage.
    set (s20 := set_self None s2).
    assert (Hr2 : _get_cache_assistant_id s20
                  = (Ret aid, set_self (Some aid) s20)).
    { rewrite <- Ha2.
      apply (holder_found s20 a2); [reflexivity|exact Hf2|exact Hfind2]. }
    destruct (after_set_fields aid "assistants_count_total" (PInt n)
                (Some 3600) sA sA) as (_ & _ & _ & _ & _ & Hmem1).
    unfold get_assistants_count, cached_count, handle_count, try_except,
      bind, new_cache, modify.
    change (Py.opt_str_truthy (Some key)) with (Py.str_truthy key).
    rewrite Hkey; cbn [negb]; fold s20.
    rewrite (get_hit_from "assistants_count_total" None s20 aid
               (set_self (Some aid) s20)
               (filter (kept aid (targets (holds_key "assistants_count_total")
                                          (listing aid (memories sA))))
                       (memories sA))
               (stored_entry aid (next_id sA) "assistants_count_total"
                             (PInt n) (Some 3600) (now sA))
               [] (now s) 3600).
    + change (rm_content (stored_entry aid (next_id sA)
                            "assistants_count_total" (PInt n) (Some 3600)
                            (now sA)))
        with (encode (PInt n)).
      rewrite decode_int; reflexivity.
    + exact Hf2.
    + exact Hr2.
    + change (memories s20) with (memories s2); rewrite Hm2; exact Hmem1.
    + apply existsb_filter_false; exact Hnone.
    + apply stored_entry_for.
    + reflexivity.
    + exact Hage.
Qed.

Lemma assistants_count_cached_witness :
  exists s1,
    get_assistants_count (Some "key") Sample.st0
    = (Ret (Answer (count_response (PInt 2) false)), s1)
    /\ get_assistants_count (Some "key") (set_now 5599 s1)
       = (Ret (Answer (count_response (PInt 2) true)),
          set_self (Some "asst-cache") (set_now 5599 s1)).
Proof.
  destruct (assistants_count_cached "key" Sample.st0 Sample.holder
              eq_refl eq_refl eq_refl eq_refl)
    as (s1 & E & _ & Ha & Hf1 & Hnext).
  exists s1; split; [exact E|].
  apply (Hnext (set_now 5599 s1) Sample.holder);
    [exact Hf1|reflexivity| |reflexivity|reflexivity].
  unfold CacheLaws.first_page.
  change (assistants (set_now 5599 s1)) with (assistants s1).
  rewrite Ha; reflexivity.
Defined.



(** X22.  [GET /api/cache/memory-count], when the holder is on the first
    page, nothing is cached and no remote call fails: the count is the
    number of memories the listed assistants own together, the entries of
    the cache holder included. *)
Theorem memory_count_total (key : string) (s : State) (a : Assistant) :
  Py.str_truthy key = true ->
  faults s = [] ->
  find is_cache_assistant (first_page s) = Some a ->
  no_entry "memory_count_total" s = true ->
  exists s1,
    get_memory_count (Some key) s
    = (Ret (Answer (count_response (PInt (memories_of (counted s) s)) false)), s1)
    /\ In a (counted s).
Proof.
  intros Hkey Hf Hfind Hno.
  set (aid := a_id a).
  set (s0 := set_self None s).
  set (sA := set_self (Some aid) s0).
  assert (Hr0 : _get_cache_assistant_id s0 = (Ret aid, sA))
    by (apply (holder_found s0 a); [reflexivity|exact Hf|exact Hfind]).
  assert (HrA : _get_cache_assistant_id sA = (Ret aid, sA))
    by (apply (holder_stable sA a); [exact Hf|exact Hfind|reflexivity]).
  pose proof (no_entry_for "memory_count_total" aid s Hno) as Hnone.
  eexists; split.
  - unfold get_memory_count, cached_count, handle_count, try_except,
      bind, new_cache, modify.
    change (Py.opt_str_truthy (Some key)) with (Py.str_truthy key).
    rewrite Hkey; cbn [negb]; fold s0.
    rewrite (get_miss "memory_count_total" None s0 aid sA Hf Hr0 Hnone).
    rewrite (list_assistants_ok 0 (Z.to_nat 10000) sA Hf).
    change (firstn (Z.to_nat 10000) (skipn 0 (assistants sA)))
      with (counted s).
    rewrite (sum_memories_ok (counted s) 0 sA Hf).
    change (memories_of (counted s) sA) with (memories_of (counted s) s).
    rewrite Z.add_0_l.
    rewrite (set_ok "memory_count_total" _ (Some 3600) sA aid sA Hf HrA).
    reflexivity.
  - apply first_page_counted, (find_some _ _ Hfind).
Qed.

Lemma memory_count_total_witness :
  exists s1,
    get_memory_count (Some "key") Sample.st0
    = (Ret (Answer (count_response (PInt 4) false)), s1).
Proof.
  destruct (memory_count_total "key" Sample.st0 Sample.holder
              eq_refl eq_refl eq_refl eq_refl) as (s1 & E & _).
  exists s1; exact E.
Defined.

(** X23.  The fan-out of the memory count never fails and never counts
    too much: whatever remote calls fail, it returns a number between 0
    and the number of memories the assistants own, and deletes or stores
    nothing. *)
Theorem memory_fan_out_bounds (l : list Assistant) (s : State) :
  exists n s',
    sum_memories l 0 s = (Ret n, s')
    /\ memories s' = memories s
    /\ 0 <= n <= memories_of l s
    /\ (faults s = [] -> n = memories_of l s).
Proof.
  destruct (sum_memories_any l 0 s) as (n & s' & E & Hm & Hn).
  exists n, s'; split; [exact E|]; split; [exact Hm|]; split; [lia|].
  intros Hf; rewrite (sum_memories_ok l 0 s Hf) in E.
  injection E as <- _; lia.
Qed.

(** X24.  The documents are never listed: [GET /api/documents] calls
    [list_documents] without an assistant and without a thread, which
    returns the empty list without asking the platform, so the route
    answers an empty list whatever the platform holds, and a documents
    count that is computed is 0. *)
Theorem documents_never_listed
    (Document : Type)
    (list_assistant_documents list_thread_documents
       : string -> M (list Document))
    (dump_document : Document -> pyval)
    (key : string) (s : State) :
  Py.str_truthy key = true ->
  list_documents_route list_assistant_documents list_thread_documents
                       dump_document (Some key) s
  = (Ret (mkResponse 200 (PDict [("data", PList [])])), s)
  /\ forall count s',
       get_documents_count list_assistant_documents list_thread_documents
                           (Some key) s
       = (Ret (Answer (count_response count false)), s') ->
       count = PInt 0.
Proof.
  intros Hkey; split.
  - unfold list_documents_route, handle, try_except, bind, get_service.
    change (Py.opt_str_truthy (Some key)) with (Py.str_truthy key).
    rewrite Hkey; reflexivity.
  - intros count s'.
    unfold get_documents_count, cached_count, handle_count, try_except,
      bind, new_cache, modify.
    change (Py.opt_str_truthy (Some key)) with (Py.str_truthy key).
    rewrite Hkey; cbn [negb].
    destruct (get "documents_count_total" None (set_self None s))
      as [[[v|content]|e] sg].
    + destruct v;
        try (unfold ret; intros [= _ Hc _]; discriminate Hc).
      unfold list_documents; cbn [Py.opt_str_truthy]; unfold ret at 1 2.
      cbn [List.length Z.of_nat].
      destruct (set "documents_count_total" (PInt 0) (Some 3600) sg)
        as [[b|e] s2].
      * unfold ret; intros [= <- _]; reflexivity.
      * destruct (is_ValueError e); unfold ret, error_response;
          intros [= Hst _]; discriminate Hst.
    + unfold ret; discriminate.
    + destruct (is_ValueError e); unfold ret, error_response;
        intros [= Hst _]; discriminate Hst.
Qed.

Lemma documents_never_listed_witness :
  list_documents_route (fun _ => raise (RemoteError "unused"))
                       (fun _ => raise (RemoteError "unused"))
                       (fun d : pyval => d) (Some "key") Sample.st0
  = (Ret (mkResponse 200 (PDict [("data", PList [])])), Sample.st0).
Proof.
  apply (proj1 (documents_never_listed pyval
                  (fun _ => raise (RemoteError "unused"))
                  (fun _ => raise (RemoteError "unused"))
                  (fun d : pyval => d) "key" Sample.st0 eq_refl)).
Defined.

End CountExtras.


(* ------------------------------------------------------------------ *)
(** ** The cache under failures and malformed entries *)

Module CacheFailureFacts.
Import BackboardService BackboardCache CacheSpec CacheLaws ServiceFacts
       HolderFacts DeleteFacts ClearFacts GetFacts CacheMoreFacts.




Lemma clear_loop_skip aid t ms1 ms2 n s :
  forallb (fun m => negb (holds_some_key m)) ms1 = true ->
  clear_loop aid t (ms1 ++ ms2) n s = clear_loop aid t ms2 n s.
Proof.
  induction ms1 as [|m ms1 IH]; simpl; auto.
  intros H; apply andb_true_iff in H; destruct H as [Hm Hr].
  apply negb_true_iff in Hm; rewrite Hm; auto.
Qed.

Lemma listing_no_keys aid l :
  existsb (fun x => owned_by aid x && holds_some_key (to_Memory x)) l = false ->
  forallb (fun m => negb (holds_some_key m)) (listing aid l) = true.
Proof.
  unfold listing; induction l as [|x l IH]; simpl; auto.
  intros H; apply orb_false_iff in H; destruct H as [Hx Hl].
  destruct (owned_by aid x); simpl in *; auto.
  rewrite Hx; simpl; auto.
Qed.

End CacheFailureFacts.

Module CacheFailureExtras.
Import BackboardService BackboardCache CacheSpec CacheLaws ServiceFacts
       HolderFacts DeleteFacts ClearFacts GetFacts CacheMoreFacts
       CacheFailureFacts.



(** X26.  An entry whose [cache_time] is no number blocks its key: when
    it is the first entry for the key in the listing, the subtraction
    raises, so [get] returns [None] without looking at later entries for
    the key and without deleting anything; and when no entry with a
    [cache_key] comes before it, [clear_expired] returns 0 and deletes
    nothing either, whatever has expired behind it. *)
Theorem malformed_entry_blocks
    (key : string) (ttl : option Z) (s : State) (aid : string) (s1 : State)
    (A B : list RemoteMemory) (x : RemoteMemory) :
  faults s = [] ->
  _get_cache_assistant_id s = (Ret aid, s1) ->
  memories s = (A ++ x :: B)%list ->
  entry_for aid key x = true ->
  Py.as_int (Py.dict_get_default "cache_time" (PInt 0)
               (metadata_dict (to_Memory x))) = None ->
  (existsb (entry_for aid key) A = false ->
   get key ttl s = (Ret (Value PNone), s1))
  /\ (existsb (fun y => owned_by aid y && holds_some_key (to_Memory y)) A
      = false ->
      holds_some_key (to_Memory x) = true ->
      clear_expired s = (Ret 0, s1))
  /\ memories s1 = memories s.
Proof.
  intros Hf Hr Hmem Hx Hbad.
  destruct (holder_ok s Hf) as (aid' & s1' & Hr' & Hm & Hn & Hf1 & Hset).
  rewrite Hr in Hr'; injection Hr' as <- <-.
  unfold entry_for in Hx; apply andb_true_iff in Hx; destruct Hx as [Ho Hk].
  split; [|split; [|exact Hm]].
  - intros HA.
    unfold get, try_except, get_try, bind; rewrite Hr.
    rewrite (list_memories_ok aid s1 Hf1), Hm.
    change (map to_Memory (filter (owned_by aid) (memories s)))
      with (listing aid (memories s)).
    rewrite Hmem, listing_app, get_loop_skip
      by (apply listing_no_match, HA).
    unfold listing; simpl filter; rewrite Ho; simpl map.
    cbn [get_loop]; rewrite Hk.
    unfold int_time, gets, bind, int_sub; rewrite Hbad; reflexivity.
  - intros HA Hsome.
    unfold clear_expired, try_except, clear_expired_try, bind; rewrite Hr.
    rewrite (list_memories_ok aid s1 Hf1), Hm.
    change (map to_Memory (filter (owned_by aid) (memories s)))
      with (listing aid (memories s)).
    unfold int_time, gets.
    rewrite Hmem, listing_app, clear_loop_skip
      by (apply listing_no_keys, HA).
    unfold listing; simpl filter; rewrite Ho; simpl map.
    cbn [clear_loop]; rewrite Hsome.
    unfold bind, int_sub; rewrite Hbad; reflexivity.
Qed.

Lemma malformed_entry_blocks_witness :
  get "a" None MoreSamples.poisoned
  = (Ret (Value PNone), MoreSamples.poisoned)
  /\ clear_expired MoreSamples.poisoned = (Ret 0, MoreSamples.poisoned).
Proof.
  destruct (malformed_entry_blocks "a" None MoreSamples.poisoned
              "asst-cache" MoreSamples.poisoned []
              [Sample.entry "asst-cache" "m2" "a" "2" 1990 3600]
              MoreSamples.corrupt eq_refl eq_refl eq_refl eq_refl eq_refl)
    as (Hget & Hclear & _).
  split; [apply Hget|apply Hclear]; reflexivity.
Defined.

End CacheFailureExtras.
